(** * GazelleSort: a shallow embedding of [gazellesort.py]

    The program logs into a Gazelle tracker, scrapes the ids of the torrents
    the user is seeding, fetches their metadata through the JSON API and
    hard-links every release into a destination directory chosen by format.

    Conventions of the embedding.
    - A Python [str] is a Rocq [string]; every character stands for one code
      point, so the model covers text in the range U+0000..U+00FF.  In that
      range the regular-expression class [\d] is exactly the ASCII digits.
    - Values decoded from JSON are [pyval]s; JSON numbers are integers
      (a Python [int], unbounded, hence [Z]).
    - A Python [float] is the dyadic number it denotes ([pyfloat]); true
      division is the correctly rounded binary64 quotient, as CPython
      computes it for [int / int].
    - A computation either returns, raises one of the interpreter's
      exceptions, or is [Unmodelled] when it leaves the fragment of the
      interpreter described here ([str()] of a list or dict, a conversion
      other than [%(key)s] and [%%] in a format string).
    - Effects (HTTP requests, the progress bar, the [cp] subprocess) are
      recorded in a trace, oldest first; the network is an oracle that
      answers a request from the trace so far.  The rate limiter only delays
      calls and is transparent here; the messages printed besides the
      progress bar are left out.
    - The methods embedded are [checkConfig], [ajaxrequest], [getSnatched]
      with [readPage], [scanTorrents], [renderName] and [processFiles]
      (module [GazelleSort]), then [__init__], [login], [logout],
      [prepareDirs], [run] and the body of the script (module [Run]). *)

From Stdlib Require Import ZArith List String Ascii Bool Lia.
From Stdlib Require Import DecimalString Sorted Permutation OrderedTypeEx.
Import ListNotations.

Local Open Scope list_scope.
Local Open Scope string_scope.
Local Open Scope Z_scope.

(** ** The Python runtime the program relies on *)

Module Py.

(** Values as [json.loads] produces them. A dict keeps insertion order. *)
#[local] Unset Elimination Schemes.
Inductive pyval : Type :=
| PyNone
| PyBool (b : bool)
| PyInt (z : Z)
| PyStr (s : string)
| PyList (xs : list pyval)
| PyDict (kvs : list (string * pyval)).
#[local] Set Elimination Schemes.

Inductive exn : Type :=
| KeyError (key : string)
| TypeError
| AttributeError
| ValueError
| UnicodeDecodeError
| ZeroDivisionError
| OverflowError
| RequestException (msg : string).

Inductive result (A : Type) : Type :=
| Ok (a : A)
| Raise (e : exn)
| Unmodelled.
Arguments Ok {A} a.
Arguments Raise {A} e.
Arguments Unmodelled {A}.

Definition rbind {A B} (r : result A) (k : A -> result B) : result B :=
  match r with
  | Ok a => k a
  | Raise e => Raise e
  | Unmodelled => Unmodelled
  end.

Notation "x <- c1 ;; c2" := (rbind c1 (fun x => c2))
  (at level 61, c1 at next level, right associativity).

Fixpoint mapM {A B} (f : A -> result B) (l : list A) : result (list B) :=
  match l with
  | [] => Ok []
  | a :: l' => b <- f a ;; bs <- mapM f l' ;; Ok (b :: bs)
  end.

(** *** dict, list and str primitives *)

Fixpoint dict_get {V} (kvs : list (string * V)) (k : string) : option V :=
  match kvs with
  | [] => None
  | (k', v) :: kvs' => if String.eqb k' k then Some v else dict_get kvs' k
  end.

Definition dict_mem {V} (kvs : list (string * V)) (k : string) : bool :=
  match dict_get kvs k with Some _ => true | None => false end.

(** [d[k] = v]: an existing key keeps its position. *)
Fixpoint dict_set {K V} (eqb : K -> K -> bool) (kvs : list (K * V)) (k : K) (v : V)
  : list (K * V) :=
  match kvs with
  | [] => [(k, v)]
  | (k', v') :: kvs' =>
      if eqb k' k then (k, v) :: kvs' else (k', v') :: dict_set eqb kvs' k v
  end.

(** [x[k]] for a string [k]. *)
Definition getitem (x : pyval) (k : string) : result pyval :=
  match x with
  | PyDict kvs =>
      match dict_get kvs k with
      | Some v => Ok v
      | None => Raise (KeyError k)
      end
  | _ => Raise TypeError
  end.

(** [x[k1][k2]...] *)
Fixpoint getpath (x : pyval) (ks : list string) : result pyval :=
  match ks with
  | [] => Ok x
  | k :: ks' => y <- getitem x k ;; getpath y ks'
  end.

(** [x == lit] for a string literal [lit]. *)
Definition eq_str (x : pyval) (lit : string) : bool :=
  match x with
  | PyStr s => String.eqb s lit
  | _ => false
  end.

(** What is left of [s] after its prefix [p], if [s] starts with [p]. *)
Fixpoint strip_prefix (p s : string) : option string :=
  match p with
  | "" => Some s
  | String a p' =>
      match s with
      | "" => None
      | String b s' => if Ascii.eqb a b then strip_prefix p' s' else None
      end
  end.

(** [s.startswith(p)] *)
Definition startswith (p s : string) : bool :=
  match strip_prefix p s with Some _ => true | None => false end.

Fixpoint is_substring (s t : string) : bool :=
  startswith s t ||
  match t with
  | "" => false
  | String _ t' => is_substring s t'
  end.

(** [item in c], where [item] is [None] or a str. *)
Definition contains (c : pyval) (item : option string) : result bool :=
  match c with
  | PyDict kvs =>
      Ok (match item with Some k => dict_mem kvs k | None => false end)
  | PyList xs =>
      Ok (existsb (fun x => match item, x with
                            | Some k, PyStr s => String.eqb s k
                            | None, PyNone => true
                            | _, _ => false
                            end) xs)
  | PyStr t =>
      match item with
      | Some s => Ok (is_substring s t)
      | None => Raise TypeError
      end
  | _ => Raise TypeError
  end.

Definition isinstance_str (x : pyval) : bool :=
  match x with PyStr _ => true | _ => false end.

Definition isinstance_dict (x : pyval) : bool :=
  match x with PyDict _ => true | _ => false end.

(** [len(x)] *)
Definition len (x : pyval) : result Z :=
  match x with
  | PyStr s => Ok (Z.of_nat (String.length s))
  | PyList xs => Ok (Z.of_nat (List.length xs))
  | PyDict kvs => Ok (Z.of_nat (List.length kvs))
  | _ => Raise TypeError
  end.

(** The integer a value stands for in arithmetic ([bool] is a subclass of
    [int]). *)
Definition as_int (x : pyval) : result Z :=
  match x with
  | PyInt z => Ok z
  | PyBool b => Ok (if b then 1 else 0)
  | _ => Raise TypeError
  end.

(** What [for a in x] yields. *)
Definition iterate (x : pyval) : result (list pyval) :=
  match x with
  | PyList xs => Ok xs
  | PyDict kvs => Ok (map (fun kv => PyStr (fst kv)) kvs)
  | PyStr s => Ok (map (fun c => PyStr (String c "")) (list_ascii_of_string s))
  | _ => Raise TypeError
  end.

Definition str_of_Z (z : Z) : string := NilZero.string_of_int (Z.to_int z).

(** [str(x)] *)
Definition str (x : pyval) : result string :=
  match x with
  | PyNone => Ok "None"
  | PyBool b => Ok (if b then "True" else "False")
  | PyInt z => Ok (str_of_Z z)
  | PyStr s => Ok s
  | PyList _ | PyDict _ => Unmodelled
  end.

(** [x + lit] for a string literal [lit]. *)
Definition add_str (x : pyval) (lit : string) : result string :=
  match x with
  | PyStr s => Ok (s ++ lit)
  | _ => Raise TypeError
  end.

(** [sep.join(l)] on strings. *)
Fixpoint join (sep : string) (l : list string) : string :=
  match l with
  | [] => ""
  | [s] => s
  | s :: l' => s ++ sep ++ join sep l'
  end.

(** [sorted(l)] on strings: the stable sort by [<] on code points. *)
Fixpoint insert_sorted (x : string) (l : list string) : list string :=
  match l with
  | [] => [x]
  | y :: l' => if String.ltb x y then x :: l else y :: insert_sorted x l'
  end.

Definition sorted (l : list string) : list string :=
  fold_right insert_sorted [] l.

Definition as_str (x : pyval) : option string :=
  match x with PyStr s => Some s | _ => None end.

Fixpoint all_str (l : list pyval) : option (list string) :=
  match l with
  | [] => Some []
  | x :: l' =>
      match as_str x, all_str l' with
      | Some s, Some ss => Some (s :: ss)
      | _, _ => None
      end
  end.

(** [sep.join(sorted(l))] for a str [sep]: a list holding anything but strs
    makes [sorted] or [join] raise [TypeError]. *)
Definition join_sorted (sep : string) (l : list pyval) : result string :=
  match all_str l with
  | Some names => Ok (join sep (sorted names))
  | None => Raise TypeError
  end.

(** [s.replace(c, by)] for a one-character pattern [c]. *)
Fixpoint replace_char (c : ascii) (by_ : string) (s : string) : string :=
  match s with
  | "" => ""
  | String a s' =>
      if Ascii.eqb a c then by_ ++ replace_char c by_ s'
      else String a (replace_char c by_ s')
  end.

Fixpoint contains_char (c : ascii) (s : string) : bool :=
  match s with
  | "" => false
  | String a s' => Ascii.eqb a c || contains_char c s'
  end.

Fixpoint ends_with_char (c : ascii) (s : string) : bool :=
  match s with
  | "" => false
  | String a "" => Ascii.eqb a c
  | String _ s' => ends_with_char c s'
  end.

(** [os.path.join(a, b)] of [posixpath]. *)
Definition os_path_join (a b : string) : string :=
  if startswith "/" b then b
  else if String.eqb a "" || ends_with_char "/" a then a ++ b
  else a ++ "/" ++ b.

(** [html.unescape(s)]: a string without ['&'] is returned as it is; any
    other goes through the substitution of character references, which rests
    on the HTML5 entity table of the standard library and is a parameter
    here. *)
Definition html_unescape (charref_sub : string -> string) (s : string) : string :=
  if contains_char "&" s then charref_sub s else s.

(** *** float

    A finite binary64 value, written [mant * 2 ^ expo]. *)
Record pyfloat : Type := mkfloat { mant : Z; expo : Z }.

(** The integer nearest to [p / q], ties to even ([0 <= p], [0 < q]). *)
Definition round_half_even (p q : Z) : Z :=
  let d := p / q in
  match 2 * (p mod q) ?= q with
  | Lt => d
  | Gt => d + 1
  | Eq => if Z.even d then d else d + 1
  end.

(** [floor (log2 (a / b))] for positive [a] and [b]. *)
Definition quot_log2 (a b : Z) : Z :=
  let l := Z.log2 a - Z.log2 b in
  if b * 2 ^ Z.max 0 l <=? a * 2 ^ Z.max 0 (- l) then l else l - 1.

(** The binary64 nearest to [a / b] for positive [a] and [b]: 53 significant
    bits, exponent no smaller than that of the subnormals, overflow past the
    largest finite value. *)
Definition truediv_pos (a b : Z) : result pyfloat :=
  let e := Z.max (quot_log2 a b - 52) (- 1074) in
  let m := round_half_even (a * 2 ^ Z.max 0 (- e)) (b * 2 ^ Z.max 0 e) in
  if (971 <? e) || ((e =? 971) && (m =? 2 ^ 53)) then Raise OverflowError
  else Ok (mkfloat m e).

(** [a / b] on ints. *)
Definition truediv (a b : Z) : result pyfloat :=
  if b =? 0 then Raise ZeroDivisionError
  else if a =? 0 then Ok (mkfloat 0 0)
  else
    f <- truediv_pos (Z.abs a) (Z.abs b) ;;
    Ok (mkfloat (Z.sgn a * Z.sgn b * mant f) (expo f)).

(** [math.ceil(f)] *)
Definition math_ceil (f : pyfloat) : Z :=
  if 0 <=? expo f then mant f * 2 ^ expo f
  else - ((- mant f) / 2 ^ (- expo f)).

(** [f <= g] and [f < g] on floats. *)
Definition float_leb (f g : pyfloat) : bool :=
  let e := Z.min (expo f) (expo g) in
  mant f * 2 ^ (expo f - e) <=? mant g * 2 ^ (expo g - e).

Definition float_ltb (f g : pyfloat) : bool := negb (float_leb g f).

(** [range(n)] *)
Definition range (n : Z) : list Z := map Z.of_nat (seq 0 (Z.to_nat n)).

(** [l.index(x)]: the position of the first element equal to [x]. *)
Fixpoint index_of {A} (eqb : A -> A -> bool) (x : A) (l : list A) : result Z :=
  match l with
  | [] => Raise ValueError
  | y :: l' =>
      if eqb y x then Ok 0 else i <- index_of eqb x l' ;; Ok (1 + i)
  end.

(** *** re: scanning for the matches of a pattern

    [match_here s] tells whether the pattern matches at the start of [s],
    with what it captured and how many characters it consumed (never zero for
    the patterns of this program).  The scan tries every position from left
    to right and resumes after a match, as [re.findall] and [re.sub] do. *)
Inductive piece (A : Type) : Type :=
| Unmatched (c : ascii)
| Matched (a : A).
Arguments Unmatched {A} c.
Arguments Matched {A} a.

Section Scan.
Context {A : Type} (match_here : string -> option (A * nat)).

Fixpoint scan (skip : nat) (s : string) : list (piece A) :=
  match s with
  | "" => []
  | String c s' =>
      match skip with
      | S k => scan k s'
      | O =>
          match match_here s with
          | Some (a, n) => Matched a :: scan (Nat.pred n) s'
          | None => Unmatched c :: scan 0 s'
          end
      end
  end.

Fixpoint matches (ps : list (piece A)) : list A :=
  match ps with
  | [] => []
  | Unmatched _ :: ps' => matches ps'
  | Matched a :: ps' => a :: matches ps'
  end.

Fixpoint substitute (repl : string) (ps : list (piece A)) : string :=
  match ps with
  | [] => ""
  | Unmatched c :: ps' => String c (substitute repl ps')
  | Matched _ :: ps' => repl ++ substitute repl ps'
  end.

Definition re_findall (s : string) : list A := matches (scan 0 s).

(** [re.sub(pattern, repl, s)] for a replacement without group references. *)
Definition re_sub (repl s : string) : string := substitute repl (scan 0 s).
End Scan.

(** The longest prefix of [s] whose characters satisfy [f], and the rest. *)
Fixpoint span (f : ascii -> bool) (s : string) : string * string :=
  match s with
  | "" => ("", "")
  | String c s' =>
      if f c then let (a, b) := span f s' in (String c a, b) else ("", s)
  end.

Fixpoint all_chars (f : ascii -> bool) (s : string) : bool :=
  match s with
  | "" => true
  | String c s' => f c && all_chars f s'
  end.

(** Whether [s] starts with a character that satisfies [f]. *)
Definition starts_in (f : ascii -> bool) (s : string) : bool :=
  match s with
  | "" => false
  | String c _ => f c
  end.

Definition is_digit (c : ascii) : bool :=
  let n := N_of_ascii c in (48 <=? n)%N && (n <=? 57)%N.

Definition is_hex (c : ascii) : bool :=
  let n := N_of_ascii c in
  is_digit c || ((97 <=? n)%N && (n <=? 102)%N) || ((65 <=? n)%N && (n <=? 70)%N).

(** The number that a string of decimal digits writes. *)
Definition digits_value (s : string) : Z :=
  fold_left (fun acc c => 10 * acc + (Z.of_N (N_of_ascii c) - 48))
            (list_ascii_of_string s) 0.

(** [int(s)] for a string of decimal digits: the interpreter refuses a
    string of more than 4300 digits, leading zeros counted, with
    [ValueError]. *)
Definition int_of_digits (s : string) : result Z :=
  if (4300 <? String.length s)%nat then Raise ValueError
  else Ok (digits_value s).

(** [bytes.decode(b)], that is UTF-8 and strict, on a body given byte by
    byte.  A byte below 0x80 is its own character; 0xC2 or 0xC3 and a
    continuation byte make one of U+0080..U+00FF; a continuation byte in
    the place of a lead byte, the lead bytes 0xC0, 0xC1 and 0xF5..0xFF, and a
    0xC2 or 0xC3 without its continuation byte raise [UnicodeDecodeError];
    the other lead bytes start a character outside the range of this model,
    or an ill-formed sequence, and are left out. *)
Definition is_continuation (c : ascii) : bool :=
  let n := N_of_ascii c in (128 <=? n)%N && (n <=? 191)%N.

Fixpoint bytes_decode (b : string) : result string :=
  match b with
  | "" => Ok ""
  | String c b' =>
      let n := N_of_ascii c in
      if (n <? 128)%N then s <- bytes_decode b' ;; Ok (String c s)
      else if (n =? 194)%N || (n =? 195)%N then
        match b' with
        | String d b'' =>
            if is_continuation d then
              s <- bytes_decode b'' ;;
              Ok (String (ascii_of_N ((n - 194) * 64 + N_of_ascii d)) s)
            else Raise UnicodeDecodeError
        | "" => Raise UnicodeDecodeError
        end
      else if (n <? 194)%N || (244 <? n)%N then Raise UnicodeDecodeError
      else Unmodelled
  end.

(** *** The [%] operator on a str and a dict

    The fragment covered: literal text, [%%] and [%(key)s]. *)
Inductive fmt_state : Type :=
| FText
| FPercent
| FKey (depth : nat) (key : string)
| FConv (v : pyval).

Fixpoint format_go (d : list (string * pyval)) (st : fmt_state) (s : string)
  : result string :=
  match s with
  | "" => match st with FText => Ok "" | _ => Raise ValueError end
  | String c s' =>
      match st with
      | FText =>
          if Ascii.eqb c "%" then format_go d FPercent s'
          else r <- format_go d FText s' ;; Ok (String c r)
      | FPercent =>
          if Ascii.eqb c "%" then r <- format_go d FText s' ;; Ok (String "%" r)
          else if Ascii.eqb c "(" then format_go d (FKey 0 "") s'
          else Unmodelled
      | FKey depth key =>
          if Ascii.eqb c ")" then
            match depth with
            | O =>
                match dict_get d key with
                | Some v => format_go d (FConv v) s'
                | None => Raise (KeyError key)
                end
            | S n => format_go d (FKey n (key ++ ")")) s'
            end
          else if Ascii.eqb c "(" then format_go d (FKey (S depth) (key ++ "(")) s'
          else format_go d (FKey depth (key ++ String c "")) s'
      | FConv v =>
          if Ascii.eqb c "s" then
            x <- str v ;; r <- format_go d FText s' ;; Ok (x ++ r)
          else Unmodelled
      end
  end.

(** [fmt % d] *)
Definition format (fmt : pyval) (d : list (string * pyval)) : result string :=
  match fmt with
  | PyStr s => format_go d FText s
  | _ => Raise TypeError
  end.

End Py.

(** ** The program *)

Module GazelleSort.
Import Py.

(** What [requests] hands back: [json] is [None] when the body does not
    decode ([response.json()] raises [JSONDecodeError]); [content] is the
    body, byte by byte. *)
Record Response : Type := mkResponse {
  url : string;
  status_code : Z;
  json : option pyval;
  content : string
}.

Inductive event : Type :=
| SessionGet (target : string) (params : list (string * pyval))
| ProgressBar (progress : pyfloat) (length : Z) (heartbeat : bool)
| SubprocessCall (args : list string).

Definition trace : Type := list event.

(** The attributes of the [GazelleSort] object that the methods below use.
    [userid] is [None] until [run] has set the attribute. *)
Record self : Type := mkSelf {
  config : pyval;
  authkey : pyval;
  userid : option pyval;
  snatches : list (Z * Z);
  torrentdata : list (Z * pyval)
}.

(** Computations with effects: the trace so far in, the outcome and the
    extended trace out.  What happened before an exception stays. *)
Definition M (A : Type) : Type := trace -> result A * trace.

Definition ret {A} (a : A) : M A := fun tr => (Ok a, tr).

Definition bind {A B} (m : M A) (k : A -> M B) : M B :=
  fun tr =>
    match m tr with
    | (Ok a, tr') => k a tr'
    | (Raise e, tr') => (Raise e, tr')
    | (Unmodelled, tr') => (Unmodelled, tr')
    end.

Definition lift {A} (r : result A) : M A := fun tr => (r, tr).

Definition emit (ev : event) : M unit := fun tr => (Ok tt, (tr ++ [ev])%list).

Notation "x <~ c1 ;; c2" := (bind c1 (fun x => c2))
  (at level 61, c1 at next level, right associativity).

(** *** The two regular expressions *)

(** ["auth=[\da-fA-F]+"] *)
Definition match_auth (s : string) : option (unit * nat) :=
  match strip_prefix "auth=" s with
  | Some rest =>
      match fst (span is_hex rest) with
      | "" => None
      | key => Some (tt, (5 + String.length key)%nat)
      end
  | None => None
  end.

(** ["torrents.php\?id=(?P<groupid>\d+)&amp;torrentid=(?P<torrentid>\d+)"]:
    the dot stands for any character but a newline. *)
Definition match_link (s : string) : option ((string * string) * nat) :=
  match strip_prefix "torrents" s with
  | Some (String dot s1) =>
      if Ascii.eqb dot "010" then None
      else
        match strip_prefix "php?id=" s1 with
        | Some s2 =>
            let (groupid, s3) := span is_digit s2 in
            match groupid, strip_prefix "&amp;torrentid=" s3 with
            | String _ _, Some s4 =>
                match fst (span is_digit s4) with
                | "" => None
                | torrentid =>
                    Some ((groupid, torrentid),
                          (8 + 1 + 7 + String.length groupid + 15
                           + String.length torrentid)%nat)
                end
            | _, _ => None
            end
        | None => None
        end
  | _ => None
  end.

(** *** checkConfig *)

Definition necessaryparams : list (string * (pyval -> bool)) :=
  [("url", isinstance_str); ("username", isinstance_str);
   ("password", isinstance_str); ("torrentdir", isinstance_str);
   ("destdirs", isinstance_dict); ("pattern", isinstance_dict)].

(** [all(item in config for item in names)]: stops at the first absent one. *)
Fixpoint all_present (cfg : pyval) (names : list string) : result bool :=
  match names with
  | [] => Ok true
  | n :: names' =>
      b <- contains cfg (Some n) ;;
      if b then all_present cfg names' else Ok false
  end.

(** [item in config] for [item] one of the tuples of [necessaryparams]: a
    tuple is no key of a dict decoded from JSON and equals no element of a
    decoded list; a str takes nothing but a str on the left of [in]. *)
Definition contains_item (cfg : pyval) (item : string * (pyval -> bool))
  : result bool :=
  match cfg with
  | PyDict _ | PyList _ => Ok false
  | _ => Raise TypeError
  end.

(** ["  " + missing] for [missing] one of these tuples: a str and a tuple
    cannot be concatenated. *)
Definition print_missing (missing : string * (pyval -> bool)) : result unit :=
  Raise TypeError.

(** The report of the missing settings: the comprehension tests the tuples
    of [necessaryparams], not their names, and the loop prints each one
    kept; then [return False]. *)
Definition report_missing (cfg : pyval) : result bool :=
  kept <- mapM (fun item => b <- contains_item cfg item ;; Ok (negb b, item))
               necessaryparams ;;
  _ <- mapM print_missing (map snd (filter fst kept)) ;;
  Ok false.

Definition checkConfig (cfg : pyval) : result bool :=
  present <- all_present cfg (map fst necessaryparams) ;;
  if negb present then report_missing cfg
  else
    wrong <- mapM (fun x => v <- getitem cfg (fst x) ;; Ok (negb (snd x v)))
                  necessaryparams ;;
    if existsb (fun b => b) wrong then Ok false else Ok true.

(** *** renderName *)

(** The value bound to [artist]. *)
Definition artist_field (cfg torrentdata : pyval) : result pyval :=
  artists <- getpath torrentdata ["group"; "musicInfo"; "artists"] ;;
  n <- len artists ;;
  threshold <- getpath cfg ["pattern"; "listindividualartists"] ;;
  t <- as_int threshold ;;
  if t <? n then getpath cfg ["pattern"; "variousartists"]
  else
    joiner <- getpath cfg ["pattern"; "artistjoiner"] ;;
    match joiner with
    | PyStr sep =>
        elems <- iterate artists ;;
        names <- mapM (fun a => getitem a "name") elems ;;
        joined <- join_sorted sep names ;;
        Ok (PyStr joined)
    | _ => Raise AttributeError
    end.

Definition renderName (cfg torrentdata : pyval) : result string :=
  artist <- artist_field cfg torrentdata ;;
  fileformat <- getpath torrentdata ["torrent"; "format"] ;;
  album <- getpath torrentdata ["group"; "name"] ;;
  year <- getpath torrentdata ["group"; "year"] ;;
  let formatdata :=
    [("artist", artist); ("album", album); ("year", year); ("format", fileformat)] in
  pattern <- getpath cfg ["pattern"; "string"] ;;
  format pattern formatdata.

(** The category chosen in [processFiles]: [Continue] is the [continue] of
    the empty format, [Desttype d] the value of [desttype] after the chain of
    tests, [None] when no branch has set it. *)
Inductive classification : Type :=
| Continue
| Desttype (d : option string).

Definition classify (torrentdata : pyval) : result classification :=
  fmt <- getpath torrentdata ["torrent"; "format"] ;;
  if eq_str fmt "" then Ok Continue
  else if eq_str fmt "FLAC" then
    encoding <- getpath torrentdata ["torrent"; "encoding"] ;;
    if eq_str encoding "24bit Lossless" then Ok (Desttype (Some "flac24bit"))
    else Ok (Desttype (Some "flac"))
  else if eq_str fmt "MP3" then Ok (Desttype None)
  else Ok (Desttype None).

(** [x.replace("/", "\\/")] *)
Definition escape_slashes (x : pyval) : result string :=
  match x with
  | PyStr s => Ok (replace_char "/" "\/" s)
  | _ => Raise AttributeError
  end.

(** [os.path.join(a, b)] for a str [b]; [a] must be a str as well. *)
Definition path_join (a : pyval) (b : string) : result string :=
  match a with
  | PyStr s => Ok (os_path_join s b)
  | _ => Raise TypeError
  end.

(** [math.ceil(seeding / 50)] *)
Definition page_count (seeding : pyval) : result Z :=
  n <- as_int seeding ;;
  quotient <- truediv n 50 ;;
  Ok (math_ceil quotient).

Section Program.
(** The network, and the character-reference substitution of [html]. *)
Variable net : trace -> string -> list (string * pyval) -> Response.
Variable charref_sub : string -> string.

Definition session_get (target : string) (params : list (string * pyval))
  : M Response :=
  fun tr => (Ok (net tr target params), (tr ++ [SessionGet target params])%list).

(** *** ajaxrequest *)

(** The body of [ajaxrequest] after the response has arrived. *)
Definition decode_response (response : Response) : result pyval :=
  match json response with
  | None =>
      Raise (RequestException
               ("Request didn't return any JSON. HTTP status code: "
                ++ str_of_Z (status_code response)))
  | Some decoded =>
      status <- getitem decoded "status" ;;
      if eq_str status "success" then Ok decoded
      else
        has_error <- contains decoded (Some "error") ;;
        if has_error then
          error <- getitem decoded "error" ;;
          text <- str error ;;
          Raise (RequestException
                   ("Request '"
                    ++ re_sub match_auth "auth=REDACTED" (url response)
                    ++ "' failed. Error: " ++ text))
        else
          Raise (RequestException
                   ("Request '" ++ url response
                    ++ "' failed. No Error message was returned by API."))
  end.

Definition ajax_params (s : self) (action : string)
           (kwargs : list (string * pyval)) : list (string * pyval) :=
  let params :=
    fold_left (fun d kv => dict_set String.eqb d (fst kv) (snd kv))
              kwargs [("action", PyStr action)] in
  match authkey s with
  | PyNone => params
  | key => dict_set String.eqb params "auth" key
  end.

Definition ajaxrequest (s : self) (action : string)
           (kwargs : list (string * pyval)) : M pyval :=
  base <~ lift (getitem (config s) "url") ;;
  ajax <~ lift (add_str base "/ajax.php") ;;
  response <~ session_get ajax (ajax_params s action kwargs) ;;
  lift (decode_response response).

(** *** getSnatched *)

(** What [readPage] makes of the body of a page: the body decoded, the
    matches of the pattern, each turned into a pair of ints, from left to
    right. *)
Definition scrape (body : string) : result (list (Z * Z)) :=
  text <- bytes_decode body ;;
  mapM (fun x => groupid <- int_of_digits (fst x) ;;
                 torrentid <- int_of_digits (snd x) ;;
                 Ok (groupid, torrentid))
       (re_findall match_link text).

Definition readPage (torrents : string) (uid : pyval) (page : Z) (s : self)
  : M self :=
  u <~ lift (str uid) ;;
  r <~ session_get
         (torrents ++ "?type=seeding&page=" ++ str_of_Z (page + 1)
          ++ "&userid=" ++ u) [] ;;
  found <~ lift (scrape (content r)) ;;
  ret (mkSelf (config s) (authkey s) (userid s)
              (snatches s ++ found)%list
              (torrentdata s)).

Fixpoint readPages (torrents : string) (uid : pyval) (pages : list Z) (s : self)
  : M self :=
  match pages with
  | [] => ret s
  | page :: pages' =>
      s' <~ readPage torrents uid page s ;; readPages torrents uid pages' s'
  end.

Definition getSnatched (s : self) : M self :=
  base <~ lift (getitem (config s) "url") ;;
  torrents <~ lift (add_str base "/torrents.php") ;;
  uid <~ lift (match userid s with
               | Some u => Ok u
               | None => Raise AttributeError
               end) ;;
  profile <~ ajaxrequest s "user" [("id", uid)] ;;
  seeding <~ lift (getpath profile ["response"; "community"; "seeding"]) ;;
  pages <~ lift (page_count seeding) ;;
  readPages torrents uid (range pages) s.

(** *** scanTorrents *)

Definition snatch_eqb (a b : Z * Z) : bool :=
  (fst a =? fst b) && (snd a =? snd b).

(** [printProgressBar(progress, length, heartbeat)]: the bar it prints is a
    function of its three arguments, which the trace records. *)
Definition printProgressBar (progress : pyfloat) (length : Z) (heartbeat : bool)
  : M unit :=
  emit (ProgressBar progress length heartbeat).

(** One turn of the loop; [all] is [self.snatches]. *)
Definition scanTorrent (all : list (Z * Z)) (id : Z * Z) (s : self) : M self :=
  position <~ lift (index_of snatch_eqb id all) ;;
  progress <~ lift (truediv position (Z.of_nat (List.length all))) ;;
  _ <~ printProgressBar progress 40 (negb (position mod 2 =? 0)) ;;
  answer <~ ajaxrequest s "torrent" [("id", PyInt (snd id))] ;;
  data <~ lift (getitem answer "response") ;;
  ret (mkSelf (config s) (authkey s) (userid s) (snatches s)
              (dict_set Z.eqb (torrentdata s) (snd id) data)).

Fixpoint scanLoop (all ids : list (Z * Z)) (s : self) : M self :=
  match ids with
  | [] => ret s
  | id :: ids' => s' <~ scanTorrent all id s ;; scanLoop all ids' s'
  end.

Definition scanTorrents (s : self) : M self :=
  scanLoop (snatches s) (snatches s) s.

(** *** processFiles *)

(** One turn of the loop over [self.torrentdata]. *)
Definition processFile (cfg torrentdata : pyval) : M unit :=
  c <~ lift (classify torrentdata) ;;
  match c with
  | Continue => ret tt
  | Desttype desttype =>
      destdirs <~ lift (getitem cfg "destdirs") ;;
      placed <~ lift (contains destdirs desttype) ;;
      if placed then
        destdir <~ lift (match desttype with
                         | Some d => getitem destdirs d
                         | None => Raise TypeError
                         end) ;;
        torrentdir <~ lift (getitem cfg "torrentdir") ;;
        filePath <~ lift (getpath torrentdata ["torrent"; "filePath"]) ;;
        escaped <~ lift (escape_slashes filePath) ;;
        olddir <~ lift (path_join torrentdir escaped) ;;
        name <~ lift (renderName cfg torrentdata) ;;
        newdir <~ lift (path_join destdir name) ;;
        emit (SubprocessCall ["cp"; "-Rl"; html_unescape charref_sub olddir;
                              html_unescape charref_sub newdir])
      else ret tt
  end.

Fixpoint processLoop (cfg : pyval) (items : list (Z * pyval)) : M unit :=
  match items with
  | [] => ret tt
  | (_, torrentdata) :: items' =>
      _ <~ processFile cfg torrentdata ;; processLoop cfg items'
  end.

Definition processFiles (s : self) : M unit :=
  processLoop (config s) (torrentdata s).

End Program.

End GazelleSort.

(** ** The rest of the program: construction, login, directories, run

    [__init__], [login], [logout], [prepareDirs], [run] and the script body.
    They act on more of the world than the methods above: the login form is
    posted, directories are tested and created, the configuration file is
    read or written.  The log below records all of it in order, the events
    of the methods above among the other actions.  As for the requests, the
    file system is an oracle that answers from the log so far.  What the
    empty path does is fixed by the interpreter and is modelled; the
    failures that depend on the machine (permissions, a full disk, a name
    taken by a file) are left out, as are those of the connection. *)

Module Run.
Import Py GazelleSort.

(** [Makedirs path] records the call [os.makedirs(path)], whatever comes of
    it. *)
Inductive action : Type :=
| Core (ev : event)
| SessionPost (target : string) (data : list (string * pyval))
| Makedirs (path : string)
| WriteJson (path : string) (value : pyval).

Definition log : Type := list action.

(** What [run] can end with besides a return: an exception of the methods
    above, the [Exception] of [prepareDirs], the [FileNotFoundError] of
    [os.makedirs], or the [JSONDecodeError] of a configuration file that is
    no JSON. *)
Inductive raised : Type :=
| Inner (e : exn)
| PlainException (msg : string)
| FileNotFoundError
| JSONDecodeError.

Inductive outcome (A : Type) : Type :=
| Returns (a : A)
| Raises (e : raised)
| NotModelled.
Arguments Returns {A} a.
Arguments Raises {A} e.
Arguments NotModelled {A}.

(** [read_json] is [json.loads(f.read())]: [None] for a text that is no
    JSON. *)
Record world : Type := mkWorld {
  get : log -> string -> list (string * pyval) -> Response;
  post : log -> string -> list (string * pyval) -> Response;
  isdir : log -> string -> bool;
  isfile : log -> string -> bool;
  read_json : log -> string -> option pyval;
  charref_sub : string -> string
}.

Definition R (A : Type) : Type := log -> outcome A * log.

Definition ret {A} (a : A) : R A := fun lg => (Returns a, lg).

Definition raise {A} (e : raised) : R A := fun lg => (Raises e, lg).

Definition bind {A B} (m : R A) (k : A -> R B) : R B :=
  fun lg =>
    match m lg with
    | (Returns a, lg') => k a lg'
    | (Raises e, lg') => (Raises e, lg')
    | (NotModelled, lg') => (NotModelled, lg')
    end.

Notation "x <<- c1 ;; c2" := (bind c1 (fun x => c2))
  (at level 61, c1 at next level, right associativity).

Definition lift {A} (r : result A) : R A :=
  fun lg =>
    match r with
    | Ok a => (Returns a, lg)
    | Raise e => (Raises (Inner e), lg)
    | Unmodelled => (NotModelled, lg)
    end.

Definition perform (a : action) : R unit := fun lg => (Returns tt, (lg ++ [a])%list).

(** A method of the part above, run at this point of the log: its requests
    are answered from the log so far, and its events are appended. *)
Definition core {A} (w : world)
           (m : (trace -> string -> list (string * pyval) -> Response) -> M A)
  : R A :=
  fun lg =>
    let (r, tr) := m (fun tr => get w (lg ++ map Core tr)%list) [] in
    lift r (lg ++ map Core tr)%list.

(** *** __init__ *)

Definition defaultconfig : pyval :=
  PyDict
    [("url", PyStr "");
     ("username", PyStr "");
     ("password", PyStr "");
     ("torrentdir", PyStr "");
     ("destdirs",
      PyDict [("flac24bit", PyStr ""); ("flac", PyStr ""); ("320", PyStr "");
              ("v0", PyStr ""); ("v2", PyStr "")]);
     ("pattern",
      PyDict
        [("string", PyStr "%(artist)s - %(album)s (%(year)s) [%(format)s]");
         ("variousartists", PyStr "Various Artists");
         ("artistjoiner", PyStr " & ");
         ("listindividualartists", PyInt 2)])].

(** The object after [__init__]: with [error] set and no [config] when the
    file was missing, or with the configuration loaded, no key, no snatches
    and no metadata. *)
Inductive instance : Type :=
| Unconfigured
| Configured (s : self).

(** The file written holds [json.dumps(defaultconfig, indent=4,
    sort_keys=True)]; the log records the value dumped. *)
Definition init (w : world) (configdir : string) : R instance :=
  fun lg =>
    let configfilepath := os_path_join configdir "config.json" in
    if negb (isfile w lg configfilepath) then
      (Returns Unconfigured, (lg ++ [WriteJson configfilepath defaultconfig])%list)
    else
      match read_json w lg configfilepath with
      | Some cfg => (Returns (Configured (mkSelf cfg PyNone None [] [])), lg)
      | None => (Raises JSONDecodeError, lg)
      end.

(** *** login and logout *)

Definition login (w : world) (s : self) : R Z :=
  base <<- lift (getitem (config s) "url") ;;
  target <<- lift (add_str base "/login.php") ;;
  username <<- lift (getitem (config s) "username") ;;
  password <<- lift (getitem (config s) "password") ;;
  let payload := [("username", username); ("password", password);
                  ("keeplogged", PyInt 1); ("login", PyStr "Login")] in
  fun lg =>
    (Returns (status_code (post w lg target payload)),
     (lg ++ [SessionPost target payload])%list).

Definition logout (w : world) (s : self) : R unit :=
  base <<- lift (getitem (config s) "url") ;;
  target <<- lift (add_str base "/logout.php") ;;
  key <<- lift (str (authkey s)) ;;
  perform (Core (SessionGet (target ++ "?auth=" ++ key) [])).

(** *** prepareDirs *)

(** [os.path.isdir(x)]: the empty path is no directory; an int is taken
    for a file descriptor, which is not modelled; anything else that is no
    str makes [os.stat] raise [TypeError]. *)
Definition os_path_isdir (w : world) (x : pyval) : R bool :=
  fun lg =>
    match x with
    | PyStr p => (Returns (negb (String.eqb p "") && isdir w lg p), lg)
    | PyInt _ | PyBool _ => (NotModelled, lg)
    | _ => (Raises (Inner TypeError), lg)
    end.

(** [os.makedirs(x)], reached only after [os.path.isdir(x)] has returned:
    the empty path cannot be created, [mkdir] raises [FileNotFoundError]. *)
Definition os_makedirs (x : pyval) : R unit :=
  match x with
  | PyStr p =>
      _ <<- perform (Makedirs p) ;;
      if String.eqb p "" then raise FileNotFoundError else ret tt
  | _ => fun lg => (NotModelled, lg)
  end.

(** [c[key]] for a [key] that iterating over [c] has produced: a str (from
    a dict, or a str, which cannot be indexed by it), or an element of a
    list. *)
Definition getitem_iterated (c key : pyval) : result pyval :=
  match key with
  | PyStr k => getitem c k
  | PyInt _ | PyBool _ => Unmodelled
  | _ => Raise TypeError
  end.

(** The loop over the destinations. *)
Fixpoint makeDirs (w : world) (destdirs : pyval) (formats : list pyval) : R unit :=
  match formats with
  | [] => ret tt
  | format :: formats' =>
      dir <<- lift (getitem_iterated destdirs format) ;;
      there <<- os_path_isdir w dir ;;
      _ <<- (if there then ret tt else os_makedirs dir) ;;
      makeDirs w destdirs formats'
  end.

Definition prepareDirs (w : world) (s : self) : R unit :=
  destdirs <<- lift (getitem (config s) "destdirs") ;;
  formats <<- lift (iterate destdirs) ;;
  _ <<- makeDirs w destdirs formats ;;
  torrentdir <<- lift (getitem (config s) "torrentdir") ;;
  there <<- os_path_isdir w torrentdir ;;
  if there then ret tt
  else
    text <<- lift (str torrentdir) ;;
    raise (PlainException
             ("Torrentdir (" ++ text ++ ") doesn't exist or can't be accessed.")).

(** *** run *)

(** [bool(x)] *)
Definition truthy (x : pyval) : bool :=
  match x with
  | PyNone => false
  | PyBool b => b
  | PyInt z => negb (z =? 0)
  | PyStr s => negb (String.eqb s "")
  | PyList xs => match xs with [] => false | _ => true end
  | PyDict kvs => match kvs with [] => false | _ => true end
  end.

(** The test on the answer of the [index] action and the three assignments
    that depend on it.  The list of the three membership tests is built in
    full before [all] looks at it.  [passkey] is stored and never read. *)
Definition store_session (s : self) (indexjson : pyval) : result self :=
  if truthy indexjson then
    response <- getitem indexjson "response" ;;
    has_authkey <- contains response (Some "authkey") ;;
    has_passkey <- contains response (Some "passkey") ;;
    has_id <- contains response (Some "id") ;;
    if has_authkey && has_passkey && has_id then
      key <- getitem response "authkey" ;;
      _ <- getitem response "passkey" ;;
      id <- getitem response "id" ;;
      Ok (mkSelf (config s) key (Some id) (snatches s) (torrentdata s))
    else Ok s
  else Ok s.

Definition run (w : world) (gs : instance) : R Z :=
  match gs with
  | Unconfigured => ret 1
  | Configured s =>
      ok <<- lift (checkConfig (config s)) ;;
      if negb ok then ret 1
      else
        logincode <<- login w s ;;
        indexjson <<- core w (fun net => ajaxrequest net s "index" []) ;;
        s1 <<- lift (store_session s indexjson) ;;
        s2 <<- core w (fun net => getSnatched net s1) ;;
        _ <<- prepareDirs w s2 ;;
        s3 <<- core w (fun net => scanTorrents net s2) ;;
        _ <<- core w (fun _ => processFiles (charref_sub w) s3) ;;
        _ <<- logout w s3 ;;
        ret 0
  end.

(** *** The script

    [user_config_dir] is what [appdirs] answers, [config_arg] the value of
    [--config] when the option is given; the result is the status passed to
    [sys.exit]. *)
Definition main (w : world) (user_config_dir : string) (config_arg : option string)
  : R Z :=
  let configdir :=
    match config_arg with
    | Some dir => if String.eqb dir "" then user_config_dir else dir
    | None => user_config_dir
    end in
  there <<- os_path_isdir w (PyStr configdir) ;;
  _ <<- (if there then ret tt else os_makedirs (PyStr configdir)) ;;
  gs <<- init w configdir ;;
  run w gs.

End Run.

(** ** The vocabulary of the statements *)

(** A dict with the six settings, each of its type. *)
Definition typed_config (cfg : Py.pyval) : Prop :=
  exists kvs url username password torrentdir destdirs pattern,
    cfg = Py.PyDict kvs
    /\ Py.dict_get kvs "url" = Some (Py.PyStr url)
    /\ Py.dict_get kvs "username" = Some (Py.PyStr username)
    /\ Py.dict_get kvs "password" = Some (Py.PyStr password)
    /\ Py.dict_get kvs "torrentdir" = Some (Py.PyStr torrentdir)
    /\ Py.dict_get kvs "destdirs" = Some (Py.PyDict destdirs)
    /\ Py.dict_get kvs "pattern" = Some (Py.PyDict pattern).








(** Code-point order on strs. *)
Definition str_le (a b : string) : Prop := String.leb a b = true.

(** Whether two exceptions are instances of the same class. *)
Definition same_class (e1 e2 : Py.exn) : bool :=
  match e1, e2 with
  | Py.KeyError _, Py.KeyError _ => true
  | Py.TypeError, Py.TypeError => true
  | Py.AttributeError, Py.AttributeError => true
  | Py.ValueError, Py.ValueError => true
  | Py.UnicodeDecodeError, Py.UnicodeDecodeError => true
  | Py.ZeroDivisionError, Py.ZeroDivisionError => true
  | Py.OverflowError, Py.OverflowError => true
  | Py.RequestException _, Py.RequestException _ => true
  | _, _ => false
  end.

(** The request for one page of the list of seeded torrents. *)
Definition page_request (torrents u : string) (page : Z) : GazelleSort.event :=
  GazelleSort.SessionGet
    (torrents ++ "?type=seeding&page=" ++ Py.str_of_Z (page + 1) ++ "&userid=" ++ u)
    [].

(** A link to a torrent as it stands in the markup of a page: the dot of
    the pattern can be any character but a newline, each id is a run of
    digits. *)
Record link : Type := mkLink {
  dot : ascii;
  groupid : string;
  torrentid : string
}.

Definition link_text (l : link) : string :=
  "torrents" ++ String (dot l) "php?id=" ++ groupid l
  ++ "&amp;torrentid=" ++ torrentid l.

Definition link_ok (l : link) : Prop :=
  dot l <> "010"%char
  /\ groupid l <> "" /\ Py.all_chars Py.is_digit (groupid l) = true
  /\ torrentid l <> "" /\ Py.all_chars Py.is_digit (torrentid l) = true.

(** A page body: links, each followed by a gap. *)
Fixpoint page_body (items : list (link * string)) : string :=
  match items with
  | [] => ""
  | (l, gap) :: items' => link_text l ++ gap ++ page_body items'
  end.

Definition record_of (l : link) : Z * Z :=
  (Py.digits_value (groupid l), Py.digits_value (torrentid l)).

(** Both ids short enough for [int]. *)
Definition within_cap (l : link) : Prop :=
  (String.length (groupid l) <= 4300)%nat
  /\ (String.length (torrentid l) <= 4300)%nat.

(** A link starts at the head of [s]; no link starts at any position of
    [gap] when [rest] follows it. *)
Definition starts_link (s : string) : Prop :=
  exists l rest, link_ok l /\ s = (link_text l ++ rest)%string.

Fixpoint no_link_starts (gap rest : string) : Prop :=
  match gap with
  | "" => True
  | String _ gap' => ~ starts_link (gap ++ rest) /\ no_link_starts gap' rest
  end.

(** The links of a text, read from left to right: up to the first link no
    link starts; the link runs as far as its torrent id has digits; the
    reading goes on behind it.  So the links do not overlap, and none is
    left out. *)
Inductive reads : string -> list link -> Prop :=
| reads_end gap : no_link_starts gap "" -> reads gap []
| reads_link gap l rest links :
    no_link_starts gap (link_text l ++ rest) ->
    link_ok l ->
    Py.starts_in Py.is_digit rest = false ->
    reads rest links ->
    reads (gap ++ link_text l ++ rest) (l :: links).

(** [s] without its first [n] characters. *)
Fixpoint drop (n : nat) (s : string) : string :=
  match n, s with
  | O, _ => s
  | S k, String _ s' => drop k s'
  | S _, "" => ""
  end.

(** No match of the pattern starts inside [gap] when [rest] follows it. *)
Fixpoint quiet {A : Type} (match_here : string -> option (A * nat))
         (gap rest : string) : Prop :=
  match gap with
  | "" => True
  | String _ gap' =>
      match_here (gap ++ rest)%string = None /\ quiet match_here gap' rest
  end.

(** The fractions handed to the progress bar, oldest first. *)
Fixpoint progress_values (tr : GazelleSort.trace) : list Py.pyfloat :=
  match tr with
  | [] => []
  | GazelleSort.ProgressBar p _ _ :: tr' => p :: progress_values tr'
  | _ :: tr' => progress_values tr'
  end.

(** No value is smaller than the one before it. *)
Fixpoint nondecreasing (l : list Py.pyfloat) : bool :=
  match l with
  | a :: (b :: _) as l' => Py.float_leb a b && nondecreasing l'
  | _ => true
  end.

(** The fractions of consecutive positions, all below one. *)
Inductive fractions (n : Z) : Z -> list Py.pyfloat -> Prop :=
| fractions_nil i : fractions n i []
| fractions_cons i f fs :
    0 <= i < n -> Py.truediv i n = Py.Ok f -> fractions n (i + 1) fs ->
    fractions n i (f :: fs).

(** Two notions as the specification words them.  The source path: the
    torrent directory joined with the file path of the release, HTML
    entities unescaped, nothing else done to it.  The link: with a bare "&"
    between the ids. *)
Definition spec_source_path (charref_sub : string -> string)
           (torrentdir filePath : string) : string :=
  Py.html_unescape charref_sub (Py.os_path_join torrentdir filePath).

Definition spec_link_text (g t : string) : string :=
  "torrents.php?id=" ++ g ++ "&torrentid=" ++ t.

(** ** Sample data

    The configuration of the end-to-end scenario: the default pattern that
    the program writes into a fresh configuration file, and a destination
    for [flac]. *)
Definition scenario_config : Py.pyval :=
  Py.PyDict
    [("url", Py.PyStr "https://tracker.example");
     ("username", Py.PyStr "user");
     ("password", Py.PyStr "secret");
     ("torrentdir", Py.PyStr "/torrents");
     ("destdirs", Py.PyDict [("flac", Py.PyStr "/dest/flac")]);
     ("pattern",
      Py.PyDict
        [("string", Py.PyStr "%(artist)s - %(album)s (%(year)s) [%(format)s]");
         ("variousartists", Py.PyStr "Various Artists");
         ("artistjoiner", Py.PyStr " & ");
         ("listindividualartists", Py.PyInt 2)])].



(** The [response] of the [torrent] action, cut down to what is read. *)
Definition release (artists : list string) (name : string) (year : Z)
           (fmt encoding filePath : string) : Py.pyval :=
  Py.PyDict
    [("group",
      Py.PyDict
        [("name", Py.PyStr name);
         ("year", Py.PyInt year);
         ("musicInfo",
          Py.PyDict
            [("artists",
              Py.PyList (map (fun a => Py.PyDict [("name", Py.PyStr a)]) artists))])]);
     ("torrent",
      Py.PyDict [("format", Py.PyStr fmt); ("encoding", Py.PyStr encoding);
                 ("filePath", Py.PyStr filePath)])].

Definition album_x : Py.pyval :=
  release ["Artist A"] "Album X" 2020 "FLAC" "Lossless" "Artist A - Album X".

(** The same release, its file path holding a "/". *)
Definition album_in_subdir : Py.pyval :=
  release ["Artist A"] "Album X" 2020 "FLAC" "Lossless" "Artist A/Album X".

(** A FLAC release whose group has no [year]. *)
Definition release_without_year : Py.pyval :=
  Py.PyDict
    [("group",
      Py.PyDict
        [("name", Py.PyStr "Album Y");
         ("musicInfo",
          Py.PyDict
            [("artists", Py.PyList [Py.PyDict [("name", Py.PyStr "Artist B")]])])]);
     ("torrent",
      Py.PyDict [("format", Py.PyStr "FLAC"); ("encoding", Py.PyStr "Lossless");
                 ("filePath", Py.PyStr "Artist B - Album Y")])].

(** The object after login, for the user with id 7, and once the metadata
    has been fetched. *)
Definition logged_in : GazelleSort.self :=
  GazelleSort.mkSelf scenario_config (Py.PyStr "0123456789abcdef")
                     (Some (Py.PyInt 7)) [] [].

Definition fetched (cfg : Py.pyval) (data : list (Z * Py.pyval)) : GazelleSort.self :=
  GazelleSort.mkSelf cfg Py.PyNone None [] data.

(** Two answers of the tracker: a refusal with a message, and a page that is
    no JSON. *)
Definition refusal : GazelleSort.Response :=
  GazelleSort.mkResponse
    "https://tracker.example/ajax.php?action=index&auth=0123456789abcdef" 200
    (Some (Py.PyDict [("status", Py.PyStr "failure"); ("error", Py.PyStr "bad auth")]))
    "{...}".

Definition bad_gateway : GazelleSort.Response :=
  GazelleSort.mkResponse
    "https://tracker.example/ajax.php?action=index&auth=0123456789abcdef" 502
    None "<html>Bad Gateway</html>".

(** A tracker that answers every request with an empty success. *)
Definition always_success
  : GazelleSort.trace -> string -> list (string * Py.pyval) -> GazelleSort.Response :=
  fun _ target _ =>
    GazelleSort.mkResponse
      target 200
      (Some (Py.PyDict [("status", Py.PyStr "success"); ("response", Py.PyDict [])]))
      "".

(** A tracker whose profile reports [n] seeded torrents and whose pages are
    empty. *)
Definition seeding (n : Z)
  : GazelleSort.trace -> string -> list (string * Py.pyval) -> GazelleSort.Response :=
  fun _ target params =>
    match params with
    | [] => GazelleSort.mkResponse target 200 None "<html></html>"
    | _ =>
        GazelleSort.mkResponse
          target 200
          (Some (Py.PyDict
                   [("status", Py.PyStr "success");
                    ("response",
                     Py.PyDict
                       [("community", Py.PyDict [("seeding", Py.PyInt n)])])]))
          "{...}"
    end.

(** A tracker whose pages hold one link, spelled as in the specification. *)
Definition bare_link_page
  : GazelleSort.trace -> string -> list (string * Py.pyval) -> GazelleSort.Response :=
  fun _ target _ =>
    GazelleSort.mkResponse target 200 None (spec_link_text "1" "2").

(** Two links to the same torrent and one to another, as the tracker
    writes them, each with the markup that follows it. *)
Definition three_links : list (link * string) :=
  [(mkLink "." "12" "34", "'>A</a> <a href='");
   (mkLink "." "56" "78", "'>B</a> <a href='");
   (mkLink "." "12" "34", "'>A</a>")].

(** A page of the list as the tracker writes it: before each link to a
    torrent stands a download link, which holds "torrents.php" as well. *)
Definition listing_page : string :=
  "<a href='torrents.php?action=download&amp;id=34'>DL</a> <a href='"
  ++ link_text (mkLink "." "12" "34")
  ++ "'>A</a> <a href='torrents.php?action=download&amp;id=78'>DL</a> <a href='"
  ++ link_text (mkLink "." "56" "78")
  ++ "'>B</a> <a href='"
  ++ link_text (mkLink "." "12" "34")
  ++ "'>A</a>".

(** An id of 4301 digits. *)
Definition long_id : string := string_of_list_ascii (repeat "1"%char 4301).

(** ** Further vocabulary *)

(** The six settings are there, whatever their types. *)
Definition has_all_settings (kvs : list (string * Py.pyval)) : Prop :=
  forall name, In name ["url"; "username"; "password"; "torrentdir";
                        "destdirs"; "pattern"] ->
               Py.dict_get kvs name <> None.

(** The bodies of the pages that [readPages] receives, one after the other,
    each answered from the trace as it stands when the page is requested. *)
Fixpoint page_bodies
         (net : GazelleSort.trace -> string -> list (string * Py.pyval)
                -> GazelleSort.Response)
         (torrents u : string) (tr : GazelleSort.trace) (pages : list Z)
  : list string :=
  match pages with
  | [] => []
  | page :: pages' =>
      let target :=
        (torrents ++ "?type=seeding&page=" ++ Py.str_of_Z (page + 1)
         ++ "&userid=" ++ u)%string in
      GazelleSort.content (net tr target [])
      :: page_bodies net torrents u
           (tr ++ [GazelleSort.SessionGet target []])%list pages'
  end.

(** The [cp] commands: the only thing [processFiles] may run. *)
Definition is_cp (ev : GazelleSort.event) : Prop :=
  exists src dst, ev = GazelleSort.SubprocessCall ["cp"; "-Rl"; src; dst].

(** The requests in a trace, and the progress emissions, counted. *)
Fixpoint requests (tr : GazelleSort.trace) : list (string * list (string * Py.pyval)) :=
  match tr with
  | [] => []
  | GazelleSort.SessionGet target params :: tr' => (target, params) :: requests tr'
  | _ :: tr' => requests tr'
  end.

(** [k in d] for a dict with int keys. *)
Definition has_key (d : list (Z * Py.pyval)) (k : Z) : Prop :=
  exists v, In (k, v) d.

(** The request that [scanTorrents] sends for one record. *)
Definition torrent_request (s : GazelleSort.self) (base : string) (id : Z * Z)
  : string * list (string * Py.pyval) :=
  ((base ++ "/ajax.php")%string,
   GazelleSort.ajax_params s "torrent" [("id", Py.PyInt (snd id))]).

(** A tracker that reports 51 seeded torrents and serves, as every page, the
    three links above. *)
Definition tracker_with_links
  : GazelleSort.trace -> string -> list (string * Py.pyval) -> GazelleSort.Response :=
  fun _ target params =>
    match params with
    | [] => GazelleSort.mkResponse target 200 None (page_body three_links)
    | _ =>
        GazelleSort.mkResponse
          target 200
          (Some (Py.PyDict
                   [("status", Py.PyStr "success");
                    ("response",
                     Py.PyDict
                       [("community", Py.PyDict [("seeding", Py.PyInt 51)])])]))
          "{...}"
    end.

(** A release whose only artist is called "/srv/www". *)
Definition release_of_slash_artist : Py.pyval :=
  release ["/srv/www"] "Album Z" 2021 "FLAC" "Lossless" "Album Z".


(** The object as [__init__] leaves it. *)
Definition fresh (cfg : Py.pyval) : GazelleSort.self :=
  GazelleSort.mkSelf cfg Py.PyNone None [] [].

(** The form that [login] posts. *)
Definition login_post (base username password : string) : Run.action :=
  Run.SessionPost
    (base ++ "/login.php")
    [("username", Py.PyStr username); ("password", Py.PyStr password);
     ("keeplogged", Py.PyInt 1); ("login", Py.PyStr "Login")].

(** The first API request of a run: the object holds no key yet. *)
Definition index_request (base : string) : Run.action :=
  Run.Core (GazelleSort.SessionGet (base ++ "/ajax.php") [("action", Py.PyStr "index")]).

Definition logout_request (base key : string) : Run.action :=
  Run.Core (GazelleSort.SessionGet (base ++ "/logout.php?auth=" ++ key) []).

(** A tracker and a file system that play along: the login is accepted, the
    user with id 7 seeds one torrent, the page links to torrent 34 of group
    12, whose metadata is that of the scenario; every directory is there but
    the destination. *)
Definition cooperative : Run.world :=
  Run.mkWorld
    (fun _ target params =>
       match params with
       | [] =>
           GazelleSort.mkResponse
             target 200 None
             "<a href='torrents.php?id=12&amp;torrentid=34'>Album X</a>"
       | _ =>
           GazelleSort.mkResponse
             target 200
             (Some
                (Py.PyDict
                   [("status", Py.PyStr "success");
                    ("response",
                     match Py.dict_get params "action" with
                     | Some (Py.PyStr "index") =>
                         Py.PyDict [("authkey", Py.PyStr "0123456789abcdef");
                                    ("passkey", Py.PyStr "fedcba9876543210");
                                    ("id", Py.PyInt 7)]
                     | Some (Py.PyStr "user") =>
                         Py.PyDict [("community", Py.PyDict [("seeding", Py.PyInt 1)])]
                     | _ => album_x
                     end)]))
             "{...}"
       end)
    (fun _ target _ => GazelleSort.mkResponse target 200 None "<html></html>")
    (fun _ path => negb (String.eqb path "/dest/flac"))
    (fun _ _ => true)
    (fun _ _ => Some scenario_config)
    (fun s => s).

(** A machine on which the program has never run, and a tracker that
    answers nothing useful. *)
Definition first_run : Run.world :=
  Run.mkWorld
    (fun _ target _ => GazelleSort.mkResponse target 404 None "")
    (fun _ target _ => GazelleSort.mkResponse target 404 None "")
    (fun _ _ => false)
    (fun _ _ => false)
    (fun _ _ => None)
    (fun s => s).

(** A tracker that turns the login down: the API answers with a failure, or
    with a success that names no user. *)
Definition refusing (answer : Py.pyval) : Run.world :=
  Run.mkWorld
    (fun _ target _ => GazelleSort.mkResponse target 200 (Some answer) "{...}")
    (fun _ target _ => GazelleSort.mkResponse target 200 None "<html></html>")
    (fun _ _ => true)
    (fun _ _ => true)
    (fun _ _ => Some scenario_config)
    (fun s => s).

(** What [run] makes of the answer of the [index] request, on the object as
    [__init__] has left it. *)
Definition store_session_of (cfg indexjson : Py.pyval) : Py.result GazelleSort.self :=
  Run.store_session (fresh cfg) indexjson.

(** The events of the two fetching phases: the progress bar, API requests,
    and requests for the pages of the list of seeded torrents. *)
Definition fetch_event (base : string) (ev : GazelleSort.event) : Prop :=
  match ev with
  | GazelleSort.SessionGet target params =>
      target = (base ++ "/ajax.php")%string
      \/ exists rest, target = (base ++ "/torrents.php?" ++ rest)%string /\ params = []
  | GazelleSort.ProgressBar _ _ _ => True
  | GazelleSort.SubprocessCall _ => False
  end.

(** The object once [run] has stored the session: it holds the key and the
    user id of the [index] answer, and nothing fetched yet. *)
Definition session (cfg key uid : Py.pyval) : GazelleSort.self :=
  GazelleSort.mkSelf cfg key (Some uid) [] [].

(** The events of one turn of the loop of [scanTorrents]: the progress bar,
    then the request for the metadata of the torrent. *)
Definition scan_turn (s : GazelleSort.self) (base : string) (id : Z * Z)
           (evs : GazelleSort.trace) : Prop :=
  exists progress heartbeat,
    evs = [GazelleSort.ProgressBar progress 40 heartbeat;
           GazelleSort.SessionGet
             (base ++ "/ajax.php")
             (GazelleSort.ajax_params s "torrent" [("id", Py.PyInt (snd id))])].

(** The log of a run against [cooperative] with the configuration of the
    scenario. *)
Definition cooperative_log : Run.log :=
  [login_post "https://tracker.example" "user" "secret";
   index_request "https://tracker.example";
   Run.Core
     (GazelleSort.SessionGet
        "https://tracker.example/ajax.php"
        [("action", Py.PyStr "user"); ("id", Py.PyInt 7);
         ("auth", Py.PyStr "0123456789abcdef")]);
   Run.Core
     (GazelleSort.SessionGet
        "https://tracker.example/torrents.php?type=seeding&page=1&userid=7" []);
   Run.Makedirs "/dest/flac";
   Run.Core (GazelleSort.ProgressBar (Py.mkfloat 0 0) 40 false);
   Run.Core
     (GazelleSort.SessionGet
        "https://tracker.example/ajax.php"
        [("action", Py.PyStr "torrent"); ("id", Py.PyInt 34);
         ("auth", Py.PyStr "0123456789abcdef")]);
   Run.Core
     (GazelleSort.SubprocessCall
        ["cp"; "-Rl"; "/torrents/Artist A - Album X";
         "/dest/flac/Artist A - Album X (2020) [FLAC]"]);
   logout_request "https://tracker.example" "0123456789abcdef"].

(** Whether [s] goes on with [p] and then a hexadecimal digit, and whether
    some "auth=" in [s] is followed by one: the start of a key in view. *)
Definition follows_hex (p s : string) : bool :=
  match Py.strip_prefix p s with
  | Some rest => Py.starts_in Py.is_hex rest
  | None => false
  end.

Fixpoint shows_key (s : string) : bool :=
  follows_hex "auth=" s
  || match s with
     | "" => false
     | String _ s' => shows_key s'
     end.

(** The redaction of [ajaxrequest]. *)
Definition redact (target : string) : string :=
  Py.re_sub GazelleSort.match_auth "auth=REDACTED" target.

(** No key starts at any position of [gap] when [rest] follows it. *)
Fixpoint no_key_starts (gap rest : string) : Prop :=
  match gap with
  | "" => True
  | String _ gap' =>
      follows_hex "auth=" (gap ++ rest) = false /\ no_key_starts gap' rest
  end.

(** A text and its redacted form, read from left to right: up to the first
    "auth=" that a hexadecimal digit follows, the text is kept; the digits
    that follow it, as far as they go, are the key, and "REDACTED" stands in
    their place; the reading goes on behind the key. *)
Inductive redacts : string -> string -> Prop :=
| redacts_end gap : no_key_starts gap "" -> redacts gap gap
| redacts_key gap key rest out :
    no_key_starts gap ("auth=" ++ key ++ rest) ->
    key <> "" ->
    Py.all_chars Py.is_hex key = true ->
    Py.starts_in Py.is_hex rest = false ->
    redacts rest out ->
    redacts (gap ++ "auth=" ++ key ++ rest) (gap ++ "auth=REDACTED" ++ out).

(** ** Properties *)

Import Py GazelleSort.

(** *** Proof tools *)



(** Case analysis on the character tests of a prefix comparison: a test
    between two known characters is computed, one on an unknown character is
    split. *)
Ltac eqb_case a b :=
  first [ is_var a; destruct (Ascii.eqb a b)
        | is_var b; destruct (Ascii.eqb a b)
        | let v := eval vm_compute in (Ascii.eqb a b) in
          change (Ascii.eqb a b) with v ].

Ltac split_eqb :=
  cbn [strip_prefix String.append] in *;
  repeat (match goal with
          | |- context [Ascii.eqb ?a ?b] => eqb_case a b
          | H : context [Ascii.eqb ?a ?b] |- _ => eqb_case a b
          end;
          cbn [strip_prefix String.append] in *).

(** *** Generic facts about the runtime model *)

Lemma getitem_dict (kvs : list (string * pyval)) (k : string) (v : pyval) :
  getitem (PyDict kvs) k = Ok v <-> dict_get kvs k = Some v.
Proof.
  unfold getitem. destruct (dict_get kvs k); split; intros H;
    try discriminate; injection H as ->; reflexivity.
Qed.

Lemma getitem_ok_dict (x : pyval) (k : string) (v : pyval) :
  getitem x k = Ok v -> exists kvs, x = PyDict kvs /\ dict_get kvs k = Some v.
Proof.
  destruct x; simpl; try discriminate.
  intros H. exists kvs. split; [reflexivity | now apply getitem_dict].
Qed.

(** An absent key is a [KeyError] naming it. *)
Lemma getitem_absent (kvs : list (string * pyval)) (k : string) :
  dict_get kvs k = None -> getitem (PyDict kvs) k = Raise (KeyError k).
Proof. intros H. unfold getitem. now rewrite H. Qed.

Lemma eq_str_true (x : pyval) (lit : string) :
  eq_str x lit = true <-> x = PyStr lit.
Proof.
  destruct x; simpl; split; intros H; try discriminate.
  - apply String.eqb_eq in H. now subst.
  - injection H as ->. apply String.eqb_refl.
Qed.

Lemma eq_str_false (x : pyval) (lit : string) :
  eq_str x lit = false <-> x <> PyStr lit.
Proof.
  rewrite <- eq_str_true. destruct (eq_str x lit); split; congruence.
Qed.

(** *** checkConfig *)

Lemma all_present_dict (kvs : list (string * pyval)) (names : list string) :
  all_present (PyDict kvs) names = Ok (forallb (dict_mem kvs) names).
Proof.
  induction names as [|n names IH]; simpl; [reflexivity|].
  destruct (dict_mem kvs n); simpl; [exact IH | reflexivity].
Qed.

Lemma isinstance_str_true (v : pyval) :
  isinstance_str v = true <-> exists s, v = PyStr s.
Proof.
  destruct v; simpl; split; try discriminate; try (intros [? ?]; discriminate).
  - intros _. now exists s.
  - reflexivity.
Qed.

Lemma isinstance_dict_true (v : pyval) :
  isinstance_dict v = true <-> exists kvs, v = PyDict kvs.
Proof.
  destruct v; simpl; split; try discriminate; try (intros [? ?]; discriminate).
  - intros _. now exists kvs.
  - reflexivity.
Qed.

Lemma checkConfig_typed (cfg : pyval) : typed_config cfg -> checkConfig cfg = Ok true.
Proof.
  intros (kvs & u & n & p & t & d & pat & -> & Hu & Hn & Hp & Ht & Hd & Hpat).
  unfold checkConfig. rewrite all_present_dict.
  simpl. unfold dict_mem. rewrite Hu, Hn, Hp, Ht, Hd, Hpat. reflexivity.
Qed.

Lemma checkConfig_true (cfg : pyval) : checkConfig cfg = Ok true -> typed_config cfg.
Proof.
  unfold checkConfig. intros H.
  destruct cfg as [| b | z | s | xs | kvs].
  1-3: discriminate H.
  1-2: exfalso;
       match type of H with
       | rbind ?r _ = _ => destruct r as [[|] | |]; simpl in H; discriminate H
       end.
  rewrite all_present_dict in H. simpl in H. unfold dict_mem in H.
  destruct (dict_get kvs "url") as [v1|] eqn:E1; [|discriminate H].
  destruct (dict_get kvs "username") as [v2|] eqn:E2; [|discriminate H].
  destruct (dict_get kvs "password") as [v3|] eqn:E3; [|discriminate H].
  destruct (dict_get kvs "torrentdir") as [v4|] eqn:E4; [|discriminate H].
  destruct (dict_get kvs "destdirs") as [v5|] eqn:E5; [|discriminate H].
  destruct (dict_get kvs "pattern") as [v6|] eqn:E6; [|discriminate H].
  simpl in H.
  destruct (isinstance_str v1) eqn:T1; [|discriminate H].
  destruct (isinstance_str v2) eqn:T2; [|discriminate H].
  destruct (isinstance_str v3) eqn:T3; [|discriminate H].
  destruct (isinstance_str v4) eqn:T4; [|discriminate H].
  destruct (isinstance_dict v5) eqn:T5; [|discriminate H].
  destruct (isinstance_dict v6) eqn:T6; [|discriminate H].
  apply isinstance_str_true in T1, T2, T3, T4.
  apply isinstance_dict_true in T5, T6.
  destruct T1 as [s1 ->], T2 as [s2 ->], T3 as [s3 ->], T4 as [s4 ->],
           T5 as [d5 ->], T6 as [d6 ->].
  exists kvs, s1, s2, s3, s4, d5, d6. repeat split; assumption.
Qed.






(** *** Classification *)

Lemma classify_spec (td torrent fmt : pyval) :
  getitem td "torrent" = Ok torrent ->
  getitem torrent "format" = Ok fmt ->
  classify td =
    if eq_str fmt "" then Ok Continue
    else if eq_str fmt "FLAC" then
      encoding <- getitem torrent "encoding" ;;
      if eq_str encoding "24bit Lossless" then Ok (Desttype (Some "flac24bit"))
      else Ok (Desttype (Some "flac"))
    else Ok (Desttype None).
Proof.
  intros Ht Hf. unfold classify. simpl. rewrite Ht. simpl. rewrite Hf. simpl.
  destruct (eq_str fmt ""); [reflexivity|].
  destruct (eq_str fmt "FLAC").
  - destruct (getitem torrent "encoding"); reflexivity.
  - destruct (eq_str fmt "MP3"); reflexivity.
Qed.

Lemma processFile_skips (charref_sub : string -> string)
      (cfg td : pyval) (destdirs : list (string * pyval)) (d : option string)
      (tr : trace) :
  getitem cfg "destdirs" = Ok (PyDict destdirs) ->
  classify td = Ok (Desttype d) ->
  match d with Some k => dict_get destdirs k = None | None => True end ->
  processFile charref_sub cfg td tr = (Ok tt, tr).
Proof.
  intros Hd Hc Hk. unfold processFile, bind, lift. rewrite Hc, Hd. simpl.
  destruct d as [k|]; [|reflexivity].
  unfold dict_mem. rewrite Hk. reflexivity.
Qed.

(** C1. The category of a release follows the table: an empty format is
    skipped; FLAC with the encoding "24bit Lossless" is [flac24bit]; FLAC
    with any other encoding is [flac]; MP3 and every other format get no
    category; and a release without a category, or whose category is not a
    key of [destdirs], is left alone (the trace does not grow). *)
Theorem classification_follows_table
        (charref_sub : string -> string) (cfg td torrent fmt : pyval)
        (destdirs : list (string * pyval)) (tr : trace) :
  getitem cfg "destdirs" = Ok (PyDict destdirs) ->
  getitem td "torrent" = Ok torrent ->
  getitem torrent "format" = Ok fmt ->
  (fmt = PyStr "" ->
     classify td = Ok Continue
     /\ processFile charref_sub cfg td tr = (Ok tt, tr))
  /\ (fmt = PyStr "FLAC" ->
      forall encoding, getitem torrent "encoding" = Ok encoding ->
        (encoding = PyStr "24bit Lossless" ->
           classify td = Ok (Desttype (Some "flac24bit")))
        /\ (encoding <> PyStr "24bit Lossless" ->
            classify td = Ok (Desttype (Some "flac"))))
  /\ (fmt = PyStr "MP3" ->
      classify td = Ok (Desttype None)
      /\ processFile charref_sub cfg td tr = (Ok tt, tr))
  /\ (fmt <> PyStr "" -> fmt <> PyStr "FLAC" ->
      classify td = Ok (Desttype None)
      /\ processFile charref_sub cfg td tr = (Ok tt, tr))
  /\ (forall category,
        classify td = Ok (Desttype (Some category)) ->
        dict_get destdirs category = None ->
        processFile charref_sub cfg td tr = (Ok tt, tr)).
Proof.
  intros Hd Ht Hf.
  pose proof (classify_spec td torrent fmt Ht Hf) as Hc.
  assert (Hother : fmt <> PyStr "" -> fmt <> PyStr "FLAC" ->
                   classify td = Ok (Desttype None)
                   /\ processFile charref_sub cfg td tr = (Ok tt, tr)).
  { intros H1 H2. apply eq_str_false in H1, H2. rewrite H1, H2 in Hc.
    split; [exact Hc|].
    now apply (processFile_skips charref_sub cfg td destdirs None). }
  split; [|split; [|split; [|split]]].
  - intros ->. split; [exact Hc|].
    unfold processFile, bind, lift. rewrite Hc. reflexivity.
  - intros -> encoding He. rewrite Hc. simpl. rewrite He. simpl. split.
    + intros ->. reflexivity.
    + intros Hne. apply eq_str_false in Hne. rewrite Hne. reflexivity.
  - intros ->. apply Hother; discriminate.
  - exact Hother.
  - intros category Hcat Hnone.
    now apply (processFile_skips charref_sub cfg td destdirs (Some category)).
Qed.

Lemma classification_follows_table_witness :
  classify album_x = Ok (Desttype (Some "flac")).
Proof.
  refine (proj2 (proj1 (proj2
    (classification_follows_table
       (fun s => s) scenario_config album_x
       (PyDict [("format", PyStr "FLAC"); ("encoding", PyStr "Lossless");
                ("filePath", PyStr "Artist A - Album X")])
       (PyStr "FLAC") [("flac", PyStr "/dest/flac")] []
       eq_refl eq_refl eq_refl))
    eq_refl (PyStr "Lossless") eq_refl) _).
  discriminate.
Defined.

(** *** Placement *)

Lemma bind_lift {A B} (r : result A) (k : A -> M B) (tr : trace) :
  bind (lift r) k tr =
    match r with
    | Ok a => k a tr
    | Raise e => (Raise e, tr)
    | Unmodelled => (Unmodelled, tr)
    end.
Proof. unfold bind, lift. destruct r; reflexivity. Qed.

Lemma replace_char_absent (c : ascii) (by_ s : string) :
  contains_char c s = false -> replace_char c by_ s = s.
Proof.
  induction s as [|a s IH]; simpl; [reflexivity|].
  destruct (Ascii.eqb a c); simpl; [discriminate|].
  intros H. now rewrite IH.
Qed.

(** What one turn of the loop does, step by step. *)
Lemma processFile_unfold (f : string -> string) (cfg td : pyval) (tr : trace) :
  processFile f cfg td tr =
    match classify td with
    | Ok Continue => (Ok tt, tr)
    | Ok (Desttype desttype) =>
        match getitem cfg "destdirs" with
        | Ok destdirs =>
            match contains destdirs desttype with
            | Ok true =>
                match (destdir <- match desttype with
                                  | Some d => getitem destdirs d
                                  | None => Raise TypeError
                                  end ;;
                       torrentdir <- getitem cfg "torrentdir" ;;
                       filePath <- getpath td ["torrent"; "filePath"] ;;
                       escaped <- escape_slashes filePath ;;
                       olddir <- path_join torrentdir escaped ;;
                       name <- renderName cfg td ;;
                       newdir <- path_join destdir name ;;
                       Ok (olddir, newdir)) with
                | Ok (olddir, newdir) =>
                    (Ok tt,
                     (tr ++ [SubprocessCall ["cp"; "-Rl"; html_unescape f olddir;
                                             html_unescape f newdir]])%list)
                | Raise e => (Raise e, tr)
                | Unmodelled => (Unmodelled, tr)
                end
            | Ok false => (Ok tt, tr)
            | Raise e => (Raise e, tr)
            | Unmodelled => (Unmodelled, tr)
            end
        | Raise e => (Raise e, tr)
        | Unmodelled => (Unmodelled, tr)
        end
    | Raise e => (Raise e, tr)
    | Unmodelled => (Unmodelled, tr)
    end.
Proof.
  unfold processFile. rewrite bind_lift.
  destruct (classify td) as [[|desttype]| |]; try reflexivity.
  rewrite bind_lift. destruct (getitem cfg "destdirs") as [destdirs| |]; try reflexivity.
  rewrite bind_lift. destruct (contains destdirs desttype) as [[|]| |]; try reflexivity.
  rewrite bind_lift.
  destruct (match desttype with Some d => getitem destdirs d | None => Raise TypeError end)
    as [destdir| |]; try reflexivity.
  cbn [rbind]. rewrite bind_lift.
  destruct (getitem cfg "torrentdir") as [torrentdir| |]; try reflexivity.
  cbn [rbind]. rewrite bind_lift.
  destruct (getpath td ["torrent"; "filePath"]) as [filePath| |]; try reflexivity.
  cbn [rbind]. rewrite bind_lift.
  destruct (escape_slashes filePath) as [escaped| |]; try reflexivity.
  cbn [rbind]. rewrite bind_lift.
  destruct (path_join torrentdir escaped) as [olddir| |]; try reflexivity.
  cbn [rbind]. rewrite bind_lift.
  destruct (renderName cfg td) as [name| |]; try reflexivity.
  cbn [rbind]. rewrite bind_lift.
  destruct (path_join destdir name) as [newdir| |]; reflexivity.
Qed.

(** C7, as the code has it. Whenever a turn of the loop places a release
    (the trace grows), it runs one [cp -Rl] whose source is the torrent
    directory joined with the file path in which every "/" has become "\/",
    the whole then unescaped.  For a file path without "/" this is the path
    of the specification. *)
Theorem placement_source_path
        (f : string -> string) (cfg td : pyval) (tr tr' : trace)
        (out : result unit) :
  processFile f cfg td tr = (out, tr') ->
  tr' <> tr ->
  exists torrentdir filePath dst,
    getitem cfg "torrentdir" = Ok (PyStr torrentdir)
    /\ getpath td ["torrent"; "filePath"] = Ok (PyStr filePath)
    /\ out = Ok tt
    /\ tr' = (tr ++ [SubprocessCall
                       ["cp"; "-Rl";
                        html_unescape f
                          (os_path_join torrentdir (replace_char "/" "\/" filePath));
                        dst]])%list
    /\ (contains_char "/" filePath = false ->
        html_unescape f (os_path_join torrentdir (replace_char "/" "\/" filePath))
        = spec_source_path f torrentdir filePath).
Proof.
  rewrite processFile_unfold. intros H Hne.
  destruct (classify td) as [[|desttype]| |];
    try (injection H as _ H; congruence).
  destruct (getitem cfg "destdirs") as [destdirs| |];
    try (injection H as _ H; congruence).
  destruct (contains destdirs desttype) as [[|]| |];
    try (injection H as _ H; congruence).
  destruct (match desttype with Some d => getitem destdirs d | None => Raise TypeError end)
    as [destdir| |]; cbn [rbind] in H; try (injection H as _ H; congruence).
  destruct (getitem cfg "torrentdir") as [torrentdir| |];
    cbn [rbind] in H; try (injection H as _ H; congruence).
  destruct (getpath td ["torrent"; "filePath"]) as [filePath| |] eqn:Hfp;
    cbn [rbind] in H; try (injection H as _ H; congruence).
  destruct filePath as [| | |fp| |];
    cbn [rbind] in H; try (injection H as _ H; congruence).
  destruct torrentdir as [| | |t| |];
    cbn [rbind] in H; try (injection H as _ H; congruence).
  destruct (renderName cfg td) as [name| |];
    cbn [rbind] in H; try (injection H as _ H; congruence).
  destruct (path_join destdir name) as [newdir| |];
    cbn [rbind] in H; try (injection H as _ H; congruence).
  injection H as <- <-.
  exists t, fp, (html_unescape f newdir).
  repeat split.
  intros Hno. unfold spec_source_path. now rewrite replace_char_absent.
Qed.

Lemma placement_source_path_witness :
  exists torrentdir filePath dst,
    getitem scenario_config "torrentdir" = Ok (PyStr torrentdir)
    /\ getpath album_x ["torrent"; "filePath"] = Ok (PyStr filePath)
    /\ Ok tt = Ok tt
    /\ [SubprocessCall ["cp"; "-Rl"; "/torrents/Artist A - Album X";
                        "/dest/flac/Artist A - Album X (2020) [FLAC]"]]
       = ([] ++ [SubprocessCall
                   ["cp"; "-Rl";
                    html_unescape (fun s => s)
                      (os_path_join torrentdir (replace_char "/" "\/" filePath));
                    dst]])%list
    /\ (contains_char "/" filePath = false ->
        html_unescape (fun s => s)
          (os_path_join torrentdir (replace_char "/" "\/" filePath))
        = spec_source_path (fun s => s) torrentdir filePath).
Proof.
  apply (placement_source_path (fun s => s) scenario_config album_x []
           [SubprocessCall ["cp"; "-Rl"; "/torrents/Artist A - Album X";
                            "/dest/flac/Artist A - Album X (2020) [FLAC]"]]
           (Ok tt)).
  - reflexivity.
  - discriminate.
Defined.

(** C7, as stated, fails: a file path with a "/" reaches [cp] with "\/" in
    its place, which is not the joined path of the specification. *)
Lemma source_path_is_transformed :
  (forall f, exists dst,
      processFile f scenario_config album_in_subdir []
      = (Ok tt, [SubprocessCall ["cp"; "-Rl"; "/torrents/Artist A\/Album X"; dst]]))
  /\ (forall f, spec_source_path f "/torrents" "Artist A/Album X"
                = "/torrents/Artist A/Album X")
  /\ "/torrents/Artist A\/Album X" <> "/torrents/Artist A/Album X".
Proof.
  split; [|split].
  - intros f. eexists. reflexivity.
  - intros f. reflexivity.
  - discriminate.
Qed.

(** *** A release that cannot be rendered *)

Lemma renderName_fields (cfg td : pyval) (s : string) :
  renderName cfg td = Ok s ->
  exists artists fmt name year,
    getpath td ["group"; "musicInfo"; "artists"] = Ok artists
    /\ getpath td ["torrent"; "format"] = Ok fmt
    /\ getpath td ["group"; "name"] = Ok name
    /\ getpath td ["group"; "year"] = Ok year.
Proof.
  unfold renderName. intros H.
  destruct (artist_field cfg td) as [a| |] eqn:Ha; try discriminate H.
  cbn [rbind] in H.
  destruct (getpath td ["torrent"; "format"]) as [fmt| |]; try discriminate H.
  cbn [rbind] in H.
  destruct (getpath td ["group"; "name"]) as [name| |]; try discriminate H.
  cbn [rbind] in H.
  destruct (getpath td ["group"; "year"]) as [year| |]; try discriminate H.
  unfold artist_field in Ha.
  destruct (getpath td ["group"; "musicInfo"; "artists"]) as [artists| |];
    try discriminate Ha.
  exists artists, fmt, name, year. repeat split.
Qed.

Lemma processLoop_raises (f : string -> string) (cfg : pyval) (k : Z) (td : pyval)
      (rest : list (Z * pyval)) (tr tr' : trace) (e : exn) :
  processFile f cfg td tr = (Raise e, tr') ->
  processLoop f cfg ((k, td) :: rest) tr = (Raise e, tr').
Proof. intros H. simpl. unfold bind. now rewrite H. Qed.

(** The loop over two lists in a row: the second is reached only when the
    first went through. *)
Lemma processLoop_app (f : string -> string) (cfg : pyval)
      (before rest : list (Z * pyval)) (tr : trace) :
  processLoop f cfg (before ++ rest) tr
  = let (r, tr1) := processLoop f cfg before tr in
    match r with
    | Ok _ => processLoop f cfg rest tr1
    | Raise e => (Raise e, tr1)
    | Unmodelled => (Unmodelled, tr1)
    end.
Proof.
  revert tr. induction before as [|[k td] before IH]; intros tr;
    cbn [app processLoop]; [reflexivity|].
  unfold bind. destruct (processFile f cfg td tr) as [[[]| |] tr0];
    [apply IH | reflexivity | reflexivity].
Qed.

(** C6, as the code has it. Rendering never makes up a value: it returns a
    name only if the artist list, the format, the group name and the year
    are all there, and otherwise raises what the first failing lookup raises
    (a [KeyError] naming the key, when a key is absent).  Nothing catches
    it: when rendering raises for a release that was about to be placed,
    [processFiles] stops with that exception, wherever the release stands
    in the data: the releases before it have been processed as they would
    be alone, the release is not placed, and the releases after it are not
    looked at, whatever they are. *)
Theorem rendering_failure_stops_processFiles :
  (forall cfg td s,
      renderName cfg td = Ok s ->
      exists artists fmt name year,
        getpath td ["group"; "musicInfo"; "artists"] = Ok artists
        /\ getpath td ["torrent"; "format"] = Ok fmt
        /\ getpath td ["group"; "name"] = Ok name
        /\ getpath td ["group"; "year"] = Ok year)
  /\ (forall kvs k, dict_get kvs k = None ->
                    getitem (PyDict kvs) k = Raise (KeyError k))
  /\ (forall cfg td e,
         getpath td ["group"; "musicInfo"; "artists"] = Raise e ->
         renderName cfg td = Raise e)
  /\ (forall cfg td artist e,
         artist_field cfg td = Ok artist ->
         getpath td ["torrent"; "format"] = Raise e ->
         renderName cfg td = Raise e)
  /\ (forall cfg td artist fmt e,
         artist_field cfg td = Ok artist ->
         getpath td ["torrent"; "format"] = Ok fmt ->
         getpath td ["group"; "name"] = Raise e ->
         renderName cfg td = Raise e)
  /\ (forall cfg td artist fmt name e,
         artist_field cfg td = Ok artist ->
         getpath td ["torrent"; "format"] = Ok fmt ->
         getpath td ["group"; "name"] = Ok name ->
         getpath td ["group"; "year"] = Raise e ->
         renderName cfg td = Raise e)
  /\ (forall f cfg before k td rest destdirs category destdir torrentdir filePath e
             tr tr1,
         processFiles f (fetched cfg before) tr = (Ok tt, tr1) ->
         classify td = Ok (Desttype (Some category)) ->
         getitem cfg "destdirs" = Ok (PyDict destdirs) ->
         dict_get destdirs category = Some destdir ->
         getitem cfg "torrentdir" = Ok (PyStr torrentdir) ->
         getpath td ["torrent"; "filePath"] = Ok (PyStr filePath) ->
         renderName cfg td = Raise e ->
         processFiles f (fetched cfg (before ++ (k, td) :: rest)) tr
         = (Raise e, tr1)).
Proof.
  split; [exact renderName_fields|].
  split; [exact getitem_absent|].
  split; [|split; [|split; [|split]]].
  - intros cfg td e H. unfold renderName, artist_field. now rewrite H.
  - intros cfg td a e Ha H. unfold renderName. now rewrite Ha, H.
  - intros cfg td a fmt e Ha Hf H. unfold renderName. now rewrite Ha, Hf, H.
  - intros cfg td a fmt name e Ha Hf Hn H. unfold renderName.
    now rewrite Ha, Hf, Hn, H.
  - intros f cfg before k td rest destdirs category destdir torrentdir filePath e
           tr tr1 Hb Hc Hd Hk Ht Hfp Hr.
    unfold processFiles, fetched in *. cbn [config GazelleSort.torrentdata] in *.
    rewrite processLoop_app, Hb.
    apply processLoop_raises. rewrite processFile_unfold, Hc, Hd.
    cbn [contains]. unfold dict_mem. rewrite Hk.
    rewrite (proj2 (getitem_dict destdirs category destdir) Hk).
    cbn [rbind]. rewrite Ht. cbn [rbind]. rewrite Hfp. cbn [rbind].
    cbn [escape_slashes path_join rbind]. rewrite Hr. reflexivity.
Qed.

Lemma rendering_failure_stops_processFiles_witness :
  processFiles (fun s => s)
               (fetched scenario_config
                        ([(2, album_x)] ++ (1, release_without_year) :: [(3, album_x)]))
               []
  = (Raise (KeyError "year"),
     [SubprocessCall ["cp"; "-Rl"; "/torrents/Artist A - Album X";
                      "/dest/flac/Artist A - Album X (2020) [FLAC]"]]).
Proof.
  apply (proj2 (proj2 (proj2 (proj2 (proj2 (proj2
           rendering_failure_stops_processFiles)))))
           (fun s => s) scenario_config
           [(2, album_x)] 1 release_without_year
           [(3, album_x)] [("flac", PyStr "/dest/flac")] "flac"
           (PyStr "/dest/flac") "/torrents" "Artist B - Album Y"
           (KeyError "year") []); reflexivity.
Defined.

(** C6, as stated, fails: with a release that lacks its year ahead of a
    sound one, [processFiles] ends in [KeyError] and has placed nothing,
    though the sound release alone is placed; with a sound release before
    it and one after it, the first is placed and the last is not. *)
Lemma missing_year_aborts_the_run :
  (forall f,
      processFiles f (fetched scenario_config
                              [(1, release_without_year); (2, album_x)]) []
      = (Raise (KeyError "year"), []))
  /\ (forall f,
         processFiles f (fetched scenario_config [(2, album_x)]) []
         = (Ok tt, [SubprocessCall ["cp"; "-Rl"; "/torrents/Artist A - Album X";
                                    "/dest/flac/Artist A - Album X (2020) [FLAC]"]]))
  /\ (forall f,
         processFiles f (fetched scenario_config
                                 [(2, album_x); (1, release_without_year);
                                  (3, album_in_subdir)]) []
         = (Raise (KeyError "year"),
            [SubprocessCall ["cp"; "-Rl"; "/torrents/Artist A - Album X";
                             "/dest/flac/Artist A - Album X (2020) [FLAC]"]]))
  /\ (forall f, exists dst,
         processFiles f (fetched scenario_config [(3, album_in_subdir)]) []
         = (Ok tt, [SubprocessCall ["cp"; "-Rl"; "/torrents/Artist A\/Album X"; dst]])).
Proof.
  split; [|split; [|split]]; intros f; try reflexivity.
  eexists. reflexivity.
Qed.

(** *** Strings *)

Lemma string_app_assoc (a b c : string) :
  ((a ++ b) ++ c = a ++ (b ++ c))%string.
Proof. induction a as [|x a IH]; simpl; [reflexivity | now rewrite IH]. Qed.

Lemma string_app_nil_r (a : string) : (a ++ "")%string = a.
Proof. induction a as [|x a IH]; simpl; [reflexivity | now rewrite IH]. Qed.

Lemma string_app_length (a b : string) :
  String.length (a ++ b) = (String.length a + String.length b)%nat.
Proof. induction a as [|x a IH]; simpl; [reflexivity | now rewrite IH]. Qed.

(** *** The [%] operator *)





(** *** Sorting *)

Lemma ltb_false_le (x y : string) : String.ltb x y = false -> str_le y x.
Proof.
  unfold String.ltb, str_le, String.leb. rewrite (String.compare_antisym y x).
  destruct (String.compare x y); simpl; congruence.
Qed.

Lemma ltb_true_le (x y : string) : String.ltb x y = true -> str_le x y.
Proof.
  unfold String.ltb, str_le, String.leb.
  destruct (String.compare x y); congruence.
Qed.

Lemma insert_sorted_perm (x : string) (l : list string) :
  Permutation (x :: l) (insert_sorted x l).
Proof.
  induction l as [|y l IH]; simpl; [apply Permutation_refl|].
  destruct (String.ltb x y); [apply Permutation_refl|].
  eapply perm_trans; [apply perm_swap | apply perm_skip, IH].
Qed.

Lemma insert_sorted_hd (x y : string) (l : list string) :
  str_le y x -> HdRel str_le y l -> HdRel str_le y (insert_sorted x l).
Proof.
  intros Hyx Hhd. destruct l as [|z l]; simpl.
  - now constructor.
  - destruct (String.ltb x z); constructor; [assumption|].
    now inversion Hhd.
Qed.

Lemma insert_sorted_Sorted (x : string) (l : list string) :
  Sorted str_le l -> Sorted str_le (insert_sorted x l).
Proof.
  induction 1 as [|y l Hs IH Hhd]; simpl.
  - repeat constructor.
  - destruct (String.ltb x y) eqn:E.
    + constructor; [now constructor|]. constructor. now apply ltb_true_le.
    + constructor; [exact IH|].
      apply insert_sorted_hd; [now apply ltb_false_le | exact Hhd].
Qed.

Lemma sorted_perm (l : list string) : Permutation l (sorted l).
Proof.
  induction l as [|x l IH]; simpl; [constructor|].
  eapply perm_trans; [apply perm_skip, IH | apply insert_sorted_perm].
Qed.

Lemma sorted_Sorted (l : list string) : Sorted str_le (sorted l).
Proof.
  induction l as [|x l IH]; simpl; [constructor | now apply insert_sorted_Sorted].
Qed.

(** *** renderName *)






(** The end-to-end scenario of the specification. *)
Example renderName_album_x :
  renderName scenario_config album_x = Ok "Artist A - Album X (2020) [FLAC]".
Proof. reflexivity. Qed.

Example renderName_sorts_artists :
  renderName scenario_config
             (release ["b"; "a"] "Album" 1999 "FLAC" "Lossless" "p")
  = Ok "a & b - Album (1999) [FLAC]"
  /\ renderName scenario_config
                (release ["c"; "b"; "a"] "Album" 1999 "FLAC" "Lossless" "p")
     = Ok "Various Artists - Album (1999) [FLAC]".
Proof. split; reflexivity. Qed.

(** *** Scanning *)

Section ScanFacts.
Context {A : Type} (match_here : string -> option (A * nat)).

Lemma scan_skip (a rest : string) :
  scan match_here (String.length a) (a ++ rest) = scan match_here 0 rest.
Proof. induction a as [|c a IH]; simpl; [reflexivity | exact IH]. Qed.

Lemma scan_quiet (gap rest : string) :
  quiet match_here gap rest ->
  scan match_here 0 (gap ++ rest)
  = (map Unmatched (list_ascii_of_string gap) ++ scan match_here 0 rest)%list.
Proof.
  induction gap as [|c gap IH]; intros Hq; [reflexivity|].
  destruct Hq as [Hnone Hq]. cbn [String.append scan] in *.
  rewrite Hnone. cbn [list_ascii_of_string map app]. now rewrite IH.
Qed.

Lemma scan_matched (c : ascii) (m rest : string) (a : A) :
  match_here (String c m ++ rest) = Some (a, S (String.length m)) ->
  scan match_here 0 (String c m ++ rest) = Matched a :: scan match_here 0 rest.
Proof.
  intros H. cbn [String.append scan] in *. rewrite H. cbn [Nat.pred].
  now rewrite scan_skip.
Qed.

Lemma matches_app (ps qs : list (piece A)) :
  matches (ps ++ qs) = (matches ps ++ matches qs)%list.
Proof.
  induction ps as [|[c|a] ps IH]; simpl; [reflexivity | exact IH | now rewrite IH].
Qed.

Lemma matches_unmatched (l : list ascii) : matches (map (@Unmatched A) l) = [].
Proof. induction l as [|c l IH]; simpl; [reflexivity | exact IH]. Qed.

Lemma substitute_unmatched (repl gap : string) (ps : list (piece A)) :
  substitute repl (map Unmatched (list_ascii_of_string gap) ++ ps)
  = (gap ++ substitute repl ps)%string.
Proof. induction gap as [|c gap IH]; simpl; [reflexivity | now rewrite IH]. Qed.

End ScanFacts.

Lemma strip_prefix_app (p s : string) : strip_prefix p (p ++ s) = Some s.
Proof.
  induction p as [|c p IH]; simpl; [reflexivity|].
  now rewrite Ascii.eqb_refl.
Qed.

Lemma span_app (f : ascii -> bool) (a rest : string) :
  all_chars f a = true -> starts_in f rest = false ->
  span f (a ++ rest) = (a, rest).
Proof.
  intros Ha Hr. induction a as [|c a IH].
  - destruct rest as [|d rest]; [reflexivity|]. simpl in *. now rewrite Hr.
  - simpl in *. apply andb_true_iff in Ha. destruct Ha as [Hc Ha].
    now rewrite Hc, (IH Ha).
Qed.

(** *** The redaction of the authentication key *)

Lemma auth_quiet (pre rest : string) :
  is_substring "auth=" pre = false ->
  quiet match_auth pre ("auth=" ++ rest).
Proof.
  induction pre as [|c pre IH]; intros H; [exact I|].
  cbn [is_substring] in H. apply orb_false_iff in H. destruct H as [Hs Hsub].
  split; [|now apply IH].
  unfold match_auth, startswith in *.
  destruct pre as [|c2 [|c3 [|c4 [|c5 pre]]]];
    split_eqb; try reflexivity; discriminate.
Qed.

Lemma match_auth_key (key post : string) :
  key <> "" -> all_chars is_hex key = true -> starts_in is_hex post = false ->
  match_auth ("auth=" ++ key ++ post) = Some (tt, (5 + String.length key)%nat).
Proof.
  intros Hne Hhex Hpost. unfold match_auth.
  rewrite strip_prefix_app, (span_app is_hex key post Hhex Hpost).
  destruct key; [contradiction | reflexivity].
Qed.

(** The key that follows "auth=" is replaced, and the text before it is kept,
    when no "auth=" occurs before. *)
Lemma redact_key (pre key post : string) :
  is_substring "auth=" pre = false ->
  key <> "" -> all_chars is_hex key = true -> starts_in is_hex post = false ->
  re_sub match_auth "auth=REDACTED" (pre ++ "auth=" ++ key ++ post)
  = (pre ++ "auth=REDACTED" ++ re_sub match_auth "auth=REDACTED" post)%string.
Proof.
  intros Hpre Hne Hhex Hpost. unfold re_sub.
  rewrite (scan_quiet match_auth pre _ (auth_quiet pre (key ++ post) Hpre)).
  rewrite substitute_unmatched. f_equal.
  change ("auth=" ++ key ++ post)%string
    with (String "a" ("uth=" ++ key) ++ post)%string.
  rewrite (scan_matched match_auth "a" ("uth=" ++ key) post tt); [reflexivity|].
  change (String "a" ("uth=" ++ key) ++ post)%string
    with ("auth=" ++ key ++ post)%string.
  rewrite (match_auth_key key post Hne Hhex Hpost). reflexivity.
Qed.

Lemma span_spec (f : ascii -> bool) (s a b : string) :
  span f s = (a, b) ->
  s = (a ++ b)%string /\ all_chars f a = true /\ starts_in f b = false.
Proof.
  revert a b. induction s as [|c s IH]; intros a b H; cbn [span] in H.
  - injection H as <- <-. repeat split.
  - destruct (f c) eqn:Hc.
    + destruct (span f s) as [a' b'] eqn:E. injection H as <- <-.
      destruct (IH a' b' eq_refl) as (-> & Ha & Hb).
      cbn [String.append all_chars]. rewrite Hc, Ha. repeat split. exact Hb.
    + injection H as <- <-. cbn [String.append starts_in all_chars].
      repeat split. exact Hc.
Qed.

Lemma strip_prefix_spec (p s r : string) :
  strip_prefix p s = Some r -> s = (p ++ r)%string.
Proof.
  revert s. induction p as [|a p IH]; intros s H; cbn [strip_prefix] in H.
  - now injection H as ->.
  - destruct s as [|b s]; [discriminate H|].
    destruct (Ascii.eqb a b) eqn:E; [|discriminate H].
    apply Ascii.eqb_eq in E. subst b. cbn [String.append]. f_equal. now apply IH.
Qed.

(** A hexadecimal run ends at the latest where a separator of the query
    string stands. *)
Lemma span_separator (sep : ascii) (p rest : string) :
  is_hex sep = false ->
  span is_hex (p ++ String sep rest)
  = (fst (span is_hex p), (snd (span is_hex p) ++ String sep rest)%string).
Proof.
  intros Hsep. induction p as [|c p IH]; cbn [String.append span].
  - now rewrite Hsep.
  - destruct (is_hex c); [|reflexivity].
    rewrite IH. destruct (span is_hex p). reflexivity.
Qed.

Lemma strip_auth_separator (sep : ascii) (p rest : string) :
  sep = "?"%char \/ sep = "&"%char ->
  strip_prefix "auth=" (p ++ String sep rest)
  = match strip_prefix "auth=" p with
    | Some p' => Some (p' ++ String sep rest)%string
    | None => None
    end.
Proof.
  intros [->| ->];
    destruct p as [|c1 [|c2 [|c3 [|c4 [|c5 p]]]]];
    split_eqb; reflexivity.
Qed.

Lemma span_length (f : ascii -> bool) (s : string) :
  (String.length (fst (span f s)) <= String.length s)%nat.
Proof.
  induction s as [|c s IH]; cbn [span]; [reflexivity|].
  destruct (f c); [|cbn; lia].
  destruct (span f s). cbn [fst String.length] in *. lia.
Qed.

(** No match of the pattern reaches across a separator. *)
Lemma match_auth_separator (sep : ascii) (p rest : string) :
  sep = "?"%char \/ sep = "&"%char ->
  match_auth (p ++ String sep rest) = match_auth (p ++ String sep "")
  /\ forall n, match_auth (p ++ String sep "") = Some (tt, n) ->
               (n <= String.length p)%nat.
Proof.
  intros Hsep.
  assert (Hhex : is_hex sep = false) by (destruct Hsep as [->| ->]; reflexivity).
  unfold match_auth. rewrite !(strip_auth_separator sep p _ Hsep).
  destruct (strip_prefix "auth=" p) as [p'|] eqn:Ep; [|split; [reflexivity | discriminate]].
  rewrite !(span_separator sep p' _ Hhex). cbn [fst]. split; [reflexivity|].
  apply strip_prefix_spec in Ep. subst p. intros n.
  pose proof (span_length is_hex p') as Hlen.
  destruct (fst (span is_hex p')) as [|h key]; [discriminate|].
  intros [= <-]. rewrite string_app_length. cbn [String.length] in *. lia.
Qed.

Lemma scan_separator (sep : ascii) (front rest : string) (k : nat) :
  sep = "?"%char \/ sep = "&"%char ->
  (k <= String.length front)%nat ->
  scan match_auth k (front ++ String sep rest)
  = (scan match_auth k (front ++ String sep "") ++ scan match_auth 0 rest)%list.
Proof.
  intros Hsep. revert k. induction front as [|c front IH]; intros k Hk.
  - cbn [String.length] in Hk. assert (k = 0)%nat as -> by lia.
    cbn [String.append scan].
    replace (match_auth (String sep rest)) with (@None (unit * nat))
      by (destruct Hsep as [->| ->]; reflexivity).
    replace (match_auth (String sep "")) with (@None (unit * nat))
      by (destruct Hsep as [->| ->]; reflexivity).
    reflexivity.
  - destruct k as [|k]; cbn [String.append scan].
    + destruct (match_auth_separator sep (String c front) rest Hsep) as [Heq Hn].
      cbn [String.append] in Heq, Hn. rewrite Heq.
      destruct (match_auth (String c (front ++ String sep ""))) as [[[] n]|].
      * specialize (Hn n eq_refl). cbn [String.length] in Hn.
        cbn [app]. f_equal. apply IH. lia.
      * cbn [app]. f_equal. apply IH. lia.
    + apply IH. cbn [String.length] in Hk. lia.
Qed.

Lemma substitute_app {A} (repl : string) (ps qs : list (piece A)) :
  substitute repl (ps ++ qs)
  = (substitute repl ps ++ substitute repl qs)%string.
Proof.
  induction ps as [|[c|a] ps IH]; cbn [app substitute String.append];
    [reflexivity | now rewrite IH | now rewrite IH, string_app_assoc].
Qed.

(** A key of hexadecimal digits that stands in the query string as the
    value of [auth] is replaced as a whole, whatever comes before it. *)
Lemma redact_parameter (sep : ascii) (front key post : string) :
  sep = "?"%char \/ sep = "&"%char ->
  key <> "" -> all_chars is_hex key = true -> starts_in is_hex post = false ->
  re_sub match_auth "auth=REDACTED"
         (front ++ String sep ("auth=" ++ key ++ post))
  = (re_sub match_auth "auth=REDACTED" (front ++ String sep "")
     ++ "auth=REDACTED" ++ re_sub match_auth "auth=REDACTED" post)%string.
Proof.
  intros Hsep Hne Hhex Hpost. unfold re_sub.
  rewrite (scan_separator sep front _ 0 Hsep) by lia.
  rewrite substitute_app. f_equal.
  exact (redact_key "" key post eq_refl Hne Hhex Hpost).
Qed.

(** *** ajaxrequest *)

Lemma getitem_raises (x : pyval) (k : string) (e : exn) :
  getitem x k = Raise e -> e = KeyError k \/ e = TypeError.
Proof.
  destruct x; simpl; try (intros [= <-]; now right).
  destruct (dict_get kvs k); [discriminate|]. intros [= <-]. now left.
Qed.

Lemma contains_raises (c : pyval) (item : option string) (e : exn) :
  contains c item = Raise e -> e = TypeError.
Proof.
  destruct c; simpl; try discriminate; try (now intros [= <-]).
  destruct item; [discriminate | now intros [= <-]].
Qed.

Lemma ajaxrequest_unfold
      (net : trace -> string -> list (string * pyval) -> Response)
      (s : self) (action : string) (kwargs : list (string * pyval))
      (base : string) (tr : trace) :
  getitem (config s) "url" = Ok (PyStr base) ->
  ajaxrequest net s action kwargs tr
  = (decode_response
       (net tr (base ++ "/ajax.php") (ajax_params s action kwargs)),
     (tr ++ [SessionGet (base ++ "/ajax.php") (ajax_params s action kwargs)])%list).
Proof.
  intros Hurl. unfold ajaxrequest. rewrite bind_lift, Hurl.
  cbn [add_str]. rewrite bind_lift. unfold bind, session_get, lift.
  reflexivity.
Qed.

(** C3, as the code has it. One request is sent, and its answer decides:
    a decoded body whose [status] is "success" is returned whole; any other
    status with an [error] raises [RequestException] with the error text and
    the URL after redaction, in which a key of hexadecimal digits that stands
    in the query string as the value of [auth] has given way to "REDACTED";
    without an [error] it raises [RequestException] saying that no message
    was returned; a body that is no JSON raises [RequestException] with the
    HTTP status code.  The failure that the API reports and the one of a body
    that is no JSON are of one and the same class. *)
Theorem ajaxrequest_outcomes :
  (forall net s action kwargs base tr,
      getitem (config s) "url" = Ok (PyStr base) ->
      ajaxrequest net s action kwargs tr
      = (decode_response
           (net tr (base ++ "/ajax.php") (ajax_params s action kwargs)),
         (tr ++ [SessionGet (base ++ "/ajax.php")
                            (ajax_params s action kwargs)])%list))
  /\ (forall r decoded,
         json r = Some decoded ->
         getitem decoded "status" = Ok (PyStr "success") ->
         decode_response r = Ok decoded)
  /\ (forall r decoded status error text,
         json r = Some decoded ->
         getitem decoded "status" = Ok status -> status <> PyStr "success" ->
         getitem decoded "error" = Ok error -> str error = Ok text ->
         decode_response r
         = Raise (RequestException
                    ("Request '" ++ re_sub match_auth "auth=REDACTED" (url r)
                     ++ "' failed. Error: " ++ text)))
  /\ (forall sep front key post,
         sep = "?"%char \/ sep = "&"%char ->
         key <> "" -> all_chars is_hex key = true ->
         starts_in is_hex post = false ->
         re_sub match_auth "auth=REDACTED"
                (front ++ String sep ("auth=" ++ key ++ post))
         = (re_sub match_auth "auth=REDACTED" (front ++ String sep "")
            ++ "auth=REDACTED"
            ++ re_sub match_auth "auth=REDACTED" post)%string)
  /\ (forall r kvs status,
         json r = Some (PyDict kvs) ->
         dict_get kvs "status" = Some status -> status <> PyStr "success" ->
         dict_get kvs "error" = None ->
         exists context,
           decode_response r
           = Raise (RequestException
                      (context
                       ++ "' failed. No Error message was returned by API.")))
  /\ (forall r,
         json r = None ->
         decode_response r
         = Raise (RequestException
                    ("Request didn't return any JSON. HTTP status code: "
                     ++ str_of_Z (status_code r))))
  /\ (forall r r' decoded status e e',
         json r = Some decoded -> getitem decoded "status" = Ok status ->
         decode_response r = Raise e ->
         json r' = None -> decode_response r' = Raise e' ->
         same_class e e' = true).
Proof.
  split; [exact ajaxrequest_unfold|].
  split; [|split; [|split; [exact redact_parameter|split; [|split]]]].
  - intros r decoded Hj Hs. unfold decode_response. rewrite Hj, Hs. reflexivity.
  - intros r decoded status error text Hj Hs Hne He Ht.
    unfold decode_response. rewrite Hj, Hs. cbn [rbind].
    apply eq_str_false in Hne. rewrite Hne.
    destruct (getitem_ok_dict _ _ _ He) as (kvs & -> & Hk).
    cbn [contains]. unfold dict_mem. rewrite Hk. cbn [rbind].
    rewrite He. cbn [rbind]. rewrite Ht. reflexivity.
  - intros r kvs status Hj Hs Hne He.
    exists ("Request '" ++ url r)%string.
    unfold decode_response. rewrite Hj.
    rewrite (proj2 (getitem_dict kvs "status" status) Hs). cbn [rbind].
    apply eq_str_false in Hne. rewrite Hne.
    cbn [contains]. unfold dict_mem. rewrite He. cbn [rbind].
    now rewrite string_app_assoc.
  - intros r Hj. unfold decode_response. now rewrite Hj.
  - intros r r' decoded status e e' Hj Hs He Hj' He'.
    unfold decode_response in He, He'. rewrite Hj' in He'. rewrite Hj, Hs in He.
    injection He' as <-. cbn [rbind] in He.
    destruct (eq_str status "success"); [discriminate He|].
    destruct (getitem_ok_dict _ _ _ Hs) as (kvs & -> & _).
    cbn [contains rbind] in He.
    destruct (dict_mem kvs "error") eqn:Hm; [|injection He as <-; reflexivity].
    destruct (getitem (PyDict kvs) "error") as [error| |] eqn:Herr;
      cbn [rbind] in He.
    + destruct error as [| [|] | z | t | xs | d]; cbn [str rbind] in He;
        try discriminate He; injection He as <-; reflexivity.
    + exfalso. unfold dict_mem in Hm. unfold getitem in Herr.
      destruct (dict_get kvs "error"); discriminate.
    + discriminate He.
Qed.

Lemma ajaxrequest_outcomes_witness :
  decode_response refusal
  = Raise (RequestException
             "Request 'https://tracker.example/ajax.php?action=index&auth=REDACTED' failed. Error: bad auth").
Proof.
  refine (proj1 (proj2 (proj2 ajaxrequest_outcomes))
            refusal _ (PyStr "failure") (PyStr "bad auth") "bad auth"
            eq_refl eq_refl _ eq_refl eq_refl).
  discriminate.
Defined.

(** C3, as stated, fails: the refusal and the page that is no JSON raise
    exceptions of one and the same class; and a key that is not made of
    hexadecimal digits stays in the message. *)
Lemma failures_share_one_class :
  (exists e e',
      decode_response refusal = Raise e
      /\ decode_response bad_gateway = Raise e'
      /\ same_class e e' = true)
  /\ decode_response
       (mkResponse "https://tracker.example/ajax.php?action=index&auth=xyz" 200
          (Some (PyDict [("status", PyStr "failure"); ("error", PyStr "bad auth")]))
          "{...}")
     = Raise (RequestException
                "Request 'https://tracker.example/ajax.php?action=index&auth=xyz' failed. Error: bad auth").
Proof. split; [do 2 eexists; repeat split | reflexivity]. Qed.

(** *** True division and the page count *)

Lemma ceil_between (m P c : Z) :
  0 < P -> (c - 1) * P < m <= c * P -> - ((- m) / P) = c.
Proof.
  intros HP Hm.
  assert (H : - c = (- m) / P).
  { apply (Z.div_unique (- m) P (- c) (c * P - m)); lia. }
  lia.
Qed.

Lemma round_half_even_bounds (p q : Z) :
  0 < q ->
  p / q <= round_half_even p q <= p / q + 1
  /\ (2 * (p mod q) < q -> round_half_even p q = p / q)
  /\ (q < 2 * (p mod q) -> round_half_even p q = p / q + 1).
Proof.
  intros Hq. unfold round_half_even.
  destruct (Z.compare_spec (2 * (p mod q)) q); [destruct (Z.even (p / q))| |];
    repeat split; lia.
Qed.

(** The rounded quotient with [k] fractional bits has the ceiling of the
    exact one as soon as [k >= 5], or when 50 divides [n]. *)
Lemma ceil_round_50 (n k : Z) :
  0 < n -> 0 <= k -> (5 <= k \/ n mod 50 = 0) ->
  - ((- round_half_even (n * 2 ^ k) 50) / 2 ^ k) = (n + 49) / 50.
Proof.
  intros Hn Hk Hcase.
  set (P := 2 ^ k).
  assert (HP : 0 < P) by (apply Z.pow_pos_nonneg; lia).
  pose proof (Z.div_mod n 50 ltac:(lia)) as Hqr.
  pose proof (Z.mod_pos_bound n 50 ltac:(lia)) as Hr.
  set (q := n / 50) in *. set (r := n mod 50) in *.
  pose proof (Z.div_mod (n * P) 50 ltac:(lia)) as HDR.
  pose proof (Z.mod_pos_bound (n * P) 50 ltac:(lia)) as HR.
  destruct (round_half_even_bounds (n * P) 50 ltac:(lia)) as (Hm & Hdown & Hup).
  set (D := n * P / 50) in *. set (R := (n * P) mod 50) in *.
  set (m := round_half_even (n * P) 50) in *.
  assert (Hq49 : (n + 49) / 50 = if r =? 0 then q else q + 1).
  { destruct (Z.eqb_spec r 0).
    - symmetry. apply (Z.div_unique (n + 49) 50 q 49); lia.
    - symmetry. apply (Z.div_unique (n + 49) 50 (q + 1) (r - 1)); lia. }
  rewrite Hq49.
  assert (HnP : n * P = 50 * (q * P) + r * P) by (rewrite Hqr at 1; ring).
  assert (HrP : 0 <= r * P <= 49 * P) by nia.
  destruct (Z.eqb_spec r 0) as [Hr0|Hr0].
  - assert (HD : D = q * P /\ R = 0) by lia.
    destruct HD as [HD HR0]. rewrite Hdown by lia. rewrite HD.
    apply ceil_between; lia.
  - assert (Hk5 : 5 <= k) by (destruct Hcase; [assumption | contradiction]).
    assert (HP32 : 32 <= P).
    { change 32 with (2 ^ 5). apply Z.pow_le_mono_r; lia. }
    assert (HrP1 : P <= r * P) by nia.
    apply ceil_between; [exact HP|].
    split.
    + destruct (Z_lt_le_dec (q * P) D) as [Hlt|Hle]; [lia|].
      assert (HDq : D = q * P) by lia.
      rewrite Hup; lia.
    + lia.
Qed.

Lemma quot_log2_50 (n : Z) :
  0 < n -> n < 50 * 2 ^ 48 -> quot_log2 n 50 <= 47.
Proof.
  intros Hn Hlt. unfold quot_log2.
  assert (Hl : Z.log2 n < 54).
  { apply Z.log2_lt_pow2; [lia|]. change (2 ^ 54) with (64 * 2 ^ 48). lia. }
  change (Z.log2 50) with 5.
  destruct (Z.leb_spec (50 * 2 ^ Z.max 0 (Z.log2 n - 5))
                       (n * 2 ^ Z.max 0 (- (Z.log2 n - 5)))) as [Hle|Hgt]; [|lia].
  destruct (Z_lt_le_dec (Z.log2 n - 5) 48) as [?|Hge]; [lia|].
  exfalso.
  assert (Hl48 : Z.log2 n - 5 = 48) by lia.
  rewrite Hl48 in Hle. change (Z.max 0 48) with 48 in Hle.
  change (2 ^ Z.max 0 (Z.opp 48)) with 1 in Hle. lia.
Qed.

Lemma quot_log2_50_top : quot_log2 (50 * 2 ^ 48) 50 = 48.
Proof. reflexivity. Qed.

(** Up to [50 * 2 ^ 48] the ceiling of the rounded quotient is the ceiling
    of the exact one. *)
Lemma truediv_50_ceil (n : Z) :
  0 <= n <= 50 * 2 ^ 48 ->
  exists f, truediv n 50 = Ok f /\ math_ceil f = (n + 49) / 50.
Proof.
  intros Hn. unfold truediv. change (50 =? 0) with false. cbv iota.
  destruct (Z.eqb_spec n 0) as [->|Hn0].
  { exists (mkfloat 0 0). split; reflexivity. }
  assert (Hpos : 0 < n) by lia.
  rewrite (Z.abs_eq n) by lia. change (Z.abs 50) with 50.
  unfold truediv_pos.
  set (e := Z.max (quot_log2 n 50 - 52) (- 1074)).
  assert (He : - 1074 <= e <= - 4 /\ (e <= - 5 \/ n mod 50 = 0)).
  { destruct (Z.eq_dec n (50 * 2 ^ 48)) as [->|Hne].
    - subst e. rewrite quot_log2_50_top. split; [split; discriminate|].
      right. reflexivity.
    - pose proof (quot_log2_50 n Hpos ltac:(lia)). subst e. lia. }
  destruct He as [He Hcase].
  replace ((971 <? e) || ((e =? 971) && _)) with false.
  2:{ symmetry. apply orb_false_iff. split; [apply Z.ltb_ge; lia|].
      apply andb_false_iff. left. apply Z.eqb_neq. lia. }
  cbn [rbind mant expo].
  eexists. split; [reflexivity|].
  unfold math_ceil. cbn [mant expo].
  replace (0 <=? e) with false by (symmetry; apply Z.leb_gt; lia).
  rewrite (Z.sgn_pos n) by lia. change (Z.sgn 50) with 1.
  rewrite (Z.max_r 0 (- e)) by lia. rewrite (Z.max_l 0 e) by lia.
  change (2 ^ 0) with 1. rewrite Z.mul_1_r, !Z.mul_1_l.
  apply ceil_round_50; lia.
Qed.

Lemma pow2_pos (k : Z) : 0 <= k -> 0 < 2 ^ k.
Proof. intros. apply Z.pow_pos_nonneg; lia. Qed.

(** For [0 < a < b] the exponent found is [- j], where
    [a * 2 ^ (j - 1) < b <= a * 2 ^ j]. *)
Lemma quot_log2_below_one (a b : Z) :
  0 < a < b ->
  exists j, quot_log2 a b = - j /\ 1 <= j /\ a * 2 ^ (j - 1) < b <= a * 2 ^ j.
Proof.
  intros [Ha Hab]. unfold quot_log2.
  destruct (Z.log2_spec a Ha) as [Ha1 Ha2].
  destruct (Z.log2_spec b ltac:(lia)) as [Hb1 Hb2].
  pose proof (Z.log2_nonneg a) as Hla. pose proof (Z.log2_nonneg b) as Hlb.
  pose proof (Z.log2_le_mono a b ltac:(lia)) as Hmono.
  set (la := Z.log2 a) in *. set (lb := Z.log2 b) in *.
  rewrite (Z.max_l 0 (la - lb)) by lia. rewrite (Z.max_r 0 (- (la - lb))) by lia.
  change (2 ^ 0) with 1. rewrite Z.mul_1_r.
  assert (Hsplit : 2 ^ lb = 2 ^ la * 2 ^ (lb - la)).
  { rewrite <- Z.pow_add_r by lia. f_equal. lia. }
  replace (- (la - lb)) with (lb - la) by lia.
  pose proof (pow2_pos (lb - la) ltac:(lia)) as Hp.
  destruct (Z.leb_spec b (a * 2 ^ (lb - la))) as [HT|HT].
  - exists (lb - la). split; [lia|].
    assert (Hj : 1 <= lb - la).
    { destruct (Z.eq_dec (lb - la) 0) as [E|E]; [|lia].
      rewrite E in HT. change (2 ^ 0) with 1 in HT. lia. }
    split; [exact Hj|]. split; [|exact HT].
    assert (Hs2 : 2 ^ lb = 2 ^ (la + 1) * 2 ^ (lb - la - 1)).
    { rewrite <- Z.pow_add_r by lia. f_equal. lia. }
    pose proof (pow2_pos (lb - la - 1) ltac:(lia)) as Hp1.
    nia.
  - exists (lb - la + 1). split; [lia|]. split; [lia|].
    replace (lb - la + 1 - 1) with (lb - la) by lia. split; [exact HT|].
    rewrite Z.pow_add_r by lia. change (2 ^ 1) with 2.
    rewrite Z.pow_succ_r in Hb2 by lia. nia.
Qed.

Lemma round_half_even_mono (p p' q : Z) :
  0 < q -> p <= p' -> round_half_even p q <= round_half_even p' q.
Proof.
  intros Hq Hp.
  pose proof (Z.div_mod p q ltac:(lia)) as E.
  pose proof (Z.div_mod p' q ltac:(lia)) as E'.
  pose proof (Z.mod_pos_bound p q Hq) as B.
  pose proof (Z.mod_pos_bound p' q Hq) as B'.
  pose proof (Z.div_le_mono p p' q Hq Hp) as Hd.
  unfold round_half_even.
  set (d := p / q) in *. set (d' := p' / q) in *.
  set (r := p mod q) in *. set (r' := p' mod q) in *.
  destruct (Z.eq_dec d d') as [Ed|Ed].
  - assert (Hr : r <= r') by nia. rewrite <- Ed.
    destruct (Z.compare_spec (2 * r) q), (Z.compare_spec (2 * r') q);
      destruct (Z.even d); lia.
  - assert (Hlt : d + 1 <= d') by lia.
    destruct (Z.compare_spec (2 * r) q), (Z.compare_spec (2 * r') q);
      destruct (Z.even d), (Z.even d'); lia.
Qed.

Lemma round_half_even_le (p q x : Z) :
  0 < q -> p <= q * x -> round_half_even p q <= x.
Proof.
  intros Hq Hp.
  pose proof (Z.div_mod p q ltac:(lia)) as E.
  pose proof (Z.mod_pos_bound p q Hq) as B.
  unfold round_half_even. set (d := p / q) in *. set (r := p mod q) in *.
  assert (Hd : d <= x) by nia.
  destruct (Z.eq_dec d x) as [->|Hne].
  - assert (r = 0) by nia.
    destruct (Z.compare_spec (2 * r) q); [lia | lia | lia].
  - destruct (Z.compare_spec (2 * r) q); [destruct (Z.even d)| |]; lia.
Qed.

Lemma round_half_even_ge (p q x : Z) :
  0 < q -> q * x <= p -> x <= round_half_even p q.
Proof.
  intros Hq Hp.
  pose proof (Z.div_mod p q ltac:(lia)) as E.
  pose proof (Z.mod_pos_bound p q Hq) as B.
  unfold round_half_even. set (d := p / q) in *. set (r := p mod q) in *.
  assert (Hd : x <= d) by nia.
  destruct (Z.compare_spec (2 * r) q); [destruct (Z.even d)| |]; lia.
Qed.

(** The quotient of [0 < a < b], written out. *)
Lemma truediv_below_one (a b : Z) :
  0 < a < b ->
  exists j k,
    1 <= j /\ a * 2 ^ (j - 1) < b <= a * 2 ^ j
    /\ k = Z.min (52 + j) 1074
    /\ truediv a b = Ok (mkfloat (round_half_even (a * 2 ^ k) b) (- k)).
Proof.
  intros Hab. destruct (quot_log2_below_one a b Hab) as (j & Hq & Hj & Hbound).
  exists j, (Z.min (52 + j) 1074). split; [exact Hj|]. split; [exact Hbound|].
  split; [reflexivity|].
  unfold truediv.
  replace (b =? 0) with false by (symmetry; apply Z.eqb_neq; lia).
  replace (a =? 0) with false by (symmetry; apply Z.eqb_neq; lia).
  rewrite (Z.abs_eq a), (Z.abs_eq b) by lia.
  unfold truediv_pos. rewrite Hq.
  remember (Z.max (- j - 52) (- 1074)) as e eqn:Ee.
  assert (He : e = - Z.min (52 + j) 1074) by lia.
  assert (He' : - 1074 <= e <= - 53) by lia.
  replace ((971 <? e) || ((e =? 971) && _)) with false.
  2:{ symmetry. apply orb_false_iff. split; [apply Z.ltb_ge; lia|].
      apply andb_false_iff. left. apply Z.eqb_neq. lia. }
  cbn [rbind mant expo].
  rewrite (Z.sgn_pos a), (Z.sgn_pos b) by lia.
  rewrite (Z.max_r 0 (- e)), (Z.max_l 0 e) by lia.
  change (2 ^ 0) with 1. rewrite !Z.mul_1_r, !Z.mul_1_l.
  rewrite He. now rewrite Z.opp_involutive.
Qed.

Lemma float_leb_same_expo (m m' e : Z) :
  m <= m' -> float_leb (mkfloat m e) (mkfloat m' e) = true.
Proof.
  intros H. unfold float_leb. cbn [mant expo]. rewrite Z.min_id, Z.sub_diag.
  change (2 ^ 0) with 1. apply Z.leb_le. lia.
Qed.

(** True division by [b] does not decrease when the numerator grows, below
    one. *)
Lemma truediv_mono (a a' b : Z) (f g : pyfloat) :
  0 <= a <= a' -> a' < b ->
  truediv a b = Ok f -> truediv a' b = Ok g -> float_leb f g = true.
Proof.
  intros [Ha Haa'] Hb Hf Hg.
  destruct (Z.eq_dec a' 0) as [->|Ha'0].
  { assert (a = 0) as -> by lia. rewrite Hf in Hg. injection Hg as <-.
    unfold float_leb. apply Z.leb_le. lia. }
  destruct (truediv_below_one a' b ltac:(lia)) as (j' & k' & Hj' & Hb' & Hk' & Hg').
  rewrite Hg in Hg'. injection Hg' as ->.
  pose proof (pow2_pos k' ltac:(lia)) as Hpk'.
  assert (Hm'0 : 0 <= round_half_even (a' * 2 ^ k') b).
  { apply round_half_even_ge; nia. }
  destruct (Z.eq_dec a 0) as [->|Ha0].
  { unfold truediv in Hf.
    replace (b =? 0) with false in Hf by (symmetry; apply Z.eqb_neq; lia).
    cbn in Hf. injection Hf as <-.
    unfold float_leb. cbn [mant expo]. apply Z.leb_le.
    rewrite Z.mul_0_l. apply Z.mul_nonneg_nonneg; [exact Hm'0|].
    apply Z.pow_nonneg. lia. }
  destruct (truediv_below_one a b ltac:(lia)) as (j & k & Hj & Hbj & Hk & Hf').
  rewrite Hf in Hf'. injection Hf' as ->.
  pose proof (pow2_pos k ltac:(lia)) as Hpk.
  assert (Hjj : j' <= j).
  { destruct (Z_le_gt_dec j' j) as [?|Hgt]; [assumption|exfalso].
    assert (Hpow : 2 ^ (j' - 1) = 2 ^ j * 2 ^ (j' - 1 - j)).
    { rewrite <- Z.pow_add_r by lia. f_equal. lia. }
    pose proof (pow2_pos (j' - 1 - j) ltac:(lia)).
    pose proof (pow2_pos j ltac:(lia)). nia. }
  assert (Hkk : k' <= k) by lia.
  destruct (Z.eq_dec k' k) as [Ek|Ek].
  - subst k'. rewrite Ek. apply float_leb_same_expo.
    apply round_half_even_mono; [lia|]. rewrite <- Ek. nia.
  - (* the larger quotient has a smaller exponent shift: it is normal *)
    assert (Hk'n : k' = 52 + j') by lia.
    assert (Hm' : 2 ^ 52 <= round_half_even (a' * 2 ^ k') b).
    { apply round_half_even_ge; [lia|]. rewrite Hk'n.
      rewrite Z.pow_add_r by lia. nia. }
    assert (Hm : round_half_even (a * 2 ^ k) b <= 2 ^ 53).
    { apply round_half_even_le; [lia|].
      assert (Hkj : k <= 52 + j) by lia.
      assert (Hpow : 2 ^ (52 + j) = 2 ^ k * 2 ^ (52 + j - k)).
      { rewrite <- Z.pow_add_r by lia. f_equal. lia. }
      assert (Hpow2 : 2 ^ (52 + j) = 2 ^ 53 * 2 ^ (j - 1)).
      { rewrite <- Z.pow_add_r by lia. f_equal. lia. }
      pose proof (pow2_pos (52 + j - k) ltac:(lia)).
      pose proof (pow2_pos (j - 1) ltac:(lia)).
      assert (a * 2 ^ k <= a * 2 ^ (52 + j)) by nia.
      nia. }
    unfold float_leb. cbn [mant expo].
    rewrite (Z.min_l (- k) (- k')) by lia. rewrite Z.sub_diag.
    change (2 ^ 0) with 1. apply Z.leb_le.
    replace (- k' - - k) with (k - k') by lia.
    assert (Hstep : 2 <= 2 ^ (k - k')).
    { change 2 with (2 ^ 1) at 1. apply Z.pow_le_mono_r; lia. }
    change (2 ^ 53) with (2 * 2 ^ 52) in Hm.
    nia.
Qed.

Lemma truediv_below_one_ok (a b : Z) :
  0 <= a < b -> exists f, truediv a b = Ok f.
Proof.
  intros Hab. destruct (Z.eq_dec a 0) as [->|Ha].
  - exists (mkfloat 0 0). unfold truediv.
    replace (b =? 0) with false by (symmetry; apply Z.eqb_neq; lia).
    reflexivity.
  - destruct (truediv_below_one a b ltac:(lia)) as (j & k & _ & _ & _ & H).
    eauto.
Qed.

Lemma page_count_ceiling (n : Z) :
  0 <= n <= 50 * 2 ^ 48 ->
  exists pages,
    page_count (PyInt n) = Ok pages /\ 50 * (pages - 1) < n <= 50 * pages.
Proof.
  intros Hn. destruct (truediv_50_ceil n Hn) as (f & Hf & Hceil).
  exists ((n + 49) / 50). unfold page_count. cbn [as_int rbind].
  rewrite Hf. cbn [rbind]. rewrite Hceil. split; [reflexivity|].
  pose proof (Z.div_mod (n + 49) 50 ltac:(lia)).
  pose proof (Z.mod_pos_bound (n + 49) 50 ltac:(lia)). lia.
Qed.

(** *** getSnatched *)

(** One turn of [readPage]: the request is sent, then the body is scraped. *)
Lemma readPage_unfold
      (net : trace -> string -> list (string * pyval) -> Response)
      (torrents : string) (uid : pyval) (u : string) (page : Z)
      (s : self) (tr : trace) :
  str uid = Ok u ->
  readPage net torrents uid page s tr
  = match scrape (content (net tr (torrents ++ "?type=seeding&page="
                                     ++ str_of_Z (page + 1) ++ "&userid=" ++ u) []))
    with
    | Ok found =>
        (Ok (mkSelf (config s) (authkey s) (userid s) (snatches s ++ found)%list
                    (torrentdata s)),
         (tr ++ [page_request torrents u page])%list)
    | Raise e => (Raise e, (tr ++ [page_request torrents u page])%list)
    | Unmodelled => (Unmodelled, (tr ++ [page_request torrents u page])%list)
    end.
Proof.
  intros Hu. unfold readPage. rewrite bind_lift, Hu.
  unfold bind at 1. unfold session_get at 1. rewrite bind_lift.
  unfold page_request. destruct (scrape _); reflexivity.
Qed.

(** The loop over the pages: the pages are requested in order; the loop
    ends with the first page that cannot be scraped, and goes through when
    there is none. *)
Lemma readPages_outcome
      (net : trace -> string -> list (string * pyval) -> Response)
      (torrents : string) (uid : pyval) (u : string) (pages : list Z)
      (s : self) (tr : trace) :
  str uid = Ok u ->
  match readPages net torrents uid pages s tr with
  | (Ok s', tr') =>
      tr' = (tr ++ map (page_request torrents u) pages)%list
      /\ exists found,
           Forall2 (fun body records => scrape body = Ok records)
                   (page_bodies net torrents u tr pages) found
           /\ s' = mkSelf (config s) (authkey s) (userid s)
                          (snatches s ++ List.concat found)%list (torrentdata s)
  | (_, tr') =>
      exists done rest,
        pages = (done ++ rest)%list /\ done <> []
        /\ tr' = (tr ++ map (page_request torrents u) done)%list
  end.
Proof.
  intros Hu. revert s tr.
  induction pages as [|page pages IH]; intros s tr.
  - cbn [readPages ret map]. rewrite app_nil_r. split; [reflexivity|].
    exists []. split; [constructor|]. cbn [List.concat]. rewrite app_nil_r.
    destruct s; reflexivity.
  - cbn [readPages]. unfold bind at 1.
    rewrite (readPage_unfold net torrents uid u page s tr Hu).
    cbn [page_bodies].
    destruct (scrape _) as [found| |] eqn:Hscrape.
    + match goal with
      | |- context [readPages _ _ _ _ ?s1 ?tr1] =>
          specialize (IH s1 tr1); destruct (readPages net torrents uid pages s1 tr1)
            as [[s'| |] tr']
      end.
      * destruct IH as (-> & founds & Hall & ->).
        cbn [config authkey userid snatches torrentdata map].
        rewrite <- app_assoc. split; [reflexivity|].
        exists (found :: founds). split; [constructor; assumption|].
        cbn [List.concat]. now rewrite <- app_assoc.
      * destruct IH as (done & rest & -> & _ & ->).
        exists (page :: done), rest. cbn [map app]. rewrite <- app_assoc.
        repeat split. discriminate.
      * destruct IH as (done & rest & -> & _ & ->).
        exists (page :: done), rest. cbn [map app]. rewrite <- app_assoc.
        repeat split. discriminate.
    + exists [page], pages. repeat split. discriminate.
    + exists [page], pages. repeat split. discriminate.
Qed.

(** When every page can be scraped, the loop goes through. *)
Lemma readPages_readable
      (net : trace -> string -> list (string * pyval) -> Response)
      (torrents : string) (uid : pyval) (u : string) (pages : list Z)
      (s : self) (tr : trace) :
  str uid = Ok u ->
  (forall tr' target, exists records, scrape (content (net tr' target [])) = Ok records) ->
  exists s',
    readPages net torrents uid pages s tr
    = (Ok s', (tr ++ map (page_request torrents u) pages)%list).
Proof.
  intros Hu Hread. revert s tr.
  induction pages as [|page pages IH]; intros s tr.
  - exists s. cbn [readPages ret map]. now rewrite app_nil_r.
  - cbn [readPages]. unfold bind at 1.
    rewrite (readPage_unfold net torrents uid u page s tr Hu).
    match goal with
    | |- context [scrape (content (net ?t ?target []))] =>
        destruct (Hread t target) as [records ->]
    end.
    match goal with
    | |- context [readPages _ _ _ _ ?s1 ?tr1] =>
        destruct (IH s1 tr1) as (s' & ->)
    end.
    exists s'. cbn [map]. now rewrite <- app_assoc.
Qed.

Lemma length_range (n : Z) : List.length (range n) = Z.to_nat n.
Proof. unfold range. now rewrite length_map, length_seq. Qed.

(** [getSnatched] up to its loop. *)
Lemma getSnatched_unfold
      (net : trace -> string -> list (string * pyval) -> Response)
      (s : self) (base : string) (uid : pyval)
      (profile seeding : pyval) (pages : Z) (tr : trace) :
  getitem (config s) "url" = Ok (PyStr base) ->
  userid s = Some uid ->
  decode_response (net tr (base ++ "/ajax.php")
                       (ajax_params s "user" [("id", uid)])) = Ok profile ->
  getpath profile ["response"; "community"; "seeding"] = Ok seeding ->
  page_count seeding = Ok pages ->
  getSnatched net s tr
  = readPages net (base ++ "/torrents.php") uid (range pages) s
      (tr ++ [SessionGet (base ++ "/ajax.php") (ajax_params s "user" [("id", uid)])])%list.
Proof.
  intros Hurl Huid Hprofile Hseeding Hpages.
  unfold getSnatched. rewrite bind_lift, Hurl. cbn [add_str].
  rewrite bind_lift, bind_lift, Huid.
  unfold bind at 1. rewrite (ajaxrequest_unfold net s "user" _ base tr Hurl).
  rewrite Hprofile. rewrite bind_lift, Hseeding, bind_lift, Hpages. reflexivity.
Qed.

(** C4 fails on the code at the seeding count [50 * 2 ^ 48 + 1].  The code
    goes for the ceiling: up to [50 * 2 ^ 48] the page count is the ceiling
    of the count over 50, and a call that goes through has requested, after
    the profile, that many pages and no other, pages 1 to the page count in
    order; the call does go through when every page can be scraped.  But
    the division is a division of floats: at
    [50 * 2 ^ 48 + 1] the quotient rounds to [2 ^ 48], so the page count is
    one less than the ceiling and the last page is never requested. *)
Theorem getSnatched_stops_a_page_short :
  (forall n, 0 <= n <= 50 * 2 ^ 48 ->
             exists pages,
               page_count (PyInt n) = Ok pages /\ 50 * (pages - 1) < n <= 50 * pages)
  /\ (forall net s base uid u profile seeding pages tr s' tr',
         getitem (config s) "url" = Ok (PyStr base) ->
         userid s = Some uid -> str uid = Ok u ->
         decode_response (net tr (base ++ "/ajax.php")
                              (ajax_params s "user" [("id", uid)])) = Ok profile ->
         getpath profile ["response"; "community"; "seeding"] = Ok seeding ->
         page_count seeding = Ok pages ->
         getSnatched net s tr = (Ok s', tr') ->
         tr' = (tr ++ SessionGet (base ++ "/ajax.php")
                                 (ajax_params s "user" [("id", uid)])
                   :: map (page_request (base ++ "/torrents.php") u) (range pages))%list
         /\ List.length (map (page_request (base ++ "/torrents.php") u) (range pages))
            = Z.to_nat pages)
  /\ (forall net s base uid u profile seeding pages tr,
         getitem (config s) "url" = Ok (PyStr base) ->
         userid s = Some uid -> str uid = Ok u ->
         decode_response (net tr (base ++ "/ajax.php")
                              (ajax_params s "user" [("id", uid)])) = Ok profile ->
         getpath profile ["response"; "community"; "seeding"] = Ok seeding ->
         page_count seeding = Ok pages ->
         (forall tr' target,
             exists records, scrape (content (net tr' target [])) = Ok records) ->
         exists s',
           getSnatched net s tr
           = (Ok s',
              (tr ++ SessionGet (base ++ "/ajax.php")
                                (ajax_params s "user" [("id", uid)])
                  :: map (page_request (base ++ "/torrents.php") u)
                         (range pages))%list))
  /\ page_count (PyInt 14073748835532801) = Ok 281474976710656
  /\ 50 * 281474976710656 < 14073748835532801
  /\ exists s',
       getSnatched (seeding 14073748835532801) logged_in []
       = (Ok s',
          SessionGet "https://tracker.example/ajax.php"
                     [("action", PyStr "user"); ("id", PyInt 7);
                      ("auth", PyStr "0123456789abcdef")]
          :: map (page_request "https://tracker.example/torrents.php" "7")
                 (range 281474976710656)).
Proof.
  split; [exact page_count_ceiling|]. split; [|split; [|split; [|split]]].
  - intros net s base uid u profile seeding pages tr s' tr'
           Hurl Huid Hu Hprofile Hseeding Hpages Hrun.
    rewrite (getSnatched_unfold net s base uid profile seeding pages tr
               Hurl Huid Hprofile Hseeding Hpages) in Hrun.
    pose proof (readPages_outcome net (base ++ "/torrents.php") uid u (range pages) s
                  (tr ++ [SessionGet (base ++ "/ajax.php")
                            (ajax_params s "user" [("id", uid)])])%list Hu) as Hout.
    rewrite Hrun in Hout. destruct Hout as (-> & _).
    rewrite <- app_assoc. split; [reflexivity|].
    now rewrite length_map, length_range.
  - intros net s base uid u profile seeding pages tr
           Hurl Huid Hu Hprofile Hseeding Hpages Hread.
    rewrite (getSnatched_unfold net s base uid profile seeding pages tr
               Hurl Huid Hprofile Hseeding Hpages).
    destruct (readPages_readable net (base ++ "/torrents.php") uid u (range pages) s
                (tr ++ [SessionGet (base ++ "/ajax.php")
                          (ajax_params s "user" [("id", uid)])])%list Hu Hread)
      as (s' & ->).
    exists s'. now rewrite <- app_assoc.
  - vm_compute. reflexivity.
  - lia.
  - assert (Hpages : page_count (PyInt 14073748835532801) = Ok 281474976710656)
      by (vm_compute; reflexivity).
    rewrite (getSnatched_unfold (seeding 14073748835532801) logged_in
               "https://tracker.example" (PyInt 7)
               (PyDict [("status", PyStr "success");
                        ("response",
                         PyDict [("community",
                                  PyDict [("seeding", PyInt 14073748835532801)])])])
               (PyInt 14073748835532801) 281474976710656 []
               eq_refl eq_refl eq_refl eq_refl Hpages).
    apply (readPages_readable (seeding 14073748835532801)
             ("https://tracker.example" ++ "/torrents.php") (PyInt 7) "7").
    + reflexivity.
    + intros tr' target. exists []. reflexivity.
Qed.

(** For 51 seeded torrents: the profile request, then pages 1 and 2. *)
Example getSnatched_51 :
  snd (getSnatched (seeding 51) logged_in [])
  = [SessionGet "https://tracker.example/ajax.php"
                [("action", PyStr "user"); ("id", PyInt 7);
                 ("auth", PyStr "0123456789abcdef")];
     SessionGet "https://tracker.example/torrents.php?type=seeding&page=1&userid=7" [];
     SessionGet "https://tracker.example/torrents.php?type=seeding&page=2&userid=7" []].
Proof. vm_compute. reflexivity. Qed.

(** *** The progress bar *)

Lemma snatch_eqb_eq (a b : Z * Z) : snatch_eqb a b = true <-> a = b.
Proof.
  destruct a as [a1 a2], b as [b1 b2]. unfold snatch_eqb. cbn [fst snd].
  rewrite andb_true_iff, !Z.eqb_eq. split; [intros [-> ->]; reflexivity|].
  intros [= -> ->]. split; reflexivity.
Qed.

Lemma index_of_fresh (x : Z * Z) (done rest : list (Z * Z)) :
  ~ In x done ->
  index_of snatch_eqb x (done ++ x :: rest)%list
  = Ok (Z.of_nat (List.length done)).
Proof.
  induction done as [|y done IH]; intros Hnin; cbn [app index_of List.length].
  - now rewrite (proj2 (snatch_eqb_eq x x) eq_refl).
  - destruct (snatch_eqb y x) eqn:E.
    + apply snatch_eqb_eq in E. subst y. elim Hnin. now left.
    + rewrite IH by (intros H; apply Hnin; now right).
      cbn [rbind]. f_equal. lia.
Qed.

Lemma progress_values_app (a b : trace) :
  progress_values (a ++ b)%list = (progress_values a ++ progress_values b)%list.
Proof.
  induction a as [|ev a IH]; [reflexivity|].
  destruct ev; cbn [app progress_values]; now rewrite IH.
Qed.

Lemma ajaxrequest_progress
      (net : trace -> string -> list (string * pyval) -> Response)
      (s : self) (action : string) (kwargs : list (string * pyval)) (tr : trace) :
  progress_values (snd (ajaxrequest net s action kwargs tr)) = progress_values tr.
Proof.
  unfold ajaxrequest. rewrite bind_lift.
  destruct (getitem (config s) "url") as [base| |]; try reflexivity.
  rewrite bind_lift.
  destruct (add_str base "/ajax.php") as [ajax| |]; try reflexivity.
  unfold bind, session_get, lift. cbn [snd].
  rewrite progress_values_app. cbn [progress_values]. apply app_nil_r.
Qed.

Lemma scanTorrent_progress
      (net : trace -> string -> list (string * pyval) -> Response)
      (all : list (Z * Z)) (id : Z * Z) (s : self) (tr : trace)
      (i : Z) (f : pyfloat) :
  index_of snatch_eqb id all = Ok i ->
  truediv i (Z.of_nat (List.length all)) = Ok f ->
  progress_values (snd (scanTorrent net all id s tr))
  = (progress_values tr ++ [f])%list.
Proof.
  intros Hi Hf. unfold scanTorrent. rewrite bind_lift, Hi, bind_lift, Hf.
  unfold bind at 1. unfold printProgressBar, emit.
  unfold bind at 1.
  pose proof (ajaxrequest_progress net s "torrent" [("id", PyInt (snd id))]
                (tr ++ [ProgressBar f 40 (negb (i mod 2 =? 0))])%list) as Hp.
  destruct (ajaxrequest net s "torrent" [("id", PyInt (snd id))]
              (tr ++ [ProgressBar f 40 (negb (i mod 2 =? 0))])%list)
    as [[answer| |] tr1]; cbn [snd] in *;
    rewrite ?bind_lift;
    try (destruct (getitem answer "response"); cbn [ret snd]);
    rewrite Hp, progress_values_app; reflexivity.
Qed.

Lemma fractions_nondecreasing (n i : Z) (fs : list pyfloat) :
  fractions n i fs -> nondecreasing fs = true.
Proof.
  induction 1 as [|i f fs Hi Hf Hfs IH]; [reflexivity|].
  destruct fs as [|g fs]; [reflexivity|].
  cbn [nondecreasing] in *. rewrite IH, andb_true_r.
  inversion Hfs; subst.
  apply (truediv_mono i (i + 1) n); try assumption; lia.
Qed.

Lemma scanLoop_progress
      (net : trace -> string -> list (string * pyval) -> Response)
      (ids done : list (Z * Z)) (s : self) (tr : trace) :
  NoDup (done ++ ids)%list ->
  exists fs,
    progress_values (snd (scanLoop net (done ++ ids)%list ids s tr))
    = (progress_values tr ++ fs)%list
    /\ fractions (Z.of_nat (List.length (done ++ ids)%list))
                 (Z.of_nat (List.length done)) fs.
Proof.
  revert done s tr. induction ids as [|id ids IH]; intros done s tr Hnd.
  - exists []. split; [cbn; now rewrite app_nil_r | constructor].
  - assert (Hfresh : ~ In id done).
    { intros Hin. apply NoDup_remove_2 in Hnd. apply Hnd.
      apply in_or_app. now left. }
    assert (Hpos : 0 <= Z.of_nat (List.length done)
                   < Z.of_nat (List.length (done ++ id :: ids)%list)).
    { rewrite length_app. cbn [List.length]. lia. }
    destruct (truediv_below_one_ok _ _ Hpos) as [f Hf].
    pose proof (scanTorrent_progress net (done ++ id :: ids)%list id s tr _ f
                  (index_of_fresh id done ids Hfresh) Hf) as Hstep.
    cbn [scanLoop]. unfold bind at 1.
    destruct (scanTorrent net (done ++ id :: ids)%list id s tr) as [[s'| |] tr1];
      cbn [snd] in Hstep.
    + replace (done ++ id :: ids)%list with ((done ++ [id]) ++ ids)%list in *
        by (now rewrite <- app_assoc).
      destruct (IH (done ++ [id])%list s' tr1 Hnd) as (fs & Hfs & Hfr).
      exists (f :: fs). rewrite Hfs, Hstep, <- app_assoc. split; [reflexivity|].
      constructor; [| exact Hf |].
      * rewrite !length_app in *. cbn [List.length] in *. lia.
      * replace (Z.of_nat (List.length done) + 1)
          with (Z.of_nat (List.length (done ++ [id])%list))
          by (rewrite length_app; cbn [List.length]; lia).
        exact Hfr.
    + exists [f]. cbn [snd]. split; [exact Hstep|].
      constructor; [lia | exact Hf | constructor].
    + exists [f]. cbn [snd]. split; [exact Hstep|].
      constructor; [lia | exact Hf | constructor].
Qed.

(** Without a repeated record the fractions never go down, whatever the
    tracker answers. *)
Theorem progress_nondecreasing_without_duplicates
        (net : trace -> string -> list (string * pyval) -> Response) (s : self) :
  NoDup (snatches s) ->
  nondecreasing (progress_values (snd (scanTorrents net s []))) = true.
Proof.
  intros Hnd. unfold scanTorrents.
  destruct (scanLoop_progress net (snatches s) [] s [] Hnd) as (fs & Hfs & Hfr).
  cbn [app] in Hfs. rewrite Hfs. cbn [progress_values app].
  exact (fractions_nondecreasing _ _ _ Hfr).
Qed.

Lemma progress_nondecreasing_without_duplicates_witness :
  nondecreasing
    (progress_values
       (snd (scanTorrents always_success
               (mkSelf scenario_config PyNone (Some (PyInt 7))
                       [(1, 10); (2, 20); (3, 30)] []) [])))
  = true.
Proof.
  apply (progress_nondecreasing_without_duplicates
           always_success
           (mkSelf scenario_config PyNone (Some (PyInt 7))
                   [(1, 10); (2, 20); (3, 30)] [])).
  cbn [snatches]. repeat constructor; simpl; intuition discriminate.
Defined.

(** C9 fails on the code for a snatch list with a repeated record: the
    position is looked up with [index], which finds the first occurrence, so
    the third turn reports the fraction of the first again. *)
Theorem progress_falls_back_on_duplicates :
  progress_values
    (snd (scanTorrents always_success
            (mkSelf scenario_config PyNone (Some (PyInt 7))
                    [(1, 10); (2, 20); (1, 10)] []) []))
  = [mkfloat 0 0; mkfloat 6004799503160661 (- 54); mkfloat 0 0]
  /\ float_ltb (mkfloat 0 0) (mkfloat 6004799503160661 (- 54)) = true
  /\ nondecreasing
       (progress_values
          (snd (scanTorrents always_success
                  (mkSelf scenario_config PyNone (Some (PyInt 7))
                          [(1, 10); (2, 20); (1, 10)] []) [])))
     = false.
Proof. vm_compute. repeat split. Qed.


(** *** Scraping a page *)

Lemma link_text_length (l : link) :
  String.length (link_text l)
  = (8 + 1 + 7 + String.length (groupid l) + 15 + String.length (torrentid l))%nat.
Proof.
  unfold link_text. cbn [String.append String.length].
  rewrite string_app_length. cbn [String.append String.length].
  repeat f_equal. lia.
Qed.

Lemma match_link_here (l : link) (rest : string) :
  link_ok l -> starts_in is_digit rest = false ->
  match_link (link_text l ++ rest)
  = Some ((groupid l, torrentid l), String.length (link_text l)).
Proof.
  intros (Hdot & Hg & Hgd & Ht & Htd) Hrest.
  rewrite link_text_length. unfold match_link, link_text.
  rewrite string_app_assoc, strip_prefix_app.
  cbn [String.append]. apply Ascii.eqb_neq in Hdot. rewrite Hdot.
  change (String "p" (String "h" (String "p" (String "?" (String "i"
            (String "d" (String "=" ?x)))))))
    with ("php?id=" ++ x)%string.
  rewrite strip_prefix_app, string_app_assoc.
  rewrite (span_app is_digit (groupid l) _ Hgd) by reflexivity.
  destruct (groupid l) as [|g0 g] eqn:Eg; [contradiction|].
  cbn [String.append strip_prefix Ascii.eqb Bool.eqb].
  rewrite (span_app is_digit (torrentid l) rest Htd Hrest). cbn [fst].
  destruct (torrentid l); [contradiction | reflexivity].
Qed.

Lemma all_chars_app (f : ascii -> bool) (a b : string) :
  all_chars f (a ++ b) = all_chars f a && all_chars f b.
Proof.
  induction a as [|c a IH]; cbn [String.append all_chars]; [reflexivity|].
  now rewrite IH, andb_assoc.
Qed.

Lemma link_text_app (d : ascii) (g t a rest : string) :
  (link_text (mkLink d g t) ++ a ++ rest
   = link_text (mkLink d g (t ++ a)) ++ rest)%string.
Proof.
  unfold link_text. cbn [dot groupid torrentid].
  repeat (progress (rewrite ?string_app_assoc; cbn [String.append])).
  reflexivity.
Qed.

(** What a match of the pattern is. *)
Lemma match_link_inv (s g t : string) (n : nat) :
  match_link s = Some ((g, t), n) ->
  exists d rest,
    s = (link_text (mkLink d g t) ++ rest)%string
    /\ link_ok (mkLink d g t)
    /\ starts_in is_digit rest = false
    /\ n = String.length (link_text (mkLink d g t)).
Proof.
  unfold match_link.
  destruct (strip_prefix "torrents" s) as [[|d s1]|] eqn:E0; try discriminate.
  destruct (Ascii.eqb d "010") eqn:Ed; [discriminate|].
  destruct (strip_prefix "php?id=" s1) as [s2|] eqn:E1; [|discriminate].
  destruct (span is_digit s2) as [g' s3] eqn:E2.
  destruct g' as [|g0 g']; [discriminate|].
  destruct (strip_prefix "&amp;torrentid=" s3) as [s4|] eqn:E3; [|discriminate].
  destruct (span is_digit s4) as [t' rest] eqn:E4. cbn [fst].
  destruct t' as [|t0 t']; [discriminate|].
  intros [= <- <- <-].
  apply strip_prefix_spec in E0, E1, E3.
  apply span_spec in E2, E4.
  destruct E2 as (E2 & Hg & _). destruct E4 as (E4 & Ht & Hrest).
  exists d, rest. split; [|split; [|split]].
  - subst s s1 s2 s3 s4. unfold link_text. cbn [dot groupid torrentid].
    repeat (progress (rewrite ?string_app_assoc; cbn [String.append])).
    reflexivity.
  - repeat split; cbn [dot groupid torrentid]; try assumption; try discriminate.
    now apply Ascii.eqb_neq.
  - exact Hrest.
  - rewrite link_text_length. reflexivity.
Qed.

(** Where a link starts, the pattern matches. *)
Lemma match_link_complete (s : string) : starts_link s -> match_link s <> None.
Proof.
  intros (l & rest & (Hdot & Hg & Hgd & Ht & Htd) & ->).
  destruct (span is_digit rest) as [a b] eqn:E.
  apply span_spec in E. destruct E as (-> & Ha & Hb).
  destruct l as [d g t]. cbn [dot groupid torrentid] in *.
  rewrite link_text_app.
  rewrite (match_link_here (mkLink d g (t ++ a)) b); [discriminate | | exact Hb].
  repeat split; cbn [dot groupid torrentid]; try assumption.
  - destruct t; [contradiction | discriminate].
  - now rewrite all_chars_app, Htd, Ha.
Qed.

Lemma quiet_no_link (gap rest : string) :
  no_link_starts gap rest -> quiet match_link gap rest.
Proof.
  induction gap as [|c gap IH]; intros H; [exact I|].
  destruct H as [Hn H]. split; [|now apply IH].
  destruct (match_link (String c gap ++ rest)) as [[[g t] n]|] eqn:E; [|reflexivity].
  exfalso. apply Hn. apply match_link_inv in E.
  destruct E as (d & rest' & Hs & Hok & _). now exists (mkLink d g t), rest'.
Qed.

Lemma link_text_cons (l : link) : exists m, link_text l = String "t" m.
Proof. unfold link_text. cbn [String.append]. eauto. Qed.

(** The scan finds the links of a reading, and no other. *)
Lemma reads_sound (text : string) (links : list link) :
  reads text links ->
  re_findall match_link text = map (fun l => (groupid l, torrentid l)) links.
Proof.
  unfold re_findall.
  induction 1 as [gap Hq | gap l rest links Hq Hok Hrest _ IH].
  - rewrite <- (string_app_nil_r gap).
    rewrite (scan_quiet match_link gap "" (quiet_no_link _ _ Hq)).
    now rewrite matches_app, matches_unmatched.
  - rewrite (scan_quiet match_link gap _ (quiet_no_link _ _ Hq)).
    rewrite matches_app, matches_unmatched. cbn [app map].
    pose proof (match_link_here l rest Hok Hrest) as Hm.
    destruct (link_text_cons l) as [m Hl]. rewrite Hl in *.
    cbn [String.length] in Hm.
    rewrite (scan_matched match_link "t" m rest _ Hm). cbn [matches].
    now rewrite IH.
Qed.

Lemma drop_app (a rest : string) : drop (String.length a) (a ++ rest) = rest.
Proof. induction a as [|c a IH]; [reflexivity | exact IH]. Qed.

Lemma reads_skip (c : ascii) (s : string) (links : list link) :
  ~ starts_link (String c s) -> reads s links -> reads (String c s) links.
Proof.
  intros Hn Hr. destruct Hr as [gap Hq | gap l rest links Hq Hok Hrest Hr].
  - apply reads_end. cbn [no_link_starts String.append].
    rewrite string_app_nil_r. now split.
  - change (String c (gap ++ link_text l ++ rest))
      with (String c gap ++ link_text l ++ rest)%string.
    apply reads_link; try assumption. now split.
Qed.

(** Every text has a reading, and the scan follows it. *)
Lemma reads_scan (s : string) (k : nat) :
  exists links,
    reads (drop k s) links
    /\ matches (scan match_link k s) = map (fun l => (groupid l, torrentid l)) links.
Proof.
  revert k. induction s as [|c s IH]; intros k.
  - exists []. destruct k; (split; [apply reads_end; exact I | reflexivity]).
  - destruct k as [|k]; [|exact (IH k)].
    cbn [drop scan].
    destruct (match_link (String c s)) as [[[g t] n]|] eqn:E.
    + destruct (match_link_inv _ _ _ _ E) as (d & rest & Hs & Hok & Hrest & Hn).
      destruct (link_text_cons (mkLink d g t)) as [m Hl].
      rewrite Hl in Hs, Hn. cbn [String.append String.length] in Hs, Hn.
      injection Hs as -> ->. subst n. cbn [Nat.pred].
      destruct (IH (String.length m)) as (links & Hr & Hm).
      rewrite drop_app in Hr.
      exists (mkLink d g t :: links). split.
      * change (String "t" (m ++ rest)) with (String "t" m ++ rest)%string.
        rewrite <- Hl.
        exact (reads_link "" (mkLink d g t) rest links I Hok Hrest Hr).
      * cbn [matches map groupid torrentid]. now rewrite Hm.
    + destruct (IH 0%nat) as (links & Hr & Hm). cbn [drop] in Hr.
      exists links. split; [|exact Hm].
      apply reads_skip; [|exact Hr].
      intros Hstart. now apply match_link_complete in Hstart.
Qed.

Lemma within_cap_dec (l : link) : {within_cap l} + {~ within_cap l}.
Proof.
  unfold within_cap.
  destruct (le_dec (String.length (groupid l)) 4300);
    destruct (le_dec (String.length (torrentid l)) 4300); tauto.
Qed.

Lemma int_of_digits_cap (s : string) :
  (String.length s <= 4300)%nat -> int_of_digits s = Ok (digits_value s).
Proof.
  intros H. unfold int_of_digits.
  replace (4300 <? String.length s)%nat with false
    by (symmetry; apply Nat.ltb_ge; exact H).
  reflexivity.
Qed.

Lemma int_of_digits_over (s : string) :
  ~ (String.length s <= 4300)%nat -> int_of_digits s = Raise ValueError.
Proof.
  intros H. unfold int_of_digits.
  replace (4300 <? String.length s)%nat with true
    by (symmetry; apply Nat.ltb_lt; lia).
  reflexivity.
Qed.

(** The ints of the matches: all of them, or [ValueError] at the first id
    that is too long. *)
Lemma records_of_links (links : list link) :
  mapM (fun x => groupid <- int_of_digits (fst x) ;;
                 torrentid <- int_of_digits (snd x) ;;
                 Ok (groupid, torrentid))
       (map (fun l => (groupid l, torrentid l)) links)
  = if Forall_dec within_cap within_cap_dec links
    then Ok (map record_of links) else Raise ValueError.
Proof.
  induction links as [|l links IH]; cbn [map mapM fst snd].
  - destruct (Forall_dec within_cap within_cap_dec []) as [_|Hn];
      [reflexivity | elim Hn; constructor].
  - destruct (within_cap_dec l) as [[Hg Ht]|Hl].
    + rewrite (int_of_digits_cap _ Hg), (int_of_digits_cap _ Ht). cbn [rbind].
      rewrite IH.
      destruct (Forall_dec within_cap within_cap_dec links) as [Hall|Hall];
        destruct (Forall_dec within_cap within_cap_dec (l :: links)) as [Hall'|Hall'];
        try reflexivity.
      * elim Hall'. constructor; [now split | exact Hall].
      * elim Hall. now inversion Hall'.
    + destruct (Forall_dec within_cap within_cap_dec (l :: links)) as [Hall'|_];
        [elim Hl; now inversion Hall'|].
      destruct (le_dec (String.length (groupid l)) 4300) as [Hg|Hg].
      * rewrite (int_of_digits_cap _ Hg). cbn [rbind].
        rewrite int_of_digits_over; [reflexivity|].
        intros Ht. apply Hl. now split.
      * now rewrite (int_of_digits_over _ Hg).
Qed.

(** C5, as the code has it. The pattern of the code wants "&amp;" between
    the ids and takes any character but a newline for its dot.  Every text
    has a reading into links, and the scan finds the links of the reading:
    one match per link, in their order, a link that comes twice found
    twice.  A body that decodes to the text yields the pairs of ints of
    these links, as long as no id has more than 4300 digits; when one has,
    [int] raises [ValueError].  [readPage] appends what the scraping yields
    to the snatches; when the scraping raises, so does [readPage], after its
    request. *)
Theorem readPage_collects_every_link :
  (forall text, exists links, reads text links)
  /\ (forall text links,
         reads text links ->
         re_findall match_link text = map (fun l => (groupid l, torrentid l)) links
         /\ List.length (re_findall match_link text) = List.length links)
  /\ (forall body text links,
         bytes_decode body = Ok text -> reads text links ->
         (Forall within_cap links -> scrape body = Ok (map record_of links))
         /\ (~ Forall within_cap links -> scrape body = Raise ValueError))
  /\ (forall net torrents uid u page s tr,
         str uid = Ok u ->
         (forall records,
             scrape (content (net tr (torrents ++ "?type=seeding&page="
                                        ++ str_of_Z (page + 1) ++ "&userid=" ++ u) []))
             = Ok records ->
             readPage net torrents uid page s tr
             = (Ok (mkSelf (config s) (authkey s) (userid s)
                           (snatches s ++ records)%list (torrentdata s)),
                (tr ++ [page_request torrents u page])%list))
         /\ (forall e,
                scrape (content (net tr (torrents ++ "?type=seeding&page="
                                           ++ str_of_Z (page + 1) ++ "&userid=" ++ u)
                                     []))
                = Raise e ->
                readPage net torrents uid page s tr
                = (Raise e, (tr ++ [page_request torrents u page])%list))).
Proof.
  split; [|split; [|split]].
  - intros text. destruct (reads_scan text 0) as (links & Hr & _).
    now exists links.
  - intros text links Hr. rewrite (reads_sound text links Hr).
    split; [reflexivity | apply length_map].
  - intros body text links Hd Hr. unfold scrape. rewrite Hd. cbn [rbind].
    rewrite (reads_sound text links Hr), records_of_links.
    destruct (Forall_dec within_cap within_cap_dec links); split; tauto.
  - intros net torrents uid u page s tr Hu. split.
    + intros records Hs. rewrite (readPage_unfold net torrents uid u page s tr Hu).
      now rewrite Hs.
    + intros e Hs. rewrite (readPage_unfold net torrents uid u page s tr Hu).
      now rewrite Hs.
Qed.

Lemma match_link_none (s : string) : match_link s = None -> ~ starts_link s.
Proof. intros H Hs. now apply match_link_complete in Hs. Qed.

(** The reading of the sample page: the download links are passed over. *)
Example listing_page_reads :
  reads listing_page [mkLink "." "12" "34"; mkLink "." "56" "78"; mkLink "." "12" "34"].
Proof.
  unfold listing_page.
  repeat (apply reads_link;
          [ cbn [no_link_starts];
            repeat (split; [apply match_link_none; vm_compute; reflexivity|]);
            exact I
          | repeat split; discriminate
          | reflexivity
          | ]).
  change ("'>A</a>") with ("'>A</a>" ++ "")%string.
  apply reads_end. cbn [no_link_starts].
  repeat (split; [apply match_link_none; vm_compute; reflexivity|]). exact I.
Qed.

Lemma readPage_collects_every_link_witness :
  scrape listing_page = Ok [(12, 34); (56, 78); (12, 34)].
Proof.
  apply (proj1 (proj1 (proj2 (proj2 readPage_collects_every_link))
                  listing_page listing_page
                  [mkLink "." "12" "34"; mkLink "." "56" "78"; mkLink "." "12" "34"]
                  eq_refl listing_page_reads)).
  repeat constructor; cbn; lia.
Defined.

(** C5, as stated, fails: a link spelled with a bare "&", as the
    specification has it, yields no record, and [readPage] leaves the
    snatches as they were, while a link with "&amp;" and any character in
    place of the dot yields one; an id of 4301 digits makes the scraping
    raise [ValueError], and a body that is no UTF-8 makes it raise
    [UnicodeDecodeError]. *)
Lemma bare_ampersand_is_not_matched :
  scrape (spec_link_text "1" "2") = Ok []
  /\ (exists s' tr',
         readPage bare_link_page "https://tracker.example/torrents.php"
                  (PyInt 7) 0 logged_in [] = (Ok s', tr')
         /\ snatches s' = [])
  /\ scrape "torrentsXphp?id=1&amp;torrentid=2" = Ok [(1, 2)]
  /\ scrape ("torrents.php?id=1&amp;torrentid=" ++ long_id) = Raise ValueError
  /\ scrape (String "255" "") = Raise UnicodeDecodeError.
Proof.
  split; [reflexivity|]. split; [do 2 eexists; split; reflexivity|].
  split; [reflexivity|]. split; [vm_compute; reflexivity | reflexivity].
Qed.

(** ** Further properties of the methods *)

(** *** Dicts *)

Lemma dict_get_set_same (d : list (string * pyval)) (k : string) (v : pyval) :
  dict_get (dict_set String.eqb d k v) k = Some v.
Proof.
  induction d as [|[k' v'] d IH]; cbn [dict_set dict_get].
  - now rewrite String.eqb_refl.
  - destruct (String.eqb k' k) eqn:E; cbn [dict_get].
    + now rewrite String.eqb_refl.
    + now rewrite E.
Qed.

Lemma dict_get_set_other (d : list (string * pyval)) (k k' : string) (v : pyval) :
  k' <> k -> dict_get (dict_set String.eqb d k v) k' = dict_get d k'.
Proof.
  intros Hne. induction d as [|[k0 v0] d IH]; cbn [dict_set dict_get].
  - destruct (String.eqb_spec k k'); [congruence | reflexivity].
  - destruct (String.eqb_spec k0 k) as [->|Hk]; cbn [dict_get].
    + destruct (String.eqb_spec k k'); [congruence|].
      destruct (String.eqb_spec k k'); [congruence | reflexivity].
    + destruct (String.eqb_spec k0 k'); [reflexivity | exact IH].
Qed.

(** *** checkConfig returns False *)

Lemma existsb_id_false (l : list bool) :
  existsb (fun b => b) l = false <-> Forall (fun b => b = false) l.
Proof.
  induction l as [|b l IH]; cbn [existsb]; [split; [constructor | reflexivity]|].
  rewrite orb_false_iff, IH. split.
  - intros [-> H]. now constructor.
  - intros H. inversion H; subst. now split.
Qed.

(** X3. [checkConfig] returns [False] exactly for a dict that holds all six
    settings, one of them at least of the wrong type. *)
Theorem checkConfig_false_iff (cfg : pyval) :
  checkConfig cfg = Ok false
  <-> exists kvs, cfg = PyDict kvs /\ has_all_settings kvs /\ ~ typed_config cfg.
Proof.
  split.
  - intros H.
    assert (Hnt : ~ typed_config cfg).
    { intros Ht. apply checkConfig_typed in Ht. congruence. }
    unfold checkConfig in H.
    destruct cfg as [| b | z | s | xs | kvs].
    1-3: discriminate H.
    1-2: exfalso;
         match type of H with
         | rbind ?r _ = _ => destruct r as [[|] | |]; simpl in H; discriminate H
         end.
    exists kvs. split; [reflexivity|]. split; [|exact Hnt].
    rewrite all_present_dict in H. cbn [rbind] in H.
    destruct (forallb (dict_mem kvs) (map fst necessaryparams)) eqn:E;
      [|discriminate H].
    rewrite forallb_forall in E. intros name Hin.
    specialize (E name Hin). unfold dict_mem in E.
    destruct (dict_get kvs name); [discriminate | discriminate E].
  - intros (kvs & -> & Hall & Hnt).
    unfold has_all_settings in Hall.
    destruct (dict_get kvs "url") as [v1|] eqn:E1;
      [|exfalso; apply (Hall "url"); [simpl; tauto | exact E1]].
    destruct (dict_get kvs "username") as [v2|] eqn:E2;
      [|exfalso; apply (Hall "username"); [simpl; tauto | exact E2]].
    destruct (dict_get kvs "password") as [v3|] eqn:E3;
      [|exfalso; apply (Hall "password"); [simpl; tauto | exact E3]].
    destruct (dict_get kvs "torrentdir") as [v4|] eqn:E4;
      [|exfalso; apply (Hall "torrentdir"); [simpl; tauto | exact E4]].
    destruct (dict_get kvs "destdirs") as [v5|] eqn:E5;
      [|exfalso; apply (Hall "destdirs"); [simpl; tauto | exact E5]].
    destruct (dict_get kvs "pattern") as [v6|] eqn:E6;
      [|exfalso; apply (Hall "pattern"); [simpl; tauto | exact E6]].
    destruct (checkConfig (PyDict kvs)) as [[|]| |] eqn:Hc.
    + elim Hnt. now apply checkConfig_true.
    + reflexivity.
    + exfalso. unfold checkConfig in Hc. rewrite all_present_dict in Hc.
      simpl in Hc. unfold dict_mem in Hc.
      rewrite E1, E2, E3, E4, E5, E6 in Hc. simpl in Hc.
      destruct (_ || _) in Hc; discriminate Hc.
    + exfalso. unfold checkConfig in Hc. rewrite all_present_dict in Hc.
      simpl in Hc. unfold dict_mem in Hc.
      rewrite E1, E2, E3, E4, E5, E6 in Hc. simpl in Hc.
      destruct (_ || _) in Hc; discriminate Hc.
Qed.

(** A str where the dict of destinations should be. *)
Lemma checkConfig_false_iff_witness :
  checkConfig (PyDict [("url", PyStr "u"); ("username", PyStr "n");
                       ("password", PyStr "p"); ("torrentdir", PyStr "/t");
                       ("destdirs", PyStr "/dest"); ("pattern", PyDict [])])
  = Ok false.
Proof.
  apply (proj2 (checkConfig_false_iff _)).
  eexists. split; [reflexivity|]. split.
  - intros name Hin. simpl in Hin.
    repeat (destruct Hin as [<-|Hin]; [discriminate|]). contradiction.
  - intros (kvs & u & n & p & t & d & pat & Heq & _ & _ & _ & _ & Hd & _).
    injection Heq as <-. discriminate Hd.
Defined.

(** *** The parameters of an API request *)

Lemma dict_get_none (kvs : list (string * pyval)) (k : string) :
  dict_get kvs k = None <-> ~ In k (map fst kvs).
Proof.
  induction kvs as [|[k' v] kvs IH]; cbn [dict_get map fst In]; [tauto|].
  destruct (String.eqb_spec k' k) as [->|Hne].
  - split; [discriminate | tauto].
  - rewrite IH. tauto.
Qed.

Lemma update_get_other (kwargs d : list (string * pyval)) (k : string) :
  ~ In k (map fst kwargs) ->
  dict_get (fold_left (fun d kv => dict_set String.eqb d (fst kv) (snd kv)) kwargs d) k
  = dict_get d k.
Proof.
  revert d. induction kwargs as [|[k' v] kwargs IH]; intros d Hnin;
    cbn [fold_left fst snd]; [reflexivity|].
  cbn [map fst In] in Hnin.
  rewrite IH by tauto. apply dict_get_set_other. intros ->. tauto.
Qed.

Lemma update_get_in (kwargs d : list (string * pyval)) (k : string) (v : pyval) :
  NoDup (map fst kwargs) -> dict_get kwargs k = Some v ->
  dict_get (fold_left (fun d kv => dict_set String.eqb d (fst kv) (snd kv)) kwargs d) k
  = Some v.
Proof.
  revert d. induction kwargs as [|[k' v'] kwargs IH]; intros d Hnd Hget;
    cbn [fold_left fst snd]; [discriminate Hget|].
  cbn [map fst] in Hnd. inversion Hnd as [|? ? Hnin Hnd']; subst.
  cbn [dict_get] in Hget. destruct (String.eqb_spec k' k) as [->|Hne].
  - injection Hget as ->. rewrite update_get_other by exact Hnin.
    apply dict_get_set_same.
  - now apply IH.
Qed.

(** X4. An API call sends one request to [url + "/ajax.php"].  Its
    parameters hold the action and the keyword arguments as given; once the
    object holds an authentication key, [auth] is that key, whatever the
    keyword arguments say. *)
Theorem ajaxrequest_parameters
        (net : trace -> string -> list (string * pyval) -> Response)
        (s : self) (action : string) (kwargs : list (string * pyval))
        (base : string) (tr : trace) :
  getitem (config s) "url" = Ok (PyStr base) ->
  NoDup (map fst kwargs) -> ~ In "action" (map fst kwargs) ->
  exists params,
    snd (ajaxrequest net s action kwargs tr)
    = (tr ++ [SessionGet (base ++ "/ajax.php") params])%list
    /\ dict_get params "action" = Some (PyStr action)
    /\ (authkey s <> PyNone -> dict_get params "auth" = Some (authkey s))
    /\ (authkey s = PyNone -> dict_get params "auth" = dict_get kwargs "auth")
    /\ (forall k, k <> "auth" -> k <> "action" ->
                  dict_get params k = dict_get kwargs k).
Proof.
  intros Hurl Hnd Hact. exists (ajax_params s action kwargs).
  rewrite (ajaxrequest_unfold net s action kwargs base tr Hurl). cbn [snd].
  split; [reflexivity|].
  set (upd := fold_left (fun d kv => dict_set String.eqb d (fst kv) (snd kv))
                        kwargs [("action", PyStr action)]).
  assert (Hupd_action : dict_get upd "action" = Some (PyStr action)).
  { unfold upd. rewrite update_get_other by exact Hact. reflexivity. }
  assert (Hupd_other : forall k, k <> "action" -> dict_get upd k = dict_get kwargs k).
  { intros k Hk. unfold upd. destruct (dict_get kwargs k) as [v|] eqn:E.
    - now apply update_get_in.
    - rewrite update_get_other by (now apply dict_get_none).
      cbn [dict_get]. destruct (String.eqb_spec "action" k); [congruence | reflexivity]. }
  assert (Hset : forall key, authkey s = key -> key <> PyNone ->
                  ajax_params s action kwargs = dict_set String.eqb upd "auth" key).
  { intros key Hk Hne. unfold ajax_params. fold upd. rewrite Hk.
    destruct key; [congruence | reflexivity ..]. }
  split; [|split; [|split]].
  - destruct (authkey s) eqn:Ek.
    1: unfold ajax_params; fold upd; rewrite Ek; exact Hupd_action.
    all: rewrite (Hset _ eq_refl) by discriminate;
      rewrite dict_get_set_other by discriminate; exact Hupd_action.
  - intros Hne. rewrite (Hset _ eq_refl Hne). apply dict_get_set_same.
  - intros Hnone. unfold ajax_params. fold upd. rewrite Hnone.
    apply Hupd_other. discriminate.
  - intros k Hk1 Hk2. destruct (authkey s) eqn:Ek.
    1: unfold ajax_params; fold upd; rewrite Ek; now apply Hupd_other.
    all: rewrite (Hset _ eq_refl) by discriminate;
      rewrite dict_get_set_other by exact Hk1; now apply Hupd_other.
Qed.

Lemma ajaxrequest_parameters_witness :
  exists params,
    snd (ajaxrequest always_success logged_in "torrent"
                     [("id", PyInt 34); ("auth", PyStr "forged")] [])
    = ([] ++ [SessionGet ("https://tracker.example" ++ "/ajax.php") params])%list
    /\ dict_get params "action" = Some (PyStr "torrent")
    /\ (authkey logged_in <> PyNone -> dict_get params "auth" = Some (authkey logged_in))
    /\ (authkey logged_in = PyNone ->
        dict_get params "auth"
        = dict_get [("id", PyInt 34); ("auth", PyStr "forged")] "auth")
    /\ (forall k, k <> "auth" -> k <> "action" ->
                  dict_get params k
                  = dict_get [("id", PyInt 34); ("auth", PyStr "forged")] k).
Proof.
  apply (ajaxrequest_parameters always_success logged_in "torrent"
           [("id", PyInt 34); ("auth", PyStr "forged")]
           "https://tracker.example" []).
  - reflexivity.
  - repeat constructor; simpl; intuition discriminate.
  - simpl. intuition discriminate.
Defined.

(** *** What getSnatched stores *)

(** X5. After a call of [getSnatched] that returns, the object holds the
    records it held before and, behind them, what each page yielded, page
    after page and in the order of each page: every page was scraped
    without an exception, and nothing else of the object has changed. *)
Theorem getSnatched_appends_scraped_records
        (net : trace -> string -> list (string * pyval) -> Response)
        (s : self) (base : string) (uid : pyval) (u : string)
        (profile seeding : pyval) (pages : Z) (tr : trace)
        (s' : self) (tr' : trace) :
  getitem (config s) "url" = Ok (PyStr base) ->
  userid s = Some uid -> str uid = Ok u ->
  decode_response (net tr (base ++ "/ajax.php")
                       (ajax_params s "user" [("id", uid)])) = Ok profile ->
  getpath profile ["response"; "community"; "seeding"] = Ok seeding ->
  page_count seeding = Ok pages ->
  getSnatched net s tr = (Ok s', tr') ->
  exists found,
    Forall2 (fun body records => scrape body = Ok records)
            (page_bodies net (base ++ "/torrents.php") u
               (tr ++ [SessionGet (base ++ "/ajax.php")
                         (ajax_params s "user" [("id", uid)])])%list
               (range pages))
            found
    /\ s' = mkSelf (config s) (authkey s) (userid s)
                   (snatches s ++ List.concat found)%list (torrentdata s).
Proof.
  intros Hurl Huid Hu Hprofile Hseeding Hpages Hrun.
  rewrite (getSnatched_unfold net s base uid profile seeding pages tr
             Hurl Huid Hprofile Hseeding Hpages) in Hrun.
  pose proof (readPages_outcome net (base ++ "/torrents.php") uid u (range pages) s
                (tr ++ [SessionGet (base ++ "/ajax.php")
                          (ajax_params s "user" [("id", uid)])])%list Hu) as H.
  rewrite Hrun in H. exact (proj2 H).
Qed.

Lemma getSnatched_appends_scraped_records_witness :
  exists found,
    Forall2 (fun body records => scrape body = Ok records)
            (page_bodies tracker_with_links
               ("https://tracker.example" ++ "/torrents.php") "7"
               ([] ++ [SessionGet ("https://tracker.example" ++ "/ajax.php")
                         (ajax_params
                            (mkSelf scenario_config (PyStr "0123456789abcdef")
                                    (Some (PyInt 7)) [(9, 99)] [])
                            "user" [("id", PyInt 7)])])%list
               (range 2))
            found
    /\ mkSelf scenario_config (PyStr "0123456789abcdef") (Some (PyInt 7))
              [(9, 99); (12, 34); (56, 78); (12, 34); (12, 34); (56, 78); (12, 34)]
              []
       = mkSelf scenario_config (PyStr "0123456789abcdef") (Some (PyInt 7))
                ([(9, 99)] ++ List.concat found)%list [].
Proof.
  apply (getSnatched_appends_scraped_records tracker_with_links
           (mkSelf scenario_config (PyStr "0123456789abcdef") (Some (PyInt 7))
                   [(9, 99)] [])
           "https://tracker.example" (PyInt 7) "7"
           (PyDict [("status", PyStr "success");
                    ("response",
                     PyDict [("community", PyDict [("seeding", PyInt 51)])])])
           (PyInt 51) 2 []
           (mkSelf scenario_config (PyStr "0123456789abcdef") (Some (PyInt 7))
              [(9, 99); (12, 34); (56, 78); (12, 34); (12, 34); (56, 78); (12, 34)]
              [])
           [SessionGet "https://tracker.example/ajax.php"
              [("action", PyStr "user"); ("id", PyInt 7);
               ("auth", PyStr "0123456789abcdef")];
            page_request "https://tracker.example/torrents.php" "7" 0;
            page_request "https://tracker.example/torrents.php" "7" 1]);
    reflexivity.
Defined.

(** *** What scanTorrents stores and sends *)

Lemma has_key_set (d : list (Z * pyval)) (k : Z) (v : pyval) :
  has_key (dict_set Z.eqb d k v) k.
Proof.
  induction d as [|[k' v'] d IH]; cbn [dict_set].
  - exists v. now left.
  - destruct (Z.eqb k' k).
    + exists v. now left.
    + destruct IH as [w Hw]. exists w. now right.
Qed.

Lemma has_key_set_mono (d : list (Z * pyval)) (k k' : Z) (v : pyval) :
  has_key d k' -> has_key (dict_set Z.eqb d k v) k'.
Proof.
  intros [w Hw]. induction d as [|[k0 v0] d IH]; [contradiction|].
  cbn [dict_set]. destruct (Z.eqb_spec k0 k) as [->|Hne].
  - destruct Hw as [[= -> ->]|Hw].
    + exists v. now left.
    + exists w. now right.
  - destruct Hw as [Hw|Hw].
    + exists w. now left.
    + destruct (IH Hw) as [w' Hw']. exists w'. now right.
Qed.

Lemma requests_app (a b : trace) :
  requests (a ++ b)%list = (requests a ++ requests b)%list.
Proof.
  induction a as [|ev a IH]; [reflexivity|].
  destruct ev; cbn [app requests]; now rewrite IH.
Qed.

(** One turn of the loop of [scanTorrents]: what it stores when it goes
    through, and what it sends whatever comes of it. *)
Lemma scanTorrent_step
      (net : trace -> string -> list (string * pyval) -> Response)
      (all : list (Z * Z)) (id : Z * Z) (s : self) (base : string) (tr : trace) :
  getitem (config s) "url" = Ok (PyStr base) ->
  match scanTorrent net all id s tr with
  | (Ok s', tr') =>
      (exists data,
          s' = mkSelf (config s) (authkey s) (userid s) (snatches s)
                      (dict_set Z.eqb (torrentdata s) (snd id) data))
      /\ requests tr' = (requests tr ++ [torrent_request s base id])%list
  | (_, tr') =>
      requests tr' = requests tr
      \/ requests tr' = (requests tr ++ [torrent_request s base id])%list
  end.
Proof.
  intros Hurl. unfold scanTorrent. rewrite bind_lift.
  destruct (index_of snatch_eqb id all) as [i| |]; try (now left).
  rewrite bind_lift.
  destruct (truediv i (Z.of_nat (List.length all))) as [f| |]; try (now left).
  unfold bind at 1. unfold printProgressBar, emit. unfold bind at 1.
  rewrite (ajaxrequest_unfold net s "torrent" _ base _ Hurl).
  assert (Hreq : forall ev,
             requests ((tr ++ [ProgressBar f 40 (negb (i mod 2 =? 0))]) ++ [ev])%list
             = (requests tr ++ requests [ev])%list).
  { intros ev. rewrite !requests_app. cbn [requests]. now rewrite app_nil_r. }
  destruct (decode_response _) as [answer| |];
    try (right; rewrite Hreq; reflexivity).
  rewrite bind_lift.
  destruct (getitem answer "response") as [data| |];
    try (right; rewrite Hreq; reflexivity).
  cbn [ret]. split; [now exists data|]. rewrite Hreq. reflexivity.
Qed.

Lemma scanLoop_stores
      (net : trace -> string -> list (string * pyval) -> Response)
      (all ids : list (Z * Z)) (s s' : self) (base : string) (tr tr' : trace) :
  getitem (config s) "url" = Ok (PyStr base) ->
  scanLoop net all ids s tr = (Ok s', tr') ->
  config s' = config s /\ authkey s' = authkey s /\ userid s' = userid s
  /\ snatches s' = snatches s
  /\ (forall k, has_key (torrentdata s) k -> has_key (torrentdata s') k)
  /\ (forall id, In id ids -> has_key (torrentdata s') (snd id))
  /\ requests tr' = (requests tr ++ map (torrent_request s base) ids)%list.
Proof.
  revert s tr. induction ids as [|id ids IH]; intros s tr Hurl H.
  - cbn [scanLoop ret] in H. injection H as <- <-.
    cbn [map]. rewrite app_nil_r. repeat split; try tauto. intros id [].
  - cbn [scanLoop] in H. unfold bind at 1 in H.
    pose proof (scanTorrent_step net all id s base tr Hurl) as Hstep.
    destruct (scanTorrent net all id s tr) as [[s1| |] tr1]; try discriminate H.
    destruct Hstep as [[data ->] Hreq].
    apply IH in H; [|exact Hurl].
    cbn [config authkey userid snatches torrentdata] in H.
    destruct H as (Hc & Ha & Hu & Hs & Hold & Hnew & Hr).
    repeat split; try assumption.
    + intros k Hk. apply Hold. now apply has_key_set_mono.
    + intros id' [<-|Hin]; [apply Hold, has_key_set | now apply Hnew].
    + rewrite Hr, Hreq, <- app_assoc. reflexivity.
Qed.

(** X6. When [scanTorrents] goes through, it has sent one [torrent] request
    per record of [snatches], in their order (a record met twice is asked for
    twice); every torrent id of [snatches] then has an entry in
    [torrentdata], the entries that were there before are still there, and
    nothing else of the object has changed. *)
Theorem scanTorrents_fetches_every_record
        (net : trace -> string -> list (string * pyval) -> Response)
        (s s' : self) (base : string) (tr tr' : trace) :
  getitem (config s) "url" = Ok (PyStr base) ->
  scanTorrents net s tr = (Ok s', tr') ->
  requests tr' = (requests tr ++ map (torrent_request s base) (snatches s))%list
  /\ (forall groupid torrentid,
         In (groupid, torrentid) (snatches s) -> has_key (torrentdata s') torrentid)
  /\ (forall k, has_key (torrentdata s) k -> has_key (torrentdata s') k)
  /\ config s' = config s /\ authkey s' = authkey s /\ userid s' = userid s
  /\ snatches s' = snatches s.
Proof.
  intros Hurl H. unfold scanTorrents in H.
  apply (scanLoop_stores net _ _ s s' base tr tr' Hurl) in H.
  destruct H as (Hc & Ha & Hu & Hs & Hold & Hnew & Hr).
  repeat split; try assumption.
  intros g t Hin. exact (Hnew (g, t) Hin).
Qed.

Lemma scanTorrents_fetches_every_record_witness :
  exists s' tr',
    scanTorrents always_success
      (mkSelf scenario_config PyNone (Some (PyInt 7)) [(1, 10); (2, 20); (1, 10)] []) []
    = (Ok s', tr')
    /\ requests tr'
       = [("https://tracker.example/ajax.php",
           [("action", PyStr "torrent"); ("id", PyInt 10)]);
          ("https://tracker.example/ajax.php",
           [("action", PyStr "torrent"); ("id", PyInt 20)]);
          ("https://tracker.example/ajax.php",
           [("action", PyStr "torrent"); ("id", PyInt 10)])]
    /\ has_key (torrentdata s') 20.
Proof.
  eexists. eexists. split; [vm_compute; reflexivity|].
  match goal with
  | |- requests ?tr' = _ /\ has_key (torrentdata ?s') _ =>
      pose proof (scanTorrents_fetches_every_record always_success
                    (mkSelf scenario_config PyNone (Some (PyInt 7))
                            [(1, 10); (2, 20); (1, 10)] [])
                    s' "https://tracker.example" [] tr' eq_refl) as H
  end.
  destruct H as (Hr & Hnew & _); [vm_compute; reflexivity|].
  split; [exact Hr|].
  apply (Hnew 2 20). simpl. tauto.
Defined.

(** *** What processFiles does to the world *)

Lemma processFile_effects (f : string -> string) (cfg td : pyval) (tr : trace) :
  exists cmds,
    snd (processFile f cfg td tr) = (tr ++ cmds)%list
    /\ Forall is_cp cmds /\ (List.length cmds <= 1)%nat.
Proof.
  rewrite processFile_unfold.
  assert (Hnone : forall (r : result unit),
             exists cmds, snd (r, tr) = (tr ++ cmds)%list
                          /\ Forall is_cp cmds /\ (List.length cmds <= 1)%nat).
  { intros r. exists []. cbn. rewrite app_nil_r. repeat split; auto. }
  destruct (classify td) as [[|desttype]| |]; try apply Hnone.
  destruct (getitem cfg "destdirs") as [destdirs| |]; try apply Hnone.
  destruct (contains destdirs desttype) as [[|]| |]; try apply Hnone.
  match goal with
  | |- context [match ?r with Ok _ => _ | Raise _ => _ | Unmodelled => _ end] =>
      destruct r as [[olddir newdir]| |]; try apply Hnone
  end.
  eexists. cbn [snd]. split; [reflexivity|]. split; [|cbn; lia].
  constructor; [|constructor]. eexists. eexists. reflexivity.
Qed.

Lemma processLoop_effects (f : string -> string) (cfg : pyval)
      (items : list (Z * pyval)) (tr : trace) :
  exists cmds,
    snd (processLoop f cfg items tr) = (tr ++ cmds)%list
    /\ Forall is_cp cmds /\ (List.length cmds <= List.length items)%nat.
Proof.
  revert tr. induction items as [|[k td] items IH]; intros tr.
  - exists []. cbn. rewrite app_nil_r. repeat split; auto.
  - cbn [processLoop]. unfold bind.
    destruct (processFile_effects f cfg td tr) as (c1 & H1 & F1 & L1).
    destruct (processFile f cfg td tr) as [[[]| |] tr1]; cbn [snd] in H1; subst tr1.
    + destruct (IH (tr ++ c1)%list) as (c2 & H2 & F2 & L2).
      exists (c1 ++ c2)%list. rewrite H2, app_assoc. split; [reflexivity|].
      split; [now apply Forall_app|]. rewrite length_app. cbn [List.length]. lia.
    + exists c1. cbn [snd List.length]. repeat split; try assumption. lia.
    + exists c1. cbn [snd List.length]. repeat split; try assumption. lia.
Qed.

(** X7. Whatever the metadata and the configuration, and whether it ends
    well or raises, [processFiles] does nothing to the world but run
    [cp -Rl source destination]: at most one per fetched release, and no
    request to the tracker. *)
Theorem processFiles_only_runs_cp (f : string -> string) (s : self) (tr : trace) :
  exists cmds,
    snd (processFiles f s tr) = (tr ++ cmds)%list
    /\ Forall is_cp cmds
    /\ (List.length cmds <= List.length (torrentdata s))%nat
    /\ requests (snd (processFiles f s tr)) = requests tr.
Proof.
  unfold processFiles.
  destruct (processLoop_effects f (config s) (torrentdata s) tr) as (cmds & H & F & L).
  exists cmds. rewrite H. repeat split; try assumption.
  rewrite requests_app. clear H L.
  induction F as [|ev cmds (src & dst & ->) _ IH]; [apply app_nil_r|].
  cbn [requests]. exact IH.
Qed.

(** *** Where a release is linked to *)

Lemma escaped_path_is_relative (fp : string) :
  startswith "/" (replace_char "/" "\/" fp) = false.
Proof.
  destruct fp as [|c fp]; [reflexivity|].
  cbn [replace_char]. destruct (Ascii.eqb c "/") eqn:E; [reflexivity|].
  unfold startswith. cbn [strip_prefix]. rewrite Ascii.eqb_sym, E. reflexivity.
Qed.

(** The paths handed to [cp] when a turn of the loop places a release. *)
Lemma processFile_placed (f : string -> string) (cfg td : pyval) (tr tr' : trace)
      (out : result unit) :
  processFile f cfg td tr = (out, tr') ->
  tr' <> tr ->
  exists category destdirs destdir torrentdir filePath name,
    classify td = Ok (Desttype (Some category))
    /\ getitem cfg "destdirs" = Ok destdirs
    /\ getitem destdirs category = Ok (PyStr destdir)
    /\ getitem cfg "torrentdir" = Ok (PyStr torrentdir)
    /\ getpath td ["torrent"; "filePath"] = Ok (PyStr filePath)
    /\ renderName cfg td = Ok name
    /\ out = Ok tt
    /\ tr' = (tr ++ [SubprocessCall
                       ["cp"; "-Rl";
                        html_unescape f
                          (os_path_join torrentdir (replace_char "/" "\/" filePath));
                        html_unescape f (os_path_join destdir name)]])%list.
Proof.
  rewrite processFile_unfold. intros H Hne.
  destruct (classify td) as [[|desttype]| |] eqn:Hc;
    try (injection H as _ H; congruence).
  destruct (getitem cfg "destdirs") as [destdirs| |] eqn:Hd;
    try (injection H as _ H; congruence).
  destruct (contains destdirs desttype) as [[|]| |];
    try (injection H as _ H; congruence).
  destruct desttype as [category|];
    cbn [rbind] in H; try (injection H as _ H; congruence).
  destruct (getitem destdirs category) as [destdir| |] eqn:Hdd;
    cbn [rbind] in H; try (injection H as _ H; congruence).
  destruct (getitem cfg "torrentdir") as [torrentdir| |] eqn:Ht;
    cbn [rbind] in H; try (injection H as _ H; congruence).
  destruct (getpath td ["torrent"; "filePath"]) as [filePath| |] eqn:Hfp;
    cbn [rbind] in H; try (injection H as _ H; congruence).
  destruct filePath as [| | |fp| |];
    cbn [rbind] in H; try (injection H as _ H; congruence).
  destruct torrentdir as [| | |t| |];
    cbn [rbind] in H; try (injection H as _ H; congruence).
  destruct (renderName cfg td) as [name| |] eqn:Hn;
    cbn [rbind] in H; try (injection H as _ H; congruence).
  destruct destdir as [| | |d| |];
    cbn [rbind] in H; try (injection H as _ H; congruence).
  injection H as <- <-.
  exists category, destdirs, d, t, fp, name. repeat split; assumption.
Qed.

(** X8. A placed release is linked to the destination directory of its
    category joined with its rendered name, the whole unescaped.  The join
    is that of [os.path.join]: a rendered name that starts with "/" is the
    destination all by itself, and the configured directory is dropped. *)
Theorem placement_destination_path
        (f : string -> string) (cfg td : pyval) (tr tr' : trace)
        (out : result unit) :
  processFile f cfg td tr = (out, tr') ->
  tr' <> tr ->
  exists category destdirs destdir name src,
    classify td = Ok (Desttype (Some category))
    /\ getitem cfg "destdirs" = Ok destdirs
    /\ getitem destdirs category = Ok (PyStr destdir)
    /\ renderName cfg td = Ok name
    /\ tr' = (tr ++ [SubprocessCall
                       ["cp"; "-Rl"; src;
                        html_unescape f (os_path_join destdir name)]])%list
    /\ (startswith "/" name = true -> os_path_join destdir name = name)
    /\ (startswith "/" name = false ->
        exists sep, (sep = "" \/ sep = "/")
                    /\ os_path_join destdir name = (destdir ++ sep ++ name)%string).
Proof.
  intros H Hne.
  destruct (processFile_placed f cfg td tr tr' out H Hne)
    as (category & destdirs & d & t & fp & name & Hc & Hd & Hdd & _ & _ & Hn & _ & ->).
  exists category, destdirs, d, name. eexists.
  repeat split; try eassumption.
  - intros Hs. unfold os_path_join. now rewrite Hs.
  - intros Hs. unfold os_path_join. rewrite Hs.
    destruct (String.eqb d "" || ends_with_char "/" d).
    + exists "". split; [now left | reflexivity].
    + exists "/". split; [now right | reflexivity].
Qed.

Lemma placement_destination_path_witness :
  exists category destdirs destdir name src,
    classify release_of_slash_artist = Ok (Desttype (Some category))
    /\ getitem scenario_config "destdirs" = Ok destdirs
    /\ getitem destdirs category = Ok (PyStr destdir)
    /\ renderName scenario_config release_of_slash_artist = Ok name
    /\ [SubprocessCall ["cp"; "-Rl"; "/torrents/Album Z";
                        "/srv/www - Album Z (2021) [FLAC]"]]
       = ([] ++ [SubprocessCall
                   ["cp"; "-Rl"; src;
                    html_unescape (fun s => s) (os_path_join destdir name)]])%list
    /\ (startswith "/" name = true -> os_path_join destdir name = name)
    /\ (startswith "/" name = false ->
        exists sep, (sep = "" \/ sep = "/")
                    /\ os_path_join destdir name = (destdir ++ sep ++ name)%string).
Proof.
  apply (placement_destination_path (fun s => s) scenario_config
           release_of_slash_artist []
           [SubprocessCall ["cp"; "-Rl"; "/torrents/Album Z";
                            "/srv/www - Album Z (2021) [FLAC]"]]
           (Ok tt)).
  - reflexivity.
  - discriminate.
Defined.

(** X9. The source of a placed release always lies under the torrent
    directory as it is spelled in the configuration: the file path, in which
    every "/" has become "\/", never starts with "/", so the join never
    drops the torrent directory. *)
Theorem placement_source_under_torrentdir
        (f : string -> string) (cfg td : pyval) (tr tr' : trace)
        (out : result unit) :
  processFile f cfg td tr = (out, tr') ->
  tr' <> tr ->
  exists torrentdir rest dst,
    getitem cfg "torrentdir" = Ok (PyStr torrentdir)
    /\ tr' = (tr ++ [SubprocessCall
                       ["cp"; "-Rl"; html_unescape f (torrentdir ++ rest); dst]])%list.
Proof.
  intros H Hne.
  destruct (processFile_placed f cfg td tr tr' out H Hne)
    as (category & destdirs & d & t & fp & name & _ & _ & _ & Ht & _ & _ & _ & ->).
  unfold os_path_join at 1. rewrite escaped_path_is_relative.
  destruct (String.eqb t "" || ends_with_char "/" t);
    exists t; eexists; eexists; (split; [exact Ht | reflexivity]).
Qed.

Lemma placement_source_under_torrentdir_witness :
  exists torrentdir rest dst,
    getitem scenario_config "torrentdir" = Ok (PyStr torrentdir)
    /\ [SubprocessCall ["cp"; "-Rl"; "/torrents/Artist A\/Album X";
                        "/dest/flac/Artist A - Album X (2020) [FLAC]"]]
       = ([] ++ [SubprocessCall
                   ["cp"; "-Rl"; html_unescape (fun s => s) (torrentdir ++ rest);
                    dst]])%list.
Proof.
  apply (placement_source_under_torrentdir (fun s => s) scenario_config
           album_in_subdir []
           [SubprocessCall ["cp"; "-Rl"; "/torrents/Artist A\/Album X";
                            "/dest/flac/Artist A - Album X (2020) [FLAC]"]]
           (Ok tt)).
  - reflexivity.
  - discriminate.
Defined.

(** *** The order of the artists *)

Lemma str_le_trans (a b c : string) : str_le a b -> str_le b c -> str_le a c.
Proof.
  unfold str_le, String.leb. intros Hab Hbc.
  destruct (String.compare a b) eqn:Eab; try discriminate Hab.
  - apply String.compare_eq_iff in Eab. now subst.
  - destruct (String.compare b c) eqn:Ebc; try discriminate Hbc.
    + apply String.compare_eq_iff in Ebc. subst. now rewrite Eab.
    + apply String_as_OT.cmp_lt in Eab, Ebc.
      pose proof (String_as_OT.lt_trans _ _ _ Eab Ebc) as Hac.
      apply String_as_OT.cmp_lt in Hac. unfold String_as_OT.cmp in Hac.
      now rewrite Hac.
Qed.

Lemma str_le_antisym (a b : string) : str_le a b -> str_le b a -> a = b.
Proof. apply String.leb_antisym. Qed.

Lemma Sorted_str_le_strong (l : list string) :
  Sorted str_le l -> StronglySorted str_le l.
Proof. apply Sorted_StronglySorted. intros a b c. apply str_le_trans. Qed.

(** An ordered list is determined by its elements. *)
Lemma ordered_unique (l1 l2 : list string) :
  Sorted str_le l1 -> Sorted str_le l2 -> Permutation l1 l2 -> l1 = l2.
Proof.
  intros S1 S2. apply Sorted_str_le_strong in S1, S2. revert l2 S2.
  induction S1 as [|x l1 S1 IH F1]; intros l2 S2 Hp.
  - apply Permutation_nil in Hp. now subst.
  - destruct S2 as [|y l2 S2 F2].
    + apply Permutation_sym, Permutation_nil in Hp. discriminate Hp.
    + assert (x = y) as ->.
      { assert (Hx : In x (y :: l2)) by (eapply Permutation_in; [exact Hp | now left]).
        assert (Hy : In y (x :: l1))
          by (eapply Permutation_in; [apply Permutation_sym, Hp | now left]).
        destruct Hx as [->|Hx]; [reflexivity|].
        destruct Hy as [->|Hy]; [reflexivity|].
        rewrite Forall_forall in F1, F2.
        apply str_le_antisym; [apply F1, Hy | apply F2, Hx]. }
      f_equal. apply IH; [exact S2|]. now apply Permutation_cons_inv in Hp.
Qed.

Lemma sorted_permutation (l l' : list string) :
  Permutation l l' -> sorted l = sorted l'.
Proof.
  intros Hp. apply ordered_unique; try apply sorted_Sorted.
  eapply perm_trans; [apply Permutation_sym, sorted_perm|].
  eapply perm_trans; [exact Hp | apply sorted_perm].
Qed.

Lemma mapM_permutation {A B} (f : A -> result B) (l l' : list A) :
  Permutation l l' ->
  forall r, mapM f l = Ok r -> exists r', mapM f l' = Ok r' /\ Permutation r r'.
Proof.
  induction 1 as [|x l l' Hp IH|x y l|l l' l'' H1 IH1 H2 IH2]; intros r Hr.
  - exists r. split; [exact Hr|]. apply Permutation_refl.
  - cbn [mapM] in *. destruct (f x) as [b| |]; try discriminate Hr.
    cbn [rbind] in *. destruct (mapM f l) as [bs| |]; try discriminate Hr.
    injection Hr as <-. destruct (IH bs eq_refl) as (bs' & -> & Hbs).
    exists (b :: bs'). split; [reflexivity | now constructor].
  - cbn [mapM] in *. destruct (f y) as [b| |]; try discriminate Hr.
    cbn [rbind] in *. destruct (f x) as [a| |]; try discriminate Hr.
    cbn [rbind] in *. destruct (mapM f l) as [bs| |]; try discriminate Hr.
    injection Hr as <-. exists (a :: b :: bs). split; [reflexivity | constructor].
  - destruct (IH1 r Hr) as (r1 & Hr1 & Hp1).
    destruct (IH2 r1 Hr1) as (r2 & Hr2 & Hp2).
    exists r2. split; [exact Hr2 | eapply perm_trans; eassumption].
Qed.

Lemma all_str_permutation (l l' : list pyval) :
  Permutation l l' ->
  forall names, all_str l = Some names ->
                exists names', all_str l' = Some names' /\ Permutation names names'.
Proof.
  induction 1 as [|x l l' Hp IH|x y l|l l' l'' H1 IH1 H2 IH2]; intros names Hn.
  - exists names. split; [exact Hn|]. apply Permutation_refl.
  - cbn [all_str] in *. destruct (as_str x) as [s|]; try discriminate Hn.
    destruct (all_str l) as [ss|]; try discriminate Hn.
    injection Hn as <-. destruct (IH ss eq_refl) as (ss' & -> & Hss).
    exists (s :: ss'). split; [reflexivity | now constructor].
  - cbn [all_str] in *. destruct (as_str y) as [b|]; try discriminate Hn.
    destruct (as_str x) as [a|]; try discriminate Hn.
    destruct (all_str l) as [ss|]; try discriminate Hn.
    injection Hn as <-. exists (a :: b :: ss). split; [reflexivity | constructor].
  - destruct (IH1 names Hn) as (n1 & Hn1 & Hp1).
    destruct (IH2 n1 Hn1) as (n2 & Hn2 & Hp2).
    exists n2. split; [exact Hn2 | eapply perm_trans; eassumption].
Qed.

Lemma artist_field_permutation (cfg td td' : pyval) (arts arts' : list pyval)
      (a : pyval) :
  getpath td ["group"; "musicInfo"; "artists"] = Ok (PyList arts) ->
  getpath td' ["group"; "musicInfo"; "artists"] = Ok (PyList arts') ->
  Permutation arts arts' ->
  artist_field cfg td = Ok a -> artist_field cfg td' = Ok a.
Proof.
  intros Ha Ha' Hp. unfold artist_field. rewrite Ha, Ha'.
  cbn [rbind len iterate]. rewrite (Permutation_length Hp).
  destruct (getpath cfg ["pattern"; "listindividualartists"]) as [thr| |];
    try discriminate.
  cbn [rbind]. destruct (as_int thr) as [t| |]; try discriminate.
  cbn [rbind]. destruct (t <? Z.of_nat (List.length arts')); [tauto|].
  destruct (getpath cfg ["pattern"; "artistjoiner"]) as [j| |]; try discriminate.
  cbn [rbind]. destruct j as [| | |sep| |]; try discriminate.
  destruct (mapM (fun x => getitem x "name") arts) as [names| |] eqn:En;
    try discriminate.
  destruct (mapM_permutation _ _ _ Hp names En) as (names' & -> & Hn).
  cbn [rbind]. unfold join_sorted.
  destruct (all_str names) as [ss|] eqn:Es; try discriminate.
  destruct (all_str_permutation _ _ Hn ss Es) as (ss' & -> & Hss).
  cbn [rbind]. now rewrite (sorted_permutation _ _ Hss).
Qed.

(** X10. The rendered name does not depend on the order in which the tracker
    lists the artists: two releases that differ only in that order get the
    same name. *)
Theorem renderName_ignores_artist_order
        (cfg td td' : pyval) (arts arts' : list pyval) (name : string) :
  getpath td ["group"; "musicInfo"; "artists"] = Ok (PyList arts) ->
  getpath td' ["group"; "musicInfo"; "artists"] = Ok (PyList arts') ->
  Permutation arts arts' ->
  getpath td' ["torrent"; "format"] = getpath td ["torrent"; "format"] ->
  getpath td' ["group"; "name"] = getpath td ["group"; "name"] ->
  getpath td' ["group"; "year"] = getpath td ["group"; "year"] ->
  renderName cfg td = Ok name ->
  renderName cfg td' = Ok name.
Proof.
  intros Ha Ha' Hp Hf Hn Hy. unfold renderName. rewrite Hf, Hn, Hy.
  destruct (artist_field cfg td) as [a| |] eqn:E; try discriminate.
  now rewrite (artist_field_permutation cfg td td' arts arts' a Ha Ha' Hp E).
Qed.

Lemma renderName_ignores_artist_order_witness :
  renderName scenario_config
             (release ["a"; "b"] "Album" 1999 "FLAC" "Lossless" "p")
  = Ok "a & b - Album (1999) [FLAC]".
Proof.
  apply (renderName_ignores_artist_order scenario_config
           (release ["b"; "a"] "Album" 1999 "FLAC" "Lossless" "p")
           (release ["a"; "b"] "Album" 1999 "FLAC" "Lossless" "p")
           [PyDict [("name", PyStr "b")]; PyDict [("name", PyStr "a")]]
           [PyDict [("name", PyStr "a")]; PyDict [("name", PyStr "b")]]);
    try reflexivity.
  apply perm_swap.
Defined.

(** ** The run as a whole *)

Lemma run_bind_lift {A B} (r : result A) (k : A -> Run.R B) (lg : Run.log) :
  Run.bind (Run.lift r) k lg
  = match r with
    | Ok a => k a lg
    | Raise e => (Run.Raises (Run.Inner e), lg)
    | Unmodelled => (Run.NotModelled, lg)
    end.
Proof. unfold Run.bind, Run.lift. destruct r; reflexivity. Qed.

Lemma all_present_total (cfg : pyval) (names : list string) :
  (exists b, all_present cfg names = Ok b) \/ all_present cfg names = Raise TypeError.
Proof.
  induction names as [|n names IH]; cbn [all_present]; [left; now exists true|].
  destruct (contains cfg (Some n)) as [[|]| |] eqn:E; cbn [rbind].
  - exact IH.
  - left. now exists false.
  - right. now rewrite (contains_raises _ _ _ E).
  - exfalso. destruct cfg; discriminate E.
Qed.

(** [checkConfig] has three outcomes. *)
Lemma checkConfig_outcomes (cfg : pyval) :
  checkConfig cfg = Ok true \/ checkConfig cfg = Ok false
  \/ checkConfig cfg = Raise TypeError.
Proof.
  destruct cfg as [| b | z | s | xs | kvs].
  1-3: right; right; reflexivity.
  1-2: right; right; unfold checkConfig;
       match goal with
       | |- rbind (all_present ?c ?n) _ = _ =>
           destruct (all_present_total c n) as [[[|] ->]| ->]; reflexivity
       end.
  unfold checkConfig. rewrite all_present_dict. cbn [rbind].
  destruct (forallb (dict_mem kvs) (map fst necessaryparams)) eqn:E;
    [|right; right; reflexivity].
  cbn [negb]. simpl in E. unfold dict_mem in E. simpl.
  destruct (dict_get kvs "url"); [|discriminate E].
  destruct (dict_get kvs "username"); [|discriminate E].
  destruct (dict_get kvs "password"); [|discriminate E].
  destruct (dict_get kvs "torrentdir"); [|discriminate E].
  destruct (dict_get kvs "destdirs"); [|discriminate E].
  destruct (dict_get kvs "pattern"); [|discriminate E].
  simpl. destruct (_ || _); [right; left | left]; reflexivity.
Qed.

(** X11. Without a configuration that passes [checkConfig], [run] does
    nothing to the world: no request is sent, no directory is created, no
    file is linked.  It returns 1, or raises the [TypeError] of the report of
    missing settings. *)
Theorem run_needs_checked_config (w : Run.world) (s : self) (lg : Run.log) :
  ~ typed_config (config s) ->
  snd (Run.run w (Run.Configured s) lg) = lg
  /\ (fst (Run.run w (Run.Configured s) lg) = Run.Returns 1
      \/ fst (Run.run w (Run.Configured s) lg) = Run.Raises (Run.Inner TypeError)).
Proof.
  intros Hnt. cbn [Run.run]. rewrite run_bind_lift.
  destruct (checkConfig_outcomes (config s)) as [H|[H|H]]; rewrite H.
  - elim Hnt. now apply checkConfig_true.
  - split; [reflexivity | now left].
  - split; [reflexivity | now right].
Qed.

Lemma run_needs_checked_config_witness :
  snd (Run.run cooperative
         (Run.Configured (fresh (PyDict [("url", PyStr "https://tracker.example")])))
         [])
  = []
  /\ (fst (Run.run cooperative
             (Run.Configured (fresh (PyDict [("url", PyStr "https://tracker.example")])))
             [])
      = Run.Returns 1
      \/ fst (Run.run cooperative
                (Run.Configured
                   (fresh (PyDict [("url", PyStr "https://tracker.example")])))
                [])
         = Run.Raises (Run.Inner TypeError)).
Proof.
  apply (run_needs_checked_config cooperative
           (fresh (PyDict [("url", PyStr "https://tracker.example")])) []).
  intros (kvs & u & n & p & t & d & pat & Heq & _ & Hn & _).
  injection Heq as <-. discriminate Hn.
Defined.

(** X12. On a machine without a configuration file the script creates the
    configuration directory if it is missing, writes the default
    configuration there and exits with status 1, without a single request.
    The configuration written passes [checkConfig] as it is.  (An empty
    path for the configuration directory, which [appdirs] does not answer,
    is no directory and cannot be created: there [os.makedirs] raises
    [FileNotFoundError] and nothing is written.) *)
Theorem main_first_run
        (w : Run.world) (user_config_dir : string) (config_arg : option string)
        (configdir : string) (lg : Run.log) :
  configdir = match config_arg with
              | Some dir => if String.eqb dir "" then user_config_dir else dir
              | None => user_config_dir
              end ->
  (forall lg', Run.isfile w lg' (os_path_join configdir "config.json") = false) ->
  Run.main w user_config_dir config_arg lg
  = (if String.eqb configdir ""
     then (Run.Raises Run.FileNotFoundError, (lg ++ [Run.Makedirs ""])%list)
     else
       (Run.Returns 1,
        (lg ++ (if Run.isdir w lg configdir then [] else [Run.Makedirs configdir])
            ++ [Run.WriteJson (os_path_join configdir "config.json")
                              Run.defaultconfig])%list))
  /\ checkConfig Run.defaultconfig = Ok true.
Proof.
  intros Hdir Hfile. split; [|reflexivity].
  unfold Run.main. rewrite <- Hdir. clear Hdir.
  unfold Run.bind at 1. cbn [Run.os_path_isdir].
  destruct (String.eqb configdir "") eqn:He; cbn [negb andb].
  - apply String.eqb_eq in He. subst configdir. reflexivity.
  - destruct (Run.isdir w lg configdir).
    + unfold Run.bind at 1. cbn [Run.ret]. unfold Run.bind, Run.init.
      rewrite Hfile. cbn [negb Run.run Run.ret app]. reflexivity.
    + unfold Run.bind at 1. cbn [Run.os_makedirs]. unfold Run.bind at 1.
      cbn [Run.perform]. rewrite He. cbn [Run.ret].
      unfold Run.bind, Run.init. rewrite Hfile. cbn [negb Run.run Run.ret].
      now rewrite <- app_assoc.
Qed.

Lemma main_first_run_witness :
  Run.main first_run "/home/user/.config/GazelleSort" (Some "") []
  = (Run.Returns 1,
     [Run.Makedirs "/home/user/.config/GazelleSort";
      Run.WriteJson "/home/user/.config/GazelleSort/config.json" Run.defaultconfig])
  /\ checkConfig Run.defaultconfig = Ok true.
Proof.
  apply (main_first_run first_run "/home/user/.config/GazelleSort" (Some "")
           "/home/user/.config/GazelleSort" []).
  - reflexivity.
  - intros lg'. reflexivity.
Defined.

(** *** Steps of the run *)

Lemma core_ajaxrequest (w : Run.world) (s : self) (action : string)
      (kwargs : list (string * pyval)) (base : string) (lg : Run.log) :
  getitem (config s) "url" = Ok (PyStr base) ->
  Run.core w (fun net => ajaxrequest net s action kwargs) lg
  = Run.lift
      (decode_response
         (Run.get w lg (base ++ "/ajax.php") (ajax_params s action kwargs)))
      (lg ++ [Run.Core (SessionGet (base ++ "/ajax.php")
                                   (ajax_params s action kwargs))])%list.
Proof.
  intros Hurl. unfold Run.core.
  rewrite (ajaxrequest_unfold _ s action kwargs base [] Hurl).
  cbn [map app]. now rewrite app_nil_r.
Qed.

Lemma login_posts (w : Run.world) (s : self) (base username password : string)
      (lg : Run.log) :
  getitem (config s) "url" = Ok (PyStr base) ->
  getitem (config s) "username" = Ok (PyStr username) ->
  getitem (config s) "password" = Ok (PyStr password) ->
  Run.login w s lg
  = (Run.Returns
       (status_code
          (Run.post w lg (base ++ "/login.php")
             [("username", PyStr username); ("password", PyStr password);
              ("keeplogged", PyInt 1); ("login", PyStr "Login")])),
     (lg ++ [login_post base username password])%list).
Proof.
  intros Hu Hn Hp. unfold Run.login.
  rewrite run_bind_lift, Hu. cbn [add_str].
  rewrite run_bind_lift, run_bind_lift, Hn, run_bind_lift, Hp. reflexivity.
Qed.

Lemma typed_config_fields (cfg : pyval) :
  typed_config cfg ->
  exists base username password torrentdir destdirs,
    getitem cfg "url" = Ok (PyStr base)
    /\ getitem cfg "username" = Ok (PyStr username)
    /\ getitem cfg "password" = Ok (PyStr password)
    /\ getitem cfg "torrentdir" = Ok (PyStr torrentdir)
    /\ getitem cfg "destdirs" = Ok (PyDict destdirs).
Proof.
  intros (kvs & u & n & p & t & d & pat & -> & Hu & Hn & Hp & Ht & Hd & _).
  exists u, n, p, t, d. cbn [getitem]. now rewrite Hu, Hn, Hp, Ht, Hd.
Qed.

(** The run up to the answer of the [index] request. *)
Lemma run_until_index (w : Run.world) (cfg : pyval) (base username password : string)
      (lg : Run.log) :
  typed_config cfg ->
  getitem cfg "url" = Ok (PyStr base) ->
  getitem cfg "username" = Ok (PyStr username) ->
  getitem cfg "password" = Ok (PyStr password) ->
  Run.run w (Run.Configured (fresh cfg)) lg
  = Run.bind
      (Run.lift
         (decode_response
            (Run.get w (lg ++ [login_post base username password])%list
                     (base ++ "/ajax.php") [("action", PyStr "index")])))
      (fun indexjson =>
         Run.bind (Run.lift (store_session_of cfg indexjson))
           (fun s1 =>
              Run.bind (Run.core w (fun net => getSnatched net s1))
                (fun s2 =>
                   Run.bind (Run.prepareDirs w s2)
                     (fun _ =>
                        Run.bind (Run.core w (fun net => scanTorrents net s2))
                          (fun s3 =>
                             Run.bind
                               (Run.core w
                                  (fun _ => processFiles (Run.charref_sub w) s3))
                               (fun _ =>
                                  Run.bind (Run.logout w s3)
                                           (fun _ => Run.ret 0)))))))
      (lg ++ [login_post base username password; index_request base])%list.
Proof.
  intros Ht Hu Hn Hp. cbn [Run.run]. rewrite run_bind_lift.
  change (config (fresh cfg)) with cfg.
  rewrite (checkConfig_typed cfg Ht). cbn [negb].
  unfold Run.bind at 1.
  rewrite (login_posts w (fresh cfg) base username password lg Hu Hn Hp).
  unfold Run.bind at 1.
  rewrite (core_ajaxrequest w (fresh cfg) "index" [] base _ Hu).
  change (ajax_params (fresh cfg) "index" []) with [("action", PyStr "index")].
  unfold index_request. rewrite <- app_assoc. cbn [app].
  unfold Run.bind at 2. unfold store_session_of. reflexivity.
Qed.

Lemma getSnatched_needs_userid
      (net : trace -> string -> list (string * pyval) -> Response)
      (s : self) (base : string) (tr : trace) :
  getitem (config s) "url" = Ok (PyStr base) -> userid s = None ->
  getSnatched net s tr = (Raise AttributeError, tr).
Proof.
  intros Hu Hid. unfold getSnatched. rewrite bind_lift, Hu. cbn [add_str].
  now rewrite bind_lift, bind_lift, Hid.
Qed.

(** X13. A login that does not go through ends the run after its second
    request, with nothing created, nothing linked and no logout.  When the
    [index] request fails, its exception leaves [run]; when it succeeds but
    its response lacks [authkey], [passkey] or [id], [run] goes on without a
    user id and [getSnatched] raises [AttributeError] before it sends
    anything. *)
Theorem run_stops_when_login_fails
        (w : Run.world) (cfg : pyval) (base username password : string)
        (lg : Run.log) :
  typed_config cfg ->
  getitem cfg "url" = Ok (PyStr base) ->
  getitem cfg "username" = Ok (PyStr username) ->
  getitem cfg "password" = Ok (PyStr password) ->
  (forall e,
      decode_response
        (Run.get w (lg ++ [login_post base username password])%list
                 (base ++ "/ajax.php") [("action", PyStr "index")]) = Raise e ->
      Run.run w (Run.Configured (fresh cfg)) lg
      = (Run.Raises (Run.Inner e),
         (lg ++ [login_post base username password; index_request base])%list))
  /\ (forall indexjson response,
         decode_response
           (Run.get w (lg ++ [login_post base username password])%list
                    (base ++ "/ajax.php") [("action", PyStr "index")]) = Ok indexjson ->
         getitem indexjson "response" = Ok (PyDict response) ->
         dict_get response "authkey" = None \/ dict_get response "passkey" = None
         \/ dict_get response "id" = None ->
         Run.run w (Run.Configured (fresh cfg)) lg
         = (Run.Raises (Run.Inner AttributeError),
            (lg ++ [login_post base username password; index_request base])%list)).
Proof.
  intros Ht Hu Hn Hp. split.
  - intros e He. rewrite (run_until_index w cfg base username password lg Ht Hu Hn Hp).
    rewrite run_bind_lift, He. reflexivity.
  - intros indexjson response Hj Hr Hmiss.
    rewrite (run_until_index w cfg base username password lg Ht Hu Hn Hp).
    rewrite run_bind_lift, Hj.
    assert (Hs : store_session_of cfg indexjson = Ok (fresh cfg)).
    { unfold store_session_of, Run.store_session.
      destruct (Run.truthy indexjson); [|reflexivity].
      rewrite Hr. cbn [rbind contains]. unfold dict_mem.
      destruct Hmiss as [H|[H|H]]; rewrite H;
        repeat match goal with
               | |- context [match dict_get ?d ?k with _ => _ end] =>
                   destruct (dict_get d k)
               end; reflexivity. }
    rewrite run_bind_lift, Hs. unfold Run.bind at 1. unfold Run.core.
    rewrite (getSnatched_needs_userid _ (fresh cfg) base [] Hu eq_refl).
    cbn [map Run.lift]. now rewrite app_nil_r.
Qed.

Lemma run_stops_when_login_fails_witness :
  Run.run (refusing (PyDict [("status", PyStr "failure")]))
          (Run.Configured (fresh scenario_config)) []
  = (Run.Raises
       (Run.Inner
          (RequestException
             "Request 'https://tracker.example/ajax.php' failed. No Error message was returned by API.")),
     [login_post "https://tracker.example" "user" "secret";
      index_request "https://tracker.example"])
  /\ Run.run (refusing (PyDict [("status", PyStr "success");
                                ("response", PyDict [("authkey", PyStr "0123")])]))
             (Run.Configured (fresh scenario_config)) []
     = (Run.Raises (Run.Inner AttributeError),
        [login_post "https://tracker.example" "user" "secret";
         index_request "https://tracker.example"]).
Proof.
  assert (Ht : typed_config scenario_config).
  { do 7 eexists. repeat split; reflexivity. }
  split.
  - apply (proj1 (run_stops_when_login_fails
                    (refusing (PyDict [("status", PyStr "failure")]))
                    scenario_config "https://tracker.example" "user" "secret" []
                    Ht eq_refl eq_refl eq_refl)).
    reflexivity.
  - apply (proj2 (run_stops_when_login_fails
                    (refusing (PyDict [("status", PyStr "success");
                                       ("response", PyDict [("authkey", PyStr "0123")])]))
                    scenario_config "https://tracker.example" "user" "secret" []
                    Ht eq_refl eq_refl eq_refl)
             (PyDict [("status", PyStr "success");
                      ("response", PyDict [("authkey", PyStr "0123")])])
             [("authkey", PyStr "0123")]).
    + reflexivity.
    + reflexivity.
    + right. left. reflexivity.
Defined.

(** *** prepareDirs *)






(** *** The events of each phase *)

Lemma ajaxrequest_events
      (net : trace -> string -> list (string * pyval) -> Response)
      (s : self) (action : string) (kwargs : list (string * pyval))
      (base : string) (tr : trace) :
  getitem (config s) "url" = Ok (PyStr base) ->
  exists new,
    snd (ajaxrequest net s action kwargs tr) = (tr ++ new)%list
    /\ Forall (fetch_event base) new.
Proof.
  intros Hurl. rewrite (ajaxrequest_unfold net s action kwargs base tr Hurl).
  eexists. split; [reflexivity|]. constructor; [|constructor]. now left.
Qed.

Lemma page_requests_fetch (base u : string) (pages : list Z) :
  Forall (fetch_event base) (map (page_request (base ++ "/torrents.php") u) pages).
Proof.
  apply Forall_forall. intros ev Hin. apply in_map_iff in Hin.
  destruct Hin as (page & <- & _). right.
  exists ("type=seeding&page=" ++ str_of_Z (page + 1) ++ "&userid=" ++ u)%string.
  split; [|reflexivity]. now rewrite string_app_assoc.
Qed.

Ltac stops_after l :=
  exists l; rewrite ?app_nil_r;
  split; [reflexivity
         | split; [first [apply Forall_nil | constructor; [now left | constructor]]
                  | let H := fresh in intros ? H; discriminate H]].

Lemma readPages_events
      (net : trace -> string -> list (string * pyval) -> Response)
      (base : string) (uid : pyval) (pages : list Z) (s : self) (tr : trace) :
  match readPages net (base ++ "/torrents.php") uid pages s tr with
  | (r, tr') =>
      exists new u,
        tr' = (tr ++ new)%list
        /\ Forall (fetch_event base) new
        /\ forall s', r = Ok s' ->
                      config s' = config s /\ authkey s' = authkey s
                      /\ userid s' = userid s
                      /\ (str uid = Ok u \/ pages = [])
                      /\ new = map (page_request (base ++ "/torrents.php") u) pages
  end.
Proof.
  destruct (str uid) as [u|e|] eqn:Hu.
  - pose proof (readPages_outcome net (base ++ "/torrents.php") uid u pages s tr Hu)
      as H.
    destruct (readPages net (base ++ "/torrents.php") uid pages s tr)
      as [[s'| |] tr'].
    + destruct H as (-> & found & _ & ->).
      exists (map (page_request (base ++ "/torrents.php") u) pages), u.
      split; [reflexivity|]. split; [apply page_requests_fetch|].
      intros s'' [= <-]. cbn [config authkey userid]. repeat split. now left.
    + destruct H as (done & rest & _ & _ & ->).
      exists (map (page_request (base ++ "/torrents.php") u) done), u.
      split; [reflexivity|]. split; [apply page_requests_fetch | discriminate].
    + destruct H as (done & rest & _ & _ & ->).
      exists (map (page_request (base ++ "/torrents.php") u) done), u.
      split; [reflexivity|]. split; [apply page_requests_fetch | discriminate].
  - destruct pages as [|page pages].
    + exists [], "". cbn [readPages ret]. rewrite app_nil_r.
      split; [reflexivity|]. split; [constructor|].
      intros s' [= <-]. repeat split. now right.
    + assert (E : readPages net (base ++ "/torrents.php") uid (page :: pages) s tr
                  = (Raise e, tr)).
      { cbn [readPages]. unfold bind at 1. unfold readPage.
        rewrite bind_lift, Hu. reflexivity. }
      rewrite E. exists [], "". rewrite app_nil_r.
      split; [reflexivity|]. split; [constructor | discriminate].
  - destruct pages as [|page pages].
    + exists [], "". cbn [readPages ret]. rewrite app_nil_r.
      split; [reflexivity|]. split; [constructor|].
      intros s' [= <-]. repeat split. now right.
    + assert (E : readPages net (base ++ "/torrents.php") uid (page :: pages) s tr
                  = (Unmodelled, tr)).
      { cbn [readPages]. unfold bind at 1. unfold readPage.
        rewrite bind_lift, Hu. reflexivity. }
      rewrite E. exists [], "". rewrite app_nil_r.
      split; [reflexivity|]. split; [constructor | discriminate].
Qed.

(** What [getSnatched] sends: the profile request, then the pages in
    order. *)
Lemma getSnatched_events
      (net : trace -> string -> list (string * pyval) -> Response)
      (s : self) (base : string) (tr : trace) :
  getitem (config s) "url" = Ok (PyStr base) ->
  match getSnatched net s tr with
  | (r, tr') =>
      exists new,
        tr' = (tr ++ new)%list
        /\ Forall (fetch_event base) new
        /\ forall s', r = Ok s' ->
             config s' = config s /\ authkey s' = authkey s
             /\ userid s' = userid s
             /\ exists uid u profile seeding pages,
                  userid s = Some uid
                  /\ decode_response
                       (net tr (base ++ "/ajax.php")
                            (ajax_params s "user" [("id", uid)])) = Ok profile
                  /\ getpath profile ["response"; "community"; "seeding"] = Ok seeding
                  /\ page_count seeding = Ok pages
                  /\ (str uid = Ok u \/ range pages = [])
                  /\ new = SessionGet (base ++ "/ajax.php")
                                      (ajax_params s "user" [("id", uid)])
                           :: map (page_request (base ++ "/torrents.php") u)
                                  (range pages)
  end.
Proof.
  intros Hurl.
  unfold getSnatched. rewrite bind_lift, Hurl. cbn [add_str].
  rewrite bind_lift, bind_lift.
  destruct (userid s) as [uid|] eqn:Huid; [|stops_after (@nil event)].
  unfold bind at 1. rewrite (ajaxrequest_unfold net s "user" _ base tr Hurl).
  set (req := SessionGet (base ++ "/ajax.php") (ajax_params s "user" [("id", uid)])).
  destruct (decode_response _) as [profile| |] eqn:Hprofile;
    try (stops_after [req]).
  rewrite bind_lift.
  destruct (getpath profile ["response"; "community"; "seeding"])
    as [seeding| |] eqn:Hseeding; try (stops_after [req]).
  rewrite bind_lift.
  destruct (page_count seeding) as [pages| |] eqn:Hpages; try (stops_after [req]).
  pose proof (readPages_events net base uid (range pages) s (tr ++ [req])%list) as H.
  destruct (readPages net (base ++ "/torrents.php") uid (range pages) s
                      (tr ++ [req])%list) as [r tr'].
  destruct H as (new & u & -> & Hev & Hframe).
  exists (req :: new). rewrite <- app_assoc. split; [reflexivity|]. split.
  - constructor; [now left | exact Hev].
  - intros s' Hs'. destruct (Hframe s' Hs') as (Hc & Ha & Hu & Hstr & ->).
    rewrite Huid in Hu. repeat split; try assumption.
    exists uid, u, profile, seeding, pages. repeat split; assumption.
Qed.

Lemma ajax_params_authkey (s s' : self) (action : string)
      (kwargs : list (string * pyval)) :
  authkey s' = authkey s -> ajax_params s' action kwargs = ajax_params s action kwargs.
Proof. intros H. unfold ajax_params. now rewrite H. Qed.

Lemma scan_turn_authkey (s s' : self) (base : string) (id : Z * Z) (evs : trace) :
  authkey s' = authkey s -> scan_turn s' base id evs -> scan_turn s base id evs.
Proof.
  intros H (progress & heartbeat & ->). exists progress, heartbeat.
  now rewrite (ajax_params_authkey s s' _ _ H).
Qed.

Lemma scanTorrent_turn
      (net : trace -> string -> list (string * pyval) -> Response)
      (all : list (Z * Z)) (id : Z * Z) (s : self) (base : string) (tr : trace) :
  getitem (config s) "url" = Ok (PyStr base) ->
  match scanTorrent net all id s tr with
  | (r, tr') =>
      exists new,
        tr' = (tr ++ new)%list
        /\ Forall (fetch_event base) new
        /\ forall s', r = Ok s' ->
                      config s' = config s /\ authkey s' = authkey s
                      /\ scan_turn s base id new
  end.
Proof.
  intros Hurl. unfold scanTorrent. rewrite bind_lift.
  destruct (index_of snatch_eqb id all) as [i| |];
    try (exists []; rewrite app_nil_r;
         split; [reflexivity | split; [constructor | discriminate]]).
  rewrite bind_lift.
  destruct (truediv i (Z.of_nat (List.length all))) as [f| |];
    try (exists []; rewrite app_nil_r;
         split; [reflexivity | split; [constructor | discriminate]]).
  unfold bind at 1. unfold printProgressBar, emit. unfold bind at 1.
  rewrite (ajaxrequest_unfold net s "torrent" _ base _ Hurl).
  assert (Hev : forall b p,
             Forall (fetch_event base)
                    [ProgressBar f 40 b; SessionGet (base ++ "/ajax.php") p]).
  { intros b p. constructor; [exact I|]. constructor; [now left | constructor]. }
  destruct (decode_response _) as [answer| |];
    try (eexists; rewrite <- app_assoc;
         split; [reflexivity | split; [apply Hev | discriminate]]).
  rewrite bind_lift.
  destruct (getitem answer "response") as [data| |];
    cbn [ret]; eexists; rewrite <- app_assoc;
    (split; [reflexivity | split; [apply Hev|]]); try discriminate.
  intros s' [= <-]. cbn [config authkey]. repeat split. eexists _, _. reflexivity.
Qed.

(** What [scanTorrents] sends: turn after turn, one per record. *)
Lemma scanLoop_events
      (net : trace -> string -> list (string * pyval) -> Response)
      (all ids : list (Z * Z)) (s : self) (base : string) (tr : trace) :
  getitem (config s) "url" = Ok (PyStr base) ->
  match scanLoop net all ids s tr with
  | (r, tr') =>
      exists new,
        tr' = (tr ++ new)%list
        /\ Forall (fetch_event base) new
        /\ forall s', r = Ok s' ->
                      exists turns,
                        Forall2 (scan_turn s base) ids turns
                        /\ new = List.concat turns
  end.
Proof.
  intros Hurl. revert s tr Hurl. induction ids as [|id ids IH]; intros s tr Hurl.
  - exists []. cbn [scanLoop ret]. rewrite app_nil_r.
    split; [reflexivity|]. split; [constructor|].
    intros s' _. exists []. split; [constructor | reflexivity].
  - cbn [scanLoop]. unfold bind at 1.
    pose proof (scanTorrent_turn net all id s base tr Hurl) as Hstep.
    destruct (scanTorrent net all id s tr) as [[s1| |] tr1];
      destruct Hstep as (new1 & -> & Hev1 & Hok);
      try (exists new1; split; [reflexivity | split; [exact Hev1 | discriminate]]).
    destruct (Hok s1 eq_refl) as (Hc & Ha & Hturn).
    assert (Hurl1 : getitem (config s1) "url" = Ok (PyStr base))
      by (now rewrite Hc).
    specialize (IH s1 (tr ++ new1)%list Hurl1).
    destruct (scanLoop net all ids s1 (tr ++ new1)%list) as [r tr2].
    destruct IH as (new & -> & Hev & Hturns).
    exists (new1 ++ new)%list. rewrite app_assoc. split; [reflexivity|].
    split; [now apply Forall_app|].
    intros s' Hs'. destruct (Hturns s' Hs') as (turns & HF & ->).
    exists (new1 :: turns). split; [|reflexivity].
    constructor; [exact Hturn|].
    revert HF. apply Forall2_impl. intros a b. now apply scan_turn_authkey.
Qed.

Lemma store_session_frame (s s1 : self) (indexjson : pyval) :
  Run.store_session s indexjson = Ok s1 ->
  config s1 = config s /\ snatches s1 = snatches s /\ torrentdata s1 = torrentdata s
  /\ ((authkey s1 = authkey s /\ userid s1 = userid s)
      \/ (exists uid,
             userid s1 = Some uid
             /\ getpath indexjson ["response"; "authkey"] = Ok (authkey s1)
             /\ getpath indexjson ["response"; "id"] = Ok uid)).
Proof.
  unfold Run.store_session. intros H.
  destruct (Run.truthy indexjson); [|injection H as <-; tauto].
  destruct (getitem indexjson "response") as [response| |] eqn:Hr; try discriminate H.
  cbn [rbind] in H.
  destruct (contains response (Some "authkey")) as [a| |]; try discriminate H.
  cbn [rbind] in H.
  destruct (contains response (Some "passkey")) as [p| |]; try discriminate H.
  cbn [rbind] in H.
  destruct (contains response (Some "id")) as [i| |]; try discriminate H.
  cbn [rbind] in H.
  destruct (a && p && i); [|injection H as <-; tauto].
  destruct (getitem response "authkey") as [key| |] eqn:Hk; try discriminate H.
  cbn [rbind] in H.
  destruct (getitem response "passkey") as [pk| |]; try discriminate H.
  cbn [rbind] in H.
  destruct (getitem response "id") as [id| |] eqn:Hi; try discriminate H.
  cbn [rbind] in H. injection H as <-. cbn [config snatches torrentdata authkey userid].
  repeat split. right. exists id. split; [reflexivity|].
  cbn [getpath]. rewrite Hr. cbn [rbind]. rewrite Hk, Hi. split; reflexivity.
Qed.

Lemma makeDirs_log (w : Run.world) (destdirs : pyval) (formats : list pyval)
      (lg : Run.log) :
  exists dirs,
    snd (Run.makeDirs w destdirs formats lg) = (lg ++ map Run.Makedirs dirs)%list.
Proof.
  revert lg. induction formats as [|format formats IH]; intros lg.
  - exists []. cbn. now rewrite app_nil_r.
  - cbn [Run.makeDirs]. rewrite run_bind_lift.
    destruct (Run.getitem_iterated destdirs format) as [dir| |];
      try (exists []; cbn; now rewrite app_nil_r).
    unfold Run.bind at 1.
    destruct dir as [| b | z | p | xs | kvs]; cbn [Run.os_path_isdir];
      try (exists []; cbn; now rewrite app_nil_r).
    destruct (negb (String.eqb p "") && Run.isdir w lg p).
    + unfold Run.bind at 1. cbn [Run.ret]. apply IH.
    + unfold Run.bind at 1. cbn [Run.os_makedirs]. unfold Run.bind at 1.
      cbn [Run.perform].
      destruct (String.eqb p ""); [now exists [p]|]. cbn [Run.ret].
      destruct (IH (lg ++ [Run.Makedirs p])%list) as (dirs & Hdirs).
      exists (p :: dirs). rewrite Hdirs, <- app_assoc. reflexivity.
Qed.

Lemma prepareDirs_log (w : Run.world) (s : self) (lg : Run.log) :
  exists dirs,
    snd (Run.prepareDirs w s lg) = (lg ++ map Run.Makedirs dirs)%list.
Proof.
  unfold Run.prepareDirs. rewrite run_bind_lift.
  destruct (getitem (config s) "destdirs") as [destdirs| |];
    try (exists []; cbn; now rewrite app_nil_r).
  rewrite run_bind_lift.
  destruct (iterate destdirs) as [formats| |];
    try (exists []; cbn; now rewrite app_nil_r).
  unfold Run.bind at 1.
  destruct (makeDirs_log w destdirs formats lg) as (dirs & Hdirs).
  destruct (Run.makeDirs w destdirs formats lg) as [[[]| |] lg1];
    cbn [snd] in Hdirs; subst lg1; try (now exists dirs).
  exists dirs. rewrite run_bind_lift.
  destruct (getitem (config s) "torrentdir") as [torrentdir| |]; try reflexivity.
  unfold Run.bind at 1.
  destruct torrentdir as [| b | z | p | xs | kvs]; cbn [Run.os_path_isdir];
    try reflexivity.
  destruct (negb (String.eqb p "") && Run.isdir w _ p); [reflexivity|].
  rewrite run_bind_lift. reflexivity.
Qed.

(** *** The log of a run *)

Ltac same_log :=
  cbn [map app]; rewrite ?app_nil_r, <- ?app_assoc; cbn [map app];
  rewrite ?app_nil_r; reflexivity.

(** Whatever comes of it, a run on a checked configuration leaves a log of
    this shape: the login form, the [index] request, the events of
    [getSnatched], the directories created, the events of [scanTorrents],
    the commands of [processFiles], and last the logout request, which is
    there exactly when the run returns 0; and then each phase has gone
    through. *)
Lemma run_log_shape (w : Run.world) (cfg : pyval) (base username password : string)
      (lg : Run.log) :
  typed_config cfg ->
  getitem cfg "url" = Ok (PyStr base) ->
  getitem cfg "username" = Ok (PyStr username) ->
  getitem cfg "password" = Ok (PyStr password) ->
  match Run.run w (Run.Configured (fresh cfg)) lg with
  | (out, lg') =>
      exists fetch dirs scan cps tail,
        lg' = (lg ++ login_post base username password :: index_request base
                  :: map Run.Core fetch ++ map Run.Makedirs dirs
                  ++ map Run.Core scan ++ map Run.Core cps ++ tail)%list
        /\ Forall (fetch_event base) fetch
        /\ Forall (fetch_event base) scan
        /\ Forall is_cp cps
        /\ (out = Run.Returns 0 ->
            exists indexjson key uid text u profile seeding pages records turns,
              decode_response
                (Run.get w (lg ++ [login_post base username password])%list
                         (base ++ "/ajax.php") [("action", PyStr "index")])
              = Ok indexjson
              /\ getpath indexjson ["response"; "authkey"] = Ok key
              /\ getpath indexjson ["response"; "id"] = Ok uid
              /\ str key = Ok text
              /\ decode_response
                   (Run.get w (lg ++ [login_post base username password;
                                      index_request base])%list
                            (base ++ "/ajax.php")
                            (ajax_params (session cfg key uid) "user" [("id", uid)]))
                 = Ok profile
              /\ getpath profile ["response"; "community"; "seeding"] = Ok seeding
              /\ page_count seeding = Ok pages
              /\ (str uid = Ok u \/ range pages = [])
              /\ fetch = SessionGet (base ++ "/ajax.php")
                                    (ajax_params (session cfg key uid) "user"
                                                 [("id", uid)])
                         :: map (page_request (base ++ "/torrents.php") u)
                                (range pages)
              /\ Forall2 (scan_turn (session cfg key uid) base) records turns
              /\ scan = List.concat turns
              /\ tail = [logout_request base text])
        /\ (out <> Run.Returns 0 -> tail = [])
  end.
Proof.
  intros Ht Hu Hn Hp.
  rewrite (run_until_index w cfg base username password lg Ht Hu Hn Hp).
  set (lg1 := (lg ++ [login_post base username password; index_request base])%list).
  assert (Hstop : forall (Succ : list event -> list event -> Run.log -> Prop)
                          (e : Run.outcome Z) fetch dirs scan cps,
             e <> Run.Returns 0 ->
             Forall (fetch_event base) fetch -> Forall (fetch_event base) scan ->
             Forall is_cp cps ->
             exists fetch' dirs' scan' cps' tail,
               ((((lg1 ++ map Run.Core fetch) ++ map Run.Makedirs dirs)
                 ++ map Run.Core scan) ++ map Run.Core cps)%list
               = (lg ++ login_post base username password :: index_request base
                     :: map Run.Core fetch' ++ map Run.Makedirs dirs'
                     ++ map Run.Core scan' ++ map Run.Core cps' ++ tail)%list
               /\ Forall (fetch_event base) fetch'
               /\ Forall (fetch_event base) scan'
               /\ Forall is_cp cps'
               /\ (e = Run.Returns 0 -> Succ fetch' scan' tail)
               /\ (e <> Run.Returns 0 -> tail = [])).
  { intros Succ e fetch dirs scan cps He Hf Hs Hc.
    exists fetch, dirs, scan, cps, []. unfold lg1.
    split; [same_log|]. repeat split; try assumption. intros H. now elim He. }
  assert (Hnil : forall l : Run.log,
             l = ((((l ++ map Run.Core []) ++ map Run.Makedirs [])
                   ++ map Run.Core []) ++ map Run.Core [])%list).
  { intros l. cbn [map]. now rewrite !app_nil_r. }
  rewrite run_bind_lift.
  destruct (decode_response _) as [indexjson| |] eqn:Hj;
    try (rewrite (Hnil lg1);
         apply (Hstop (fun fetch scan tail => _)); (discriminate || constructor)).
  rewrite run_bind_lift.
  destruct (store_session_of cfg indexjson) as [s1| |] eqn:Hs1;
    try (rewrite (Hnil lg1);
         apply (Hstop (fun fetch scan tail => _)); (discriminate || constructor)).
  apply store_session_frame in Hs1.
  destruct Hs1 as (Hc1 & Hsn1 & Htd1 & Hkey).
  cbn [fresh config authkey userid snatches torrentdata] in Hc1, Hsn1, Htd1, Hkey.
  assert (Hu1 : getitem (config s1) "url" = Ok (PyStr base)) by (now rewrite Hc1).
  (* getSnatched *)
  unfold Run.bind at 1. unfold Run.core at 1.
  match goal with
  | |- context [getSnatched ?net s1 []] =>
      pose proof (getSnatched_events net s1 base [] Hu1) as Hg;
      destruct (getSnatched net s1 []) as [r fetch]
  end.
  destruct Hg as (new & -> & Hfetch & Hframe). cbn [app].
  destruct r as [s2| |]; cbn [Run.lift];
    try (replace (lg1 ++ map Run.Core new)%list
           with ((((lg1 ++ map Run.Core new) ++ map Run.Makedirs [])
                  ++ map Run.Core []) ++ map Run.Core [])%list
           by (cbn [map]; now rewrite !app_nil_r);
         apply (Hstop (fun fetch scan tail => _));
         (discriminate || assumption || constructor)).
  destruct (Hframe s2 eq_refl)
    as (Hc2 & Ha2 & _ & uid & u & profile & seeding & pages & Hid & Hprofile
        & Hseeding & Hpages & Hstr & Hnew).
  cbn [map] in Hprofile. rewrite app_nil_r in Hprofile.
  assert (Hu2 : getitem (config s2) "url" = Ok (PyStr base)) by (now rewrite Hc2).
  assert (Hsession : s1 = session cfg (authkey s1) uid).
  { destruct s1 as [c k i sn td].
    cbn [config authkey userid snatches torrentdata] in *. unfold session.
    congruence. }
  (* prepareDirs *)
  unfold Run.bind at 1.
  destruct (prepareDirs_log w s2 (lg1 ++ map Run.Core new)%list) as (dirs & Hdirs).
  destruct (Run.prepareDirs w s2 (lg1 ++ map Run.Core new)%list) as [[[]| |] lg3];
    cbn [snd] in Hdirs; subst lg3;
    try (replace ((lg1 ++ map Run.Core new) ++ map Run.Makedirs dirs)%list
           with ((((lg1 ++ map Run.Core new) ++ map Run.Makedirs dirs)
                  ++ map Run.Core []) ++ map Run.Core [])%list
           by (cbn [map]; now rewrite !app_nil_r);
         apply (Hstop (fun fetch scan tail => _));
         (discriminate || assumption || constructor)).
  (* scanTorrents *)
  unfold Run.bind at 1. unfold Run.core at 1. unfold scanTorrents.
  match goal with
  | |- context [scanLoop ?net ?all ?ids s2 []] =>
      pose proof (scanLoop_events net all ids s2 base [] Hu2) as Hsc;
      destruct (scanLoop net all ids s2 []) as [r scan] eqn:Hscan
  end.
  destruct Hsc as (scan' & -> & Hscanev & Hturns). cbn [app] in *.
  destruct r as [s3| |]; cbn [Run.lift];
    try (replace (((lg1 ++ map Run.Core new) ++ map Run.Makedirs dirs)
                  ++ map Run.Core scan')%list
           with ((((lg1 ++ map Run.Core new) ++ map Run.Makedirs dirs)
                  ++ map Run.Core scan') ++ map Run.Core [])%list
           by (cbn [map]; now rewrite !app_nil_r);
         apply (Hstop (fun fetch scan tail => _));
         (discriminate || assumption || constructor)).
  destruct (Hturns s3 eq_refl) as (turns & Hall & Hconcat).
  apply (scanLoop_stores _ _ _ s2 s3 base [] scan' Hu2) in Hscan.
  destruct Hscan as (Hc3 & Ha3 & _).
  (* processFiles *)
  unfold Run.bind at 1. unfold Run.core at 1. unfold processFiles.
  destruct (processLoop_effects (Run.charref_sub w) (config s3) (torrentdata s3) [])
    as (cps & Hcps & Hcp & _).
  destruct (processLoop (Run.charref_sub w) (config s3) (torrentdata s3) [])
    as [r cps'].
  cbn [snd app] in Hcps. subst cps'.
  destruct r as [[]| |]; cbn [Run.lift];
    try (apply (Hstop (fun fetch scan tail => _)); (discriminate || assumption)).
  (* logout *)
  unfold Run.bind at 1. unfold Run.logout.
  rewrite run_bind_lift, Hc3, Hc2, Hc1, Hu. cbn [add_str].
  rewrite run_bind_lift, run_bind_lift.
  destruct (str (authkey s3)) as [text| |] eqn:Htext;
    try (apply (Hstop (fun fetch scan tail => _)); (discriminate || assumption)).
  cbn [Run.perform Run.ret].
  exists new, dirs, scan', cps, [logout_request base text].
  split.
  { unfold lg1, logout_request. rewrite string_app_assoc. same_log. }
  repeat split; try assumption.
  { intros _.
    destruct Hkey as [[_ Hnone]|(uid' & Huid' & Hgetkey & Hgetid)];
      [rewrite Hnone in Hid; discriminate Hid|].
    assert (uid' = uid) as -> by congruence.
    rewrite Ha3, Ha2 in Htext.
    rewrite Hsession in Hprofile, Hnew.
    cbn [authkey session] in Hprofile, Hnew.
    exists indexjson, (authkey s1), uid, text, u, profile, seeding, pages,
      (snatches s2), turns.
    repeat split; try assumption.
    revert Hall. apply Forall2_impl. intros a b.
    apply scan_turn_authkey. cbn [session authkey]. now symmetry. }
  { intros H. now elim H. }
Qed.

Lemma run_unchecked (w : Run.world) (s : self) (lg : Run.log) :
  checkConfig (config s) <> Ok true ->
  Run.run w (Run.Configured s) lg = (Run.Returns 1, lg)
  \/ Run.run w (Run.Configured s) lg = (Run.Raises (Run.Inner TypeError), lg).
Proof.
  intros Hne. cbn [Run.run]. rewrite run_bind_lift.
  destruct (checkConfig_outcomes (config s)) as [H|[H|H]]; rewrite H;
    [contradiction | now left | now right].
Qed.

(** X15. A run that returns 0 has, in this order and without anything in
    between: posted the login form with the user name and the password of
    the configuration; sent the [index] request without a key; sent the
    profile request for the user id of the [index] answer, with its key;
    requested the pages of the list of seeded torrents, page 1 to the page
    count that the profile gives; created directories; for each record in
    turn, printed the progress bar and requested the metadata of the torrent;
    run its [cp] commands; and last sent the logout request with the key.
    So nothing is linked before the last metadata has arrived. *)
Theorem run_returning_0_log (w : Run.world) (cfg : pyval) (lg lg' : Run.log) :
  Run.run w (Run.Configured (fresh cfg)) lg = (Run.Returns 0, lg') ->
  exists base username password indexjson key uid text u profile seeding pages
         dirs records turns cps,
    getitem cfg "url" = Ok (PyStr base)
    /\ getitem cfg "username" = Ok (PyStr username)
    /\ getitem cfg "password" = Ok (PyStr password)
    /\ decode_response
         (Run.get w (lg ++ [login_post base username password])%list
                  (base ++ "/ajax.php") [("action", PyStr "index")])
       = Ok indexjson
    /\ getpath indexjson ["response"; "authkey"] = Ok key
    /\ getpath indexjson ["response"; "id"] = Ok uid
    /\ str key = Ok text
    /\ decode_response
         (Run.get w (lg ++ [login_post base username password;
                            index_request base])%list
                  (base ++ "/ajax.php")
                  (ajax_params (session cfg key uid) "user" [("id", uid)]))
       = Ok profile
    /\ getpath profile ["response"; "community"; "seeding"] = Ok seeding
    /\ page_count seeding = Ok pages
    /\ (str uid = Ok u \/ range pages = [])
    /\ Forall2 (scan_turn (session cfg key uid) base) records turns
    /\ Forall is_cp cps
    /\ lg' = (lg ++ login_post base username password :: index_request base
                 :: Run.Core (SessionGet (base ++ "/ajax.php")
                                (ajax_params (session cfg key uid) "user"
                                             [("id", uid)]))
                 :: map Run.Core (map (page_request (base ++ "/torrents.php") u)
                                      (range pages))
                 ++ map Run.Makedirs dirs
                 ++ map Run.Core (List.concat turns) ++ map Run.Core cps
                 ++ [logout_request base text])%list.
Proof.
  intros Hrun.
  destruct (checkConfig_outcomes cfg) as [Hc|Hc].
  - apply checkConfig_true in Hc.
    destruct (typed_config_fields cfg Hc) as (base & username & password & t & d
                                              & Hu & Hn & Hp & _).
    pose proof (run_log_shape w cfg base username password lg Hc Hu Hn Hp) as Hshape.
    rewrite Hrun in Hshape.
    destruct Hshape as (fetch & dirs & scan & cps & tail & Hlog & Hf & Hs & Hcp
                        & Hok & _).
    destruct (Hok eq_refl)
      as (indexjson & key & uid & text & u & profile & seeding & pages & records
          & turns & Hj & Hk & Hi & Ht & Hprofile & Hseeding & Hpages & Hstr
          & -> & Hturns & -> & ->).
    exists base, username, password, indexjson, key, uid, text, u, profile, seeding,
      pages, dirs, records, turns, cps.
    repeat split; assumption.
  - exfalso.
    destruct (run_unchecked w (fresh cfg) lg) as [H|H];
      [ cbn [fresh config]; destruct Hc as [Hc|Hc]; rewrite Hc; discriminate
      | rewrite H in Hrun; discriminate Hrun
      | rewrite H in Hrun; discriminate Hrun ].
Qed.

Lemma run_returning_0_log_witness :
  exists base username password indexjson key uid text u profile seeding pages
         dirs records turns cps,
    getitem scenario_config "url" = Ok (PyStr base)
    /\ getitem scenario_config "username" = Ok (PyStr username)
    /\ getitem scenario_config "password" = Ok (PyStr password)
    /\ decode_response
         (Run.get cooperative ([] ++ [login_post base username password])%list
                  (base ++ "/ajax.php") [("action", PyStr "index")])
       = Ok indexjson
    /\ getpath indexjson ["response"; "authkey"] = Ok key
    /\ getpath indexjson ["response"; "id"] = Ok uid
    /\ str key = Ok text
    /\ decode_response
         (Run.get cooperative ([] ++ [login_post base username password;
                                      index_request base])%list
                  (base ++ "/ajax.php")
                  (ajax_params (session scenario_config key uid) "user"
                               [("id", uid)]))
       = Ok profile
    /\ getpath profile ["response"; "community"; "seeding"] = Ok seeding
    /\ page_count seeding = Ok pages
    /\ (str uid = Ok u \/ range pages = [])
    /\ Forall2 (scan_turn (session scenario_config key uid) base) records turns
    /\ Forall is_cp cps
    /\ cooperative_log
       = ([] ++ login_post base username password :: index_request base
             :: Run.Core (SessionGet (base ++ "/ajax.php")
                            (ajax_params (session scenario_config key uid) "user"
                                         [("id", uid)]))
             :: map Run.Core (map (page_request (base ++ "/torrents.php") u)
                                  (range pages))
             ++ map Run.Makedirs dirs
             ++ map Run.Core (List.concat turns) ++ map Run.Core cps
             ++ [logout_request base text])%list.
Proof.
  apply (run_returning_0_log cooperative scenario_config [] cooperative_log).
  vm_compute. reflexivity.
Defined.

(** *** No logout after a failure *)

Lemma string_app_inv_head (a b c : string) : (a ++ b = a ++ c)%string -> b = c.
Proof.
  induction a as [|x a IH]; cbn [String.append]; [tauto|].
  intros [= H]. now apply IH.
Qed.

Lemma fetch_event_not_logout (base text : string) :
  ~ fetch_event base (SessionGet (base ++ "/logout.php?auth=" ++ text) []).
Proof.
  cbn [fetch_event]. intros [H|(rest & H & _)];
    apply string_app_inv_head in H; discriminate H.
Qed.

(** X16. A run that ends in any other way than returning 0 has sent no
    logout request: an exception anywhere between login and logout leaves
    the session of the tracker open. *)
Theorem failed_run_sends_no_logout
        (w : Run.world) (cfg : pyval) (base : string) (lg lg' : Run.log)
        (out : Run.outcome Z) :
  getitem cfg "url" = Ok (PyStr base) ->
  Run.run w (Run.Configured (fresh cfg)) lg = (out, lg') ->
  out <> Run.Returns 0 ->
  exists new,
    lg' = (lg ++ new)%list
    /\ forall text, ~ In (logout_request base text) new.
Proof.
  intros Hu Hrun Hfail.
  destruct (checkConfig_outcomes cfg) as [Hc|Hc].
  - apply checkConfig_true in Hc.
    destruct (typed_config_fields cfg Hc) as (base' & username & password & t & d
                                              & Hu' & Hn & Hp & _).
    assert (base' = base) as -> by congruence.
    pose proof (run_log_shape w cfg base username password lg Hc Hu Hn Hp) as Hshape.
    rewrite Hrun in Hshape.
    destruct Hshape as (fetch & dirs & scan & cps & tail & -> & Hf & Hs & Hcp
                        & _ & Hnil).
    rewrite (Hnil Hfail). eexists. split; [reflexivity|].
    intros text Hin. unfold logout_request in Hin.
    destruct Hin as [Hin|[Hin|Hin]]; try discriminate Hin.
    rewrite !in_app_iff in Hin.
    assert (Hnot : forall evs, Forall (fetch_event base) evs ->
                     ~ In (Run.Core (SessionGet (base ++ "/logout.php?auth=" ++ text) []))
                          (map Run.Core evs)).
    { intros evs Hall Hin'. apply in_map_iff in Hin'.
      destruct Hin' as (ev & [= ->] & Hev).
      rewrite Forall_forall in Hall.
      exact (fetch_event_not_logout base text (Hall _ Hev)). }
    destruct Hin as [Hin|[Hin|[Hin|[Hin|[]]]]].
    + exact (Hnot fetch Hf Hin).
    + apply in_map_iff in Hin. destruct Hin as (p & Hp' & _). discriminate Hp'.
    + exact (Hnot scan Hs Hin).
    + apply in_map_iff in Hin. destruct Hin as (ev & [= ->] & Hev).
      rewrite Forall_forall in Hcp. destruct (Hcp _ Hev) as (src & dst & Hcmd).
      discriminate Hcmd.
  - exists []. rewrite app_nil_r.
    destruct (run_unchecked w (fresh cfg) lg) as [H|H];
      [ cbn [fresh config]; destruct Hc as [Hc|Hc]; rewrite Hc; discriminate
      | rewrite H in Hrun; injection Hrun as _ <-; split; [reflexivity | intros text []]
      | rewrite H in Hrun; injection Hrun as _ <-; split; [reflexivity | intros text []] ].
Qed.

Lemma failed_run_sends_no_logout_witness :
  exists new,
    [login_post "https://tracker.example" "user" "secret";
     index_request "https://tracker.example"]
    = ([] ++ new)%list
    /\ forall text, ~ In (logout_request "https://tracker.example" text) new.
Proof.
  apply (failed_run_sends_no_logout
           (refusing (PyDict [("status", PyStr "failure")]))
           scenario_config "https://tracker.example" []
           [login_post "https://tracker.example" "user" "secret";
            index_request "https://tracker.example"]
           (Run.Raises
              (Run.Inner
                 (RequestException
                    "Request 'https://tracker.example/ajax.php' failed. No Error message was returned by API.")))).
  - reflexivity.
  - vm_compute. reflexivity.
  - discriminate.
Defined.

(** *** What the redaction leaves in view *)

Lemma match_auth_first (c : ascii) (s : string) (x : unit * nat) :
  match_auth (String c s) = Some x -> c = "a"%char.
Proof.
  unfold match_auth. cbn [strip_prefix].
  destruct (Ascii.eqb "a" c) eqn:E; [|discriminate].
  intros _. apply Ascii.eqb_eq in E. now subst.
Qed.

Lemma follows_hex_cons (x : ascii) (p : string) (c : ascii) (s : string) :
  follows_hex (String x p) (String c s)
  = if Ascii.eqb x c then follows_hex p s else false.
Proof.
  unfold follows_hex. cbn [strip_prefix]. destruct (Ascii.eqb x c); reflexivity.
Qed.

Lemma match_auth_follows (s : string) :
  follows_hex "auth=" s = true -> match_auth s <> None.
Proof.
  unfold follows_hex, match_auth.
  destruct (strip_prefix "auth=" s) as [rest|]; [|discriminate].
  destruct rest as [|h rest]; [discriminate|].
  cbn [starts_in span]. intros ->.
  destruct (span is_hex rest). cbn [fst]. discriminate.
Qed.

(** What the redacted text goes on with, the text went on with. *)
Lemma redact_follows (p v : string) :
  contains_char "a" p = false ->
  follows_hex p (redact v) = true -> follows_hex p v = true.
Proof.
  unfold redact, re_sub. revert v. induction p as [|x p IH]; intros v Hp H.
  - destruct v as [|c v]; [discriminate H|].
    cbn [scan] in H. unfold follows_hex in *. cbn [strip_prefix starts_in] in *.
    destruct (match_auth (String c v)) as [[[] n]|] eqn:E.
    + apply match_auth_first in E. subst c. reflexivity.
    + exact H.
  - cbn [contains_char] in Hp. apply orb_false_iff in Hp. destruct Hp as [Hx Hp].
    destruct v as [|c v]; [discriminate H|].
    cbn [scan] in H. rewrite follows_hex_cons.
    destruct (match_auth (String c v)) as [[[] n]|] eqn:E.
    + cbn [substitute] in H.
      change ("auth=REDACTED" ++ ?t)%string
        with (String "a" ("uth=REDACTED" ++ t))%string in H.
      rewrite follows_hex_cons, Hx in H. discriminate H.
    + cbn [substitute] in H. rewrite follows_hex_cons in H.
      destruct (Ascii.eqb x c); [|discriminate H]. now apply IH.
Qed.

Lemma unmatched_shows_nothing (c : ascii) (s : string) :
  match_auth (String c s) = None ->
  follows_hex "auth=" (String c (redact s)) = false.
Proof.
  intros Hnone. destruct (follows_hex "auth=" (String c (redact s))) eqn:F;
    [exfalso | reflexivity].
  rewrite follows_hex_cons in F.
  destruct (Ascii.eqb "a" c) eqn:E; [|discriminate F].
  apply Ascii.eqb_eq in E. subst c.
  apply redact_follows in F; [|reflexivity].
  apply (match_auth_follows (String "a" s)); [|exact Hnone].
  rewrite follows_hex_cons. exact F.
Qed.

Lemma replacement_shows_nothing (t : string) :
  shows_key ("auth=REDACTED" ++ t) = shows_key t.
Proof.
  change ("auth=REDACTED" ++ t)%string
    with (String "a" (String "u" (String "t" (String "h" (String "="
           (String "R" (String "E" (String "D" (String "A" (String "C"
           (String "T" (String "E" (String "D" t))))))))))))).
  cbn [shows_key]. rewrite !follows_hex_cons.
  repeat match goal with
         | |- context [Ascii.eqb ?a ?b] =>
             let v := eval vm_compute in (Ascii.eqb a b) in
             change (Ascii.eqb a b) with v
         end.
  cbn [orb]. unfold follows_hex at 1. cbn [strip_prefix starts_in].
  change (is_hex "R") with false. reflexivity.
Qed.

Lemma redacted_scan (s : string) (k : nat) :
  shows_key (substitute "auth=REDACTED" (scan match_auth k s)) = false.
Proof.
  revert k. induction s as [|c s IH]; intros k; [reflexivity|].
  destruct k as [|k]; cbn [scan]; [|apply IH].
  destruct (match_auth (String c s)) as [[[] n]|] eqn:E; cbn [substitute].
  - rewrite replacement_shows_nothing. apply IH.
  - cbn [shows_key]. fold (re_sub match_auth "auth=REDACTED" s). fold (redact s).
    rewrite (unmatched_shows_nothing c s E). cbn [orb]. apply IH.
Qed.

Lemma no_auth_quiet (u : string) :
  is_substring "auth=" u = false -> quiet match_auth u "".
Proof.
  induction u as [|c u IH]; intros H; [exact I|].
  cbn [is_substring] in H. apply orb_false_iff in H. destruct H as [Hs Hsub].
  split; [|now apply IH].
  rewrite string_app_nil_r. unfold match_auth, startswith in *.
  destruct (strip_prefix "auth=" (String c u)); [discriminate Hs | reflexivity].
Qed.

(** What a match of the pattern is. *)
Lemma match_auth_inv (s : string) (x : unit) (n : nat) :
  match_auth s = Some (x, n) ->
  exists key rest,
    s = ("auth=" ++ key ++ rest)%string
    /\ key <> "" /\ all_chars is_hex key = true /\ starts_in is_hex rest = false
    /\ n = (5 + String.length key)%nat.
Proof.
  unfold match_auth.
  destruct (strip_prefix "auth=" s) as [s1|] eqn:E0; [|discriminate].
  destruct (span is_hex s1) as [key rest] eqn:E1. cbn [fst].
  destruct key as [|h key]; [discriminate|]. intros [= _ <-].
  apply strip_prefix_spec in E0. apply span_spec in E1.
  destruct E1 as (-> & Hhex & Hrest). exists (String h key), rest.
  repeat split; try assumption. discriminate.
Qed.

Lemma match_auth_none (s : string) :
  follows_hex "auth=" s = false -> match_auth s = None.
Proof.
  intros H. destruct (match_auth s) as [[x n]|] eqn:E; [exfalso | reflexivity].
  apply match_auth_inv in E.
  destruct E as (key & rest & -> & Hne & Hhex & _).
  unfold follows_hex in H. rewrite strip_prefix_app in H.
  destruct key as [|h key]; [contradiction|].
  cbn [String.append starts_in all_chars] in *.
  apply andb_true_iff in Hhex. destruct Hhex as [Hh _]. congruence.
Qed.

Lemma follows_hex_none (s : string) :
  match_auth s = None -> follows_hex "auth=" s = false.
Proof.
  intros H. destruct (follows_hex "auth=" s) eqn:F; [exfalso | reflexivity].
  now apply match_auth_follows in F.
Qed.

Lemma quiet_no_key (gap rest : string) :
  no_key_starts gap rest -> quiet match_auth gap rest.
Proof.
  induction gap as [|c gap IH]; intros H; [exact I|].
  destruct H as [Hn H]. split; [now apply match_auth_none | now apply IH].
Qed.

(** The redaction follows the reading. *)
Lemma redacts_sound (target out : string) :
  redacts target out -> redact target = out.
Proof.
  unfold redact.
  induction 1 as [gap Hq | gap key rest out Hq Hne Hhex Hrest _ IH].
  - unfold re_sub. rewrite <- (string_app_nil_r gap) at 1.
    rewrite (scan_quiet match_auth gap "" (quiet_no_key _ _ Hq)).
    rewrite substitute_unmatched. cbn [scan substitute]. apply string_app_nil_r.
  - unfold re_sub in *.
    rewrite (scan_quiet match_auth gap _ (quiet_no_key _ _ Hq)).
    rewrite substitute_unmatched. f_equal.
    change ("auth=" ++ key ++ rest)%string
      with (String "a" ("uth=" ++ key) ++ rest)%string.
    rewrite (scan_matched match_auth "a" ("uth=" ++ key) rest tt).
    + cbn [substitute]. now rewrite IH.
    + change (String "a" ("uth=" ++ key) ++ rest)%string
        with ("auth=" ++ key ++ rest)%string.
      rewrite (match_auth_key key rest Hne Hhex Hrest). reflexivity.
Qed.

Lemma redacts_skip (c : ascii) (s out : string) :
  follows_hex "auth=" (String c s) = false ->
  redacts s out -> redacts (String c s) (String c out).
Proof.
  intros Hn Hr. destruct Hr as [gap Hq | gap key rest out Hq Hne Hhex Hrest Hr].
  - apply redacts_end. cbn [no_key_starts String.append].
    rewrite string_app_nil_r. now split.
  - change (String c (gap ++ "auth=" ++ key ++ rest))
      with (String c gap ++ "auth=" ++ key ++ rest)%string.
    change (String c (gap ++ "auth=REDACTED" ++ out))
      with (String c gap ++ "auth=REDACTED" ++ out)%string.
    apply redacts_key; try assumption. now split.
Qed.

(** Every text has a reading, and the scan follows it. *)
Lemma redacts_scan (s : string) (k : nat) :
  redacts (drop k s) (substitute "auth=REDACTED" (scan match_auth k s)).
Proof.
  revert k. induction s as [|c s IH]; intros k.
  - destruct k; apply redacts_end; exact I.
  - destruct k as [|k]; [|exact (IH k)].
    cbn [drop scan].
    destruct (match_auth (String c s)) as [[[] n]|] eqn:E.
    + destruct (match_auth_inv _ _ _ E) as (key & rest & Hs & Hne & Hhex & Hrest & ->).
      change ("auth=" ++ key ++ rest)%string
        with (String "a" (("uth=" ++ key) ++ rest))%string in Hs.
      injection Hs as Hc Hs. subst c.
      specialize (IH (String.length ("uth=" ++ key)%string)).
      assert (Hd : drop (String.length ("uth=" ++ key)%string) s = rest)
        by (rewrite Hs; apply drop_app).
      rewrite Hd in IH. cbn [Nat.pred plus substitute].
      replace (String "a" s) with ("" ++ "auth=" ++ key ++ rest)%string
        by (rewrite Hs; reflexivity).
      exact (redacts_key "" key rest _ I Hne Hhex Hrest IH).
    + cbn [substitute]. apply redacts_skip; [now apply follows_hex_none|].
      exact (IH 0%nat).
Qed.

(** X17. The redacted form of a URL is the URL in which, from left to
    right, each "auth=" that a hexadecimal digit follows has lost the run of
    hexadecimal digits behind it, the whole run up to the first character
    that is none, and has "REDACTED" in its place; everything else is kept.
    This is the only such reading of the URL.  So the redacted form shows no
    "auth=" followed by a hexadecimal digit: the replacement text cannot
    make up a new one.  A URL that holds no "auth=" is reported as it is. *)
Theorem redaction_hides_every_key (target : string) :
  redacts target (redact target)
  /\ (forall out, redacts target out -> out = redact target)
  /\ shows_key (redact target) = false
  /\ (is_substring "auth=" target = false -> redact target = target).
Proof.
  split; [|split; [|split]].
  - exact (redacts_scan target 0).
  - intros out H. symmetry. now apply redacts_sound.
  - apply redacted_scan.
  - intros H. unfold redact, re_sub.
    rewrite <- (string_app_nil_r target) at 1.
    rewrite (scan_quiet match_auth target "" (no_auth_quiet target H)).
    rewrite substitute_unmatched. cbn [scan substitute]. apply string_app_nil_r.
Qed.

Lemma redaction_hides_every_key_witness :
  redacts "https://tracker.example/ajax.php?action=index&auth=0123abcdef&id=7"
          "https://tracker.example/ajax.php?action=index&auth=REDACTED&id=7"
  /\ shows_key (redact "https://tracker.example/ajax.php?action=index&auth=auth=0123abcdef")
     = false
  /\ redact "https://tracker.example/ajax.php?action=index"
     = "https://tracker.example/ajax.php?action=index".
Proof.
  split; [|split].
  - exact (proj1 (redaction_hides_every_key
                    "https://tracker.example/ajax.php?action=index&auth=0123abcdef&id=7")).
  - apply (proj1 (proj2 (proj2 (redaction_hides_every_key
                    "https://tracker.example/ajax.php?action=index&auth=auth=0123abcdef")))).
  - apply (proj2 (proj2 (proj2 (redaction_hides_every_key
                    "https://tracker.example/ajax.php?action=index")))).
    vm_compute. reflexivity.
Defined.

(** The key of a doubled "auth=" is the "a" of the second one: the digits
    behind it stay in view. *)
Example redact_doubled_auth :
  redact "x?a=1&auth=auth=0123abcdef" = "x?a=1&auth=REDACTEDuth=0123abcdef".
Proof. reflexivity. Qed.

(** *** One entry per torrent *)

Lemma dict_set_keys (d : list (Z * pyval)) (k : Z) (v : pyval) :
  map fst (dict_set Z.eqb d k v)
  = if existsb (Z.eqb k) (map fst d) then map fst d else (map fst d ++ [k])%list.
Proof.
  induction d as [|[k' v'] d IH]; cbn [dict_set map fst existsb app]; [reflexivity|].
  rewrite (Z.eqb_sym k k'). destruct (Z.eqb_spec k' k) as [->|Hne]; cbn [orb map fst].
  - reflexivity.
  - rewrite IH. destruct (existsb (Z.eqb k) (map fst d)); reflexivity.
Qed.

Lemma dict_set_NoDup (d : list (Z * pyval)) (k : Z) (v : pyval) :
  NoDup (map fst d) -> NoDup (map fst (dict_set Z.eqb d k v)).
Proof.
  intros Hnd. rewrite dict_set_keys.
  destruct (existsb (Z.eqb k) (map fst d)) eqn:E; [exact Hnd|].
  apply NoDup_app; [exact Hnd | repeat constructor; intros [] |].
  intros x Hin [<-|[]].
  assert (existsb (Z.eqb k) (map fst d) = true) as Hx
      by (apply existsb_exists; exists k; split; [exact Hin | apply Z.eqb_refl]).
  congruence.
Qed.

Lemma has_key_in (d : list (Z * pyval)) (k : Z) : has_key d k <-> In k (map fst d).
Proof.
  unfold has_key. rewrite in_map_iff. split.
  - intros [v Hv]. now exists (k, v).
  - intros ([k' v] & Hk & Hin). cbn [fst] in Hk. subst k'. now exists v.
Qed.

Lemma has_key_set_inv (d : list (Z * pyval)) (k k' : Z) (v : pyval) :
  has_key (dict_set Z.eqb d k v) k' -> k' = k \/ has_key d k'.
Proof.
  rewrite !has_key_in, dict_set_keys.
  destruct (existsb (Z.eqb k) (map fst d)); [now right|].
  rewrite in_app_iff. cbn [In]. intuition.
Qed.

Lemma scanLoop_entries
      (net : trace -> string -> list (string * pyval) -> Response)
      (all ids : list (Z * Z)) (s s' : self) (base : string) (tr tr' : trace) :
  getitem (config s) "url" = Ok (PyStr base) ->
  scanLoop net all ids s tr = (Ok s', tr') ->
  NoDup (map fst (torrentdata s)) ->
  NoDup (map fst (torrentdata s'))
  /\ forall k, has_key (torrentdata s') k ->
               has_key (torrentdata s) k \/ In k (map snd ids).
Proof.
  revert s tr. induction ids as [|id ids IH]; intros s tr Hurl H Hnd.
  - cbn [scanLoop ret] in H. injection H as <- <-. split; [exact Hnd | tauto].
  - cbn [scanLoop] in H. unfold bind at 1 in H.
    pose proof (scanTorrent_step net all id s base tr Hurl) as Hstep.
    destruct (scanTorrent net all id s tr) as [[s1| |] tr1]; try discriminate H.
    destruct Hstep as [[data ->] _].
    apply IH in H; [| exact Hurl | cbn [torrentdata]; now apply dict_set_NoDup].
    cbn [torrentdata] in H. destruct H as [Hnd' Hkeys].
    split; [exact Hnd'|]. intros k Hk. cbn [map In].
    destruct (Hkeys k Hk) as [Hin|Hin]; [|tauto].
    apply has_key_set_inv in Hin. destruct Hin as [->|Hin]; tauto.
Qed.

(** X18. [torrentdata] is keyed by torrent id: when [scanTorrents] goes
    through on an object whose entries have distinct ids, the entries still
    have distinct ids, and each belongs to an id that was there before or to
    a record of [snatches].  A release listed twice is held, and afterwards
    linked, once. *)
Theorem scanTorrents_one_entry_per_torrent
        (net : trace -> string -> list (string * pyval) -> Response)
        (s s' : self) (base : string) (tr tr' : trace) :
  getitem (config s) "url" = Ok (PyStr base) ->
  scanTorrents net s tr = (Ok s', tr') ->
  NoDup (map fst (torrentdata s)) ->
  NoDup (map fst (torrentdata s'))
  /\ (forall k, has_key (torrentdata s') k ->
                has_key (torrentdata s) k \/ In k (map snd (snatches s)))
  /\ forall f tr2,
       (List.length (snd (processFiles f s' tr2))
        <= List.length tr2 + List.length (map fst (torrentdata s')))%nat.
Proof.
  intros Hurl H Hnd. unfold scanTorrents in H.
  destruct (scanLoop_entries net _ _ s s' base tr tr' Hurl H Hnd) as [Hnd' Hkeys].
  split; [exact Hnd'|]. split; [exact Hkeys|].
  intros f tr2. unfold processFiles.
  destruct (processLoop_effects f (config s') (torrentdata s') tr2)
    as (cmds & -> & _ & Hlen).
  rewrite length_app, length_map. lia.
Qed.

Lemma scanTorrents_one_entry_per_torrent_witness :
  exists s' tr',
    scanTorrents always_success
      (mkSelf scenario_config PyNone (Some (PyInt 7)) [(1, 10); (2, 20); (1, 10)] []) []
    = (Ok s', tr')
    /\ map fst (torrentdata s') = [10; 20]
    /\ NoDup (map fst (torrentdata s')).
Proof.
  eexists. eexists. split; [vm_compute; reflexivity|].
  split; [reflexivity|].
  match goal with
  | |- NoDup (map fst (torrentdata ?s')) =>
      apply (scanTorrents_one_entry_per_torrent always_success
               (mkSelf scenario_config PyNone (Some (PyInt 7))
                       [(1, 10); (2, 20); (1, 10)] [])
               s' "https://tracker.example" []
               [ProgressBar (mkfloat 0 0) 40 false;
                SessionGet "https://tracker.example/ajax.php"
                           [("action", PyStr "torrent"); ("id", PyInt 10)];
                ProgressBar (mkfloat 6004799503160661 (- 54)) 40 true;
                SessionGet "https://tracker.example/ajax.php"
                           [("action", PyStr "torrent"); ("id", PyInt 20)];
                ProgressBar (mkfloat 0 0) 40 false;
                SessionGet "https://tracker.example/ajax.php"
                           [("action", PyStr "torrent"); ("id", PyInt 10)]])
  end.
  - reflexivity.
  - vm_compute. reflexivity.
  - constructor.
Defined.
